(** * go-bc5: the BC5 red/green block codec, embedded and verified

    The package [bc5] (file [bc5.go]) compresses the red and green channels of
    an RGBA image in 4x4 blocks of 16 bytes each.  This development embeds the
    package function by function and states its properties as theorems.

    Conventions of the embedding:
    - a Go [byte], [uint32], [uint64] or [int] is a [Z]; where the Go operation
      can wrap, the wrap is written out ([Go.u8], [Go.u32], [Go.u64], [Go.int]);
    - a [[]byte] is a [list Z];
    - a [float64] is a primitive binary64 [float]; every operation rounds on
      its own (no fused multiply-add);
    - a [float32] is a [spec_float] at precision 24;
    - a function that can panic or return an [error] returns a [Go.result];
    - a pointer that can be nil is an [option], and a slice whose capacity
      matters comes with the elements its backing array holds beyond its
      length. *)

From Stdlib Require Import String ZArith List Bool Lia.
From Stdlib Require Import Floats.
Import ListNotations.
Open Scope Z_scope.

(** ** The Go language: integers, slices, failures *)

Module Go.

Definition u8 (z : Z) : Z := z mod 256.
Definition u32 (z : Z) : Z := z mod 2 ^ 32.
Definition u64 (z : Z) : Z := z mod 2 ^ 64.
(** Two's complement 64-bit [int]. *)
Definition int (z : Z) : Z := (z + 2 ^ 63) mod 2 ^ 64 - 2 ^ 63.
(** Two's complement [int32]. *)
Definition i32 (z : Z) : Z := (z + 2 ^ 31) mod 2 ^ 32 - 2 ^ 31.

Definition len {A} (s : list A) : Z := Z.of_nat (length s).

(** [s[lo:hi]], for [0 <= lo <= hi <= len s]. *)
Definition slice {A} (s : list A) (lo hi : Z) : list A :=
  firstn (Z.to_nat (hi - lo)) (skipn (Z.to_nat lo) s).

(** [s[lo:]]. *)
Definition sliceFrom {A} (s : list A) (lo : Z) : list A :=
  skipn (Z.to_nat lo) s.

(** [make([]T, n)] with zero value [z]. *)
Definition make {A} (z : A) (n : Z) : list A := repeat z (Z.to_nat n).

(** [s[i] = v], for [0 <= i < len s]. *)
Fixpoint set {A} (s : list A) (i : nat) (v : A) : list A :=
  match s, i with
  | [], _ => []
  | _ :: t, O => v :: t
  | h :: t, S j => h :: set t j v
  end.

(** [copy(dst[lo:], src)]: the elements of [src] that fit overwrite [dst]
    from position [lo] on. *)
Fixpoint copyAt {A} (dst : list A) (lo : nat) (src : list A) : list A :=
  match dst, lo with
  | [], _ => []
  | h :: t, S j => h :: copyAt t j src
  | _ :: t, O =>
      match src with
      | [] => dst
      | x :: src' => x :: copyAt t O src'
      end
  end.

(** The numbers [0, 1, ..., n-1] a counting loop runs through. *)
Definition upto (n : Z) : list Z := map Z.of_nat (seq 0 (Z.to_nat n)).

Inductive failure : Type :=
| errorString (msg : string)   (* a value made by [errors.New] *)
| panic (msg : string).        (* a run-time panic *)

Inductive result (A : Type) : Type :=
| Ok (a : A)
| Fail (f : failure).
Arguments Ok {A} a.
Arguments Fail {A} f.

Definition bind {A B} (r : result A) (k : A -> result B) : result B :=
  match r with
  | Ok a => k a
  | Fail f => Fail f
  end.

(** [s[i]] with its run-time bounds check. *)
Definition index {A} (s : list A) (i : Z) : result A :=
  if (i <? 0) || (len s <=? i) then Fail (panic "index out of range")
  else match nth_error s (Z.to_nat i) with
       | Some v => Ok v
       | None => Fail (panic "index out of range")
       end.

(** [s[lo:hi]] with its run-time bounds check, for a slice [s] whose
    backing array holds the elements [spare] after it: the capacity of [s]
    is [len s + len spare], and Go checks [hi] against the capacity. *)
Definition sliceChecked {A} (s spare : list A) (lo hi : Z) : result (list A) :=
  if (lo <? 0) || (hi <? lo) || (len s + len spare <? hi)
  then Fail (panic "slice bounds out of range")
  else Ok (slice (s ++ spare) lo hi).

(** [s[i] = v] with its run-time bounds check. *)
Definition store {A} (s : list A) (i : Z) (v : A) : result (list A) :=
  if (i <? 0) || (len s <=? i) then Fail (panic "index out of range")
  else Ok (set s (Z.to_nat i) v).

(** A pointer is [None] when it is nil; using a nil pointer panics. *)
Definition deref {A} (p : option A) : result A :=
  match p with
  | Some a => Ok a
  | None => Fail (panic "nil pointer dereference")
  end.

(** A loop whose body can fail. *)
Fixpoint forM {A S} (xs : list A) (body : S -> A -> result S) (s : S)
  : result S :=
  match xs with
  | [] => Ok s
  | x :: xs' => bind (body s x) (forM xs' body)
  end.

End Go.

Notation "x <- c ;; k" := (Go.bind c (fun x => k))
  (at level 61, c at next level, right associativity).

(** ** [encoding/binary]: big-endian integers *)

Module BigEndian.

(** [binary.BigEndian.PutUint64(b, v)] on a fresh 8-byte [b]. *)
Definition PutUint64 (v : Z) : list Z :=
  [ Go.u8 (Z.shiftr v 56); Go.u8 (Z.shiftr v 48); Go.u8 (Z.shiftr v 40);
    Go.u8 (Z.shiftr v 32); Go.u8 (Z.shiftr v 24); Go.u8 (Z.shiftr v 16);
    Go.u8 (Z.shiftr v 8); Go.u8 v ].

(** [binary.BigEndian.Uint64(b)]. *)
Definition Uint64 (b : list Z) : Z :=
  Z.lor (nth 7 b 0)
   (Z.lor (Z.shiftl (nth 6 b 0) 8)
    (Z.lor (Z.shiftl (nth 5 b 0) 16)
     (Z.lor (Z.shiftl (nth 4 b 0) 24)
      (Z.lor (Z.shiftl (nth 3 b 0) 32)
       (Z.lor (Z.shiftl (nth 2 b 0) 40)
        (Z.lor (Z.shiftl (nth 1 b 0) 48)
               (Z.shiftl (nth 0 b 0) 56))))))).

(** [binary.BigEndian.PutUint32(b, v)] on a 4-byte [b]. *)
Definition PutUint32 (v : Z) : list Z :=
  [ Go.u8 (Z.shiftr v 24); Go.u8 (Z.shiftr v 16); Go.u8 (Z.shiftr v 8);
    Go.u8 v ].

(** [binary.BigEndian.Uint32(b)]. *)
Definition Uint32 (b : list Z) : Z :=
  Z.lor (nth 3 b 0)
   (Z.lor (Z.shiftl (nth 2 b 0) 8)
    (Z.lor (Z.shiftl (nth 1 b 0) 16)
           (Z.shiftl (nth 0 b 0) 24))).

End BigEndian.

(** ** Floating point as Go computes it *)

Module F64.

(** [float64(v)] for an integer [v]; exact for [0 <= v < 2^53]. *)
Definition ofInt (v : Z) : float := PrimFloat.of_uint63 (Uint63.of_Z v).

(** The integer part of a float, rounding toward zero; 0 for NaN and the
    infinities. *)
Definition trunc (f : spec_float) : Z :=
  match f with
  | S754_finite s m e =>
      let a := Z.shiftl (Zpos m) e in if s then - a else a
  | _ => 0
  end.

(** [byte(f)].  For [0 <= f < 256] Go truncates toward zero.  Outside that
    range Go leaves the result to the implementation; the embedding keeps
    the low 8 bits of the truncated value. *)
Definition toByte (f : float) : Z := Go.u8 (trunc (Prim2SF f)).

(** [math.Abs], [math.Sqrt] and [math.Pow(x, 2)]. *)
Definition Abs (x : float) : float := PrimFloat.abs x.
Definition Sqrt (x : float) : float := PrimFloat.sqrt x.
Definition Pow2 (x : float) : float := (x * x)%float.

End F64.

Module F32.

(** [float32(v)] for an [int] [v]: the nearest binary32, ties to even. *)
Definition ofInt (v : Z) : spec_float := binary_normalize 24 128 v 0 false.

Definition div (x y : spec_float) : spec_float := SFdiv 24 128 x y.

(** [int(f)]: truncation toward zero. *)
Definition toInt (f : spec_float) : Z := Go.int (F64.trunc f).

End F32.

(** ** [image], [image/color] and [image/draw], as far as the package uses them *)

Module color.

Record RGBA : Type := mkRGBA { R : Z; G : Z; B : Z; A : Z }.

(** [color.RGBA{}] *)
Definition zero : RGBA := mkRGBA 0 0 0 0.

End color.

Module image.

Record Point : Type := mkPoint { X : Z; Y : Z }.
Record Rectangle : Type := mkRectangle { Min : Point; Max : Point }.

(** [image.ZR] *)
Definition ZR : Rectangle := mkRectangle (mkPoint 0 0) (mkPoint 0 0).

(** [image.Rect(x0, y0, x1, y1)] *)
Definition Rect (x0 y0 x1 y1 : Z) : Rectangle :=
  let '(x0, x1) := if x1 <? x0 then (x1, x0) else (x0, x1) in
  let '(y0, y1) := if y1 <? y0 then (y1, y0) else (y0, y1) in
  mkRectangle (mkPoint x0 y0) (mkPoint x1 y1).

(** [r.Dx()], [r.Dy()], [r.Size()] *)
Definition Dx (r : Rectangle) : Z := Go.int (X (Max r) - X (Min r)).
Definition Dy (r : Rectangle) : Z := Go.int (Y (Max r) - Y (Min r)).
Definition Size (r : Rectangle) : Point := mkPoint (Dx r) (Dy r).

(** [r.Empty()] *)
Definition Empty (r : Rectangle) : bool :=
  (X (Max r) <=? X (Min r)) || (Y (Max r) <=? Y (Min r)).

(** [p.In(r)] *)
Definition In (p : Point) (r : Rectangle) : bool :=
  (X (Min r) <=? X p) && (X p <? X (Max r)) &&
  (Y (Min r) <=? Y p) && (Y p <? Y (Max r)).

(** [r.Intersect(s)] *)
Definition Intersect (r s : Rectangle) : Rectangle :=
  let r' := mkRectangle
              (mkPoint (Z.max (X (Min r)) (X (Min s)))
                       (Z.max (Y (Min r)) (Y (Min s))))
              (mkPoint (Z.min (X (Max r)) (X (Max s)))
                       (Z.min (Y (Max r)) (Y (Max s)))) in
  if Empty r' then ZR else r'.

(** [r.Add(p)] *)
Definition Add (r : Rectangle) (p : Point) : Rectangle :=
  mkRectangle (mkPoint (X (Min r) + X p) (Y (Min r) + Y p))
              (mkPoint (X (Max r) + X p) (Y (Max r) + Y p)).

(** [image.RGBA]: the pixel bytes, four per pixel, row after row; the
    field [Rect] of the Go struct is called [Bounds] here, after its
    accessor method. *)
Record RGBA : Type := mkRGBA { Pix : list Z; Stride : Z; Bounds : Rectangle }.

(** [&image.RGBA{}] *)
Definition empty : RGBA := mkRGBA [] 0 ZR.

(** [image.NewRGBA(r)] *)
Definition NewRGBA (r : Rectangle) : RGBA :=
  mkRGBA (Go.make 0 (4 * Dx r * Dy r)) (4 * Dx r) r.

(** [p.PixOffset(x, y)] *)
Definition PixOffset (p : RGBA) (x y : Z) : Z :=
  (y - Y (Min (Bounds p))) * Stride p + (x - X (Min (Bounds p))) * 4.

(** [p.RGBAAt(x, y)]; an image built by this module holds the four bytes
    of every pixel of its bounds. *)
Definition RGBAAt (p : RGBA) (x y : Z) : color.RGBA :=
  if negb (In (mkPoint x y) (Bounds p)) then color.zero
  else
    let s := Go.sliceFrom (Pix p) (PixOffset p x y) in
    color.mkRGBA (nth 0 s 0) (nth 1 s 0) (nth 2 s 0) (nth 3 s 0).

(** [p.SetRGBA(x, y, c)] *)
Definition SetRGBA (p : RGBA) (x y : Z) (c : color.RGBA) : RGBA :=
  if negb (In (mkPoint x y) (Bounds p)) then p
  else
    let i := Z.to_nat (PixOffset p x y) in
    mkRGBA (Go.copyAt (Pix p) i [color.R c; color.G c; color.B c; color.A c])
           (Stride p) (Bounds p).

(** [p.SubImage(r)]: shares the pixels of [p] from the corner of [r] on. *)
Definition SubImage (p : RGBA) (r : Rectangle) : RGBA :=
  let r := Intersect r (Bounds p) in
  if Empty r then empty
  else mkRGBA (Go.sliceFrom (Pix p) (PixOffset p (X (Min r)) (Y (Min r))))
              (Stride p) r.

(** The copy loop of [draw.Draw]: the pixels of [r] in [dst] are taken
    from [src], starting at [(sx, sy)] there. *)
Definition copyRect (dst : RGBA) (r : Rectangle) (src : RGBA) (sx sy : Z)
  : RGBA :=
  fold_left
    (fun d dy =>
       fold_left
         (fun d dx =>
            SetRGBA d (X (Min r) + dx) (Y (Min r) + dy)
                    (RGBAAt src (sx + dx) (sy + dy)))
         (Go.upto (Dx r)) d)
    (Go.upto (Dy r)) dst.

(** [draw.Draw(dst, r, src, sp, draw.Src)] between two [image.RGBA]: the
    rectangle is clipped to both images, then every pixel of it is copied. *)
Definition Draw (dst : RGBA) (r : Rectangle) (src : RGBA) (sp : Point)
  : RGBA :=
  let orig := Min r in
  let r1 := Intersect r (Bounds dst) in
  let r2 := Intersect r1
              (Add (Bounds src) (mkPoint (X orig - X sp) (Y orig - Y sp))) in
  let sx := X sp + (X (Min r2) - X orig) in
  let sy := Y sp + (Y (Min r2) - Y orig) in
  if Empty r2 then dst else copyRect dst r2 src sx sy.

End image.

(** ** [io] and [bytes]: readers, writers, buffers *)

Module io.

(** [io.Writer]: [Write(p)] returns the writer after the call, the number
    of bytes written and an error, if any. *)
Class Writer (W : Type) : Type :=
  Write : W -> list Z -> W * (Z * option Go.failure).

(** [io.Reader] as [ioutil.ReadAll] sees it: all the bytes, or an error. *)
Class Reader (R : Type) : Type :=
  ReadAll : R -> Go.result (list Z).

(** A [bytes.Buffer] takes every byte it is given and hands all of them
    back. *)
#[export] Instance bufferWriter : Writer (list Z) :=
  fun w p => (w ++ p, (Go.len p, None)).

#[export] Instance bufferReader : Reader (list Z) :=
  fun r => Go.Ok r.

(** [buf.Next(n)]: the next [n] bytes and the buffer after them. *)
Definition Next (buf : list Z) (n : Z) : list Z * list Z :=
  (firstn (Z.to_nat n) buf, skipn (Z.to_nat n) buf).

End io.

(** ** Package [bc5] *)

Module bc5.

(** [type BlueMode int] and its four constants. *)
Definition BlueMode : Type := Z.
Definition Zero : BlueMode := 0.
Definition One : BlueMode := 1.
Definition ComputeNormal : BlueMode := 2.
Definition Greyscale : BlueMode := 3.

(** [type BC5 struct]; [Mode] is the embedded [BlueMode] field. *)
Record BC5 : Type := mkBC5
  { Data : list Z; Rect : image.Rectangle; Mode : BlueMode }.

(** [new(BC5)] *)
Definition newBC5 : BC5 := mkBC5 [] image.ZR Zero.

(** The coordinates a loop [for y < ny { for x < nx {..} }] visits, in
    the order it visits them, as pairs [(x, y)]. *)
Definition grid (ny nx : Z) : list (Z * Z) :=
  flat_map (fun y => map (fun x => (x, y)) (Go.upto nx)) (Go.upto ny).

(** [int(float32(v)/4)] *)
Definition quarter (v : Z) : Z :=
  F32.toInt (F32.div (F32.ofInt v) (F32.ofInt 4)).

Definition normalize (v : Z) : float := (F64.ofInt v / 255)%float.

Definition denormalize (v : float) : Z := F64.toByte (v * 255)%float.

Definition generatePalette (c0 c1 : float) : list float :=
  if (c1 <? c0)%float
  then [ c0; c1;
         ((6 * c0 + 1 * c1) / 7)%float;
         ((5 * c0 + 2 * c1) / 7)%float;
         ((4 * c0 + 3 * c1) / 7)%float;
         ((3 * c0 + 4 * c1) / 7)%float;
         ((2 * c0 + 5 * c1) / 7)%float;
         ((1 * c0 + 6 * c1) / 7)%float ]
  else [ c0; c1;
         ((4 * c0 + 1 * c1) / 5)%float;
         ((3 * c0 + 2 * c1) / 5)%float;
         ((2 * c0 + 3 * c1) / 5)%float;
         ((1 * c0 + 4 * c1) / 5)%float;
         0%float;
         1%float ].

(** [pal[i]] for a loop counter [i] that stays inside the array. *)
Definition at8 (pal : list float) (i : Z) : float :=
  nth (Z.to_nat i) pal 0%float.

Definition getIndices (b : list Z) : Go.result (list Z) :=
  if negb (Go.len b =? 6) then Go.Fail (Go.panic "invalid index array size")
  else
    let data := BigEndian.Uint64 ([0; 0] ++ b) in
    Go.Ok (map (fun i => Z.land (Z.shiftr data (i * 3)) 7) (Go.upto 16)).

(** The closure [nearest] of [compressBlock]. *)
Definition nearest (pal : list float) (v : Z) : Z :=
  Go.u8
    (fold_left
       (fun ni i =>
          if (F64.Abs (at8 pal i - normalize v)
              <? F64.Abs (at8 pal ni - normalize v))%float
          then i else ni)
       (Go.upto 8) 0).

(** One step of the index loop: [u = (u << 3) | uint64(ix)]. *)
Definition pushIndex (u ix : Z) : Z := Z.lor (Go.u64 (Z.shiftl u 3)) ix.

(** The first loop of [compressBlock]: the extremes of both channels. *)
Definition minmax (block : image.RGBA) : Z * Z * Z * Z :=
  fold_left
    (fun '(minR, maxR, minG, maxG) '(x, y) =>
       let c := image.RGBAAt block x y in
       let minR := if color.R c <? minR then color.R c else minR in
       let maxR := if maxR <? color.R c then color.R c else maxR in
       let minG := if color.G c <? minG then color.G c else minG in
       let maxG := if maxG <? color.G c then color.G c else maxG in
       (minR, maxR, minG, maxG))
    (grid 4 4) (255, 0, 255, 0).

(** The second loop of [compressBlock]: the two index accumulators. *)
Definition indexLoop (block : image.RGBA) (palR palG : list float) : Z * Z :=
  fold_left
    (fun '(rIndexU, gIndexU) '(x, y) =>
       let c := image.RGBAAt block x y in
       (pushIndex rIndexU (nearest palR (color.R c)),
        pushIndex gIndexU (nearest palG (color.G c))))
    (grid 4 4) (0, 0).

Definition compressBlock (block : image.RGBA) : list Z :=
  let '(minR, maxR, minG, maxG) := minmax block in
  let palR := generatePalette (normalize minR) (normalize maxR) in
  let palG := generatePalette (normalize minG) (normalize maxG) in
  let '(rIndexU, gIndexU) := indexLoop block palR palG in
  let rIxBytes := BigEndian.PutUint64 rIndexU in
  let gIxBytes := BigEndian.PutUint64 gIndexU in
  let blockBytes := Go.make 0 16 in
  let blockBytes := Go.set blockBytes 0 (denormalize (at8 palR 0)) in
  let blockBytes := Go.set blockBytes 1 (denormalize (at8 palR 1)) in
  let blockBytes := Go.copyAt blockBytes 2 (Go.slice rIxBytes 2 8) in
  let blockBytes := Go.set blockBytes 8 (denormalize (at8 palG 0)) in
  let blockBytes := Go.set blockBytes 9 (denormalize (at8 palG 1)) in
  let blockBytes := Go.copyAt blockBytes 10 (Go.slice gIxBytes 2 8) in
  blockBytes.

(** The blue byte of a decompressed pixel, from the palette values [r] and
    [g] of the pixel and its red byte [pxR]. *)
Definition blue (blueMode : BlueMode) (r g : float) (pxR : Z) : Z :=
  if blueMode =? ComputeNormal then
    denormalize
      (F64.Sqrt (1 - F64.Pow2 (2 * r - 1) + F64.Pow2 (2 * g - 1)) / 2
       + 0.5)%float
  else if blueMode =? Greyscale then pxR
  else if blueMode =? One then denormalize 1%float
  else 0.

Definition decompressBlock (block : list Z) (blueMode : BlueMode)
  : Go.result image.RGBA :=
  if negb (Go.len block =? 16) then Go.Fail (Go.panic "invalid block size")
  else
    let r := generatePalette (normalize (nth 0 block 0))
                             (normalize (nth 1 block 0)) in
    rIndices <- getIndices (Go.slice block 2 8) ;;
    let g := generatePalette (normalize (nth 8 block 0))
                             (normalize (nth 9 block 0)) in
    gIndices <- getIndices (Go.sliceFrom block 10) ;;
    let img := image.NewRGBA (image.Rect 0 0 4 4) in
    st <- Go.forM (grid 4 4)
            (fun '(img, pxIndex) '(x, y) =>
               ri <- Go.index rIndices pxIndex ;;
               rv <- Go.index r ri ;;
               gi <- Go.index gIndices pxIndex ;;
               gv <- Go.index g gi ;;
               let pxR := denormalize rv in
               let pxG := denormalize gv in
               let pxB := blue blueMode rv gv pxR in
               Go.Ok (image.SetRGBA img x y (color.mkRGBA pxR pxG pxB 1),
                      pxIndex + 1))
            (img, 0) ;;
    Go.Ok (fst st).

(** [makeBlocks]: a slice of [(X/4) * (Y/4)] block pointers, all nil at
    first; the loops fill one slot for every cell they visit.  [make] panics
    on a negative length; the limits of memory are not modelled. *)
Definition makeBlocks (img : image.RGBA)
  : Go.result (list (option image.RGBA)) :=
  let size := image.Size (image.Bounds img) in
  let n := Go.int (Z.quot (image.X size) 4 * Z.quot (image.Y size) 4) in
  if n <? 0 then Go.Fail (Go.panic "makeslice: len out of range")
  else
    st <- Go.forM (grid (Z.quot (image.Y size) 4) (Z.quot (image.X size) 4))
            (fun '(blocks, currentBlockIx) '(x, y) =>
               let subImg :=
                 image.SubImage img
                   (image.Rect (x * 4) (y * 4) (x * 4 + 4) (y * 4 + 4)) in
               let blk := image.NewRGBA (image.Rect 0 0 4 4) in
               blocks <- Go.store blocks currentBlockIx
                           (Some (image.Draw blk (image.Bounds blk) subImg
                                             (image.Min (image.Bounds subImg)))) ;;
               Go.Ok (blocks, currentBlockIx + 1))
            (Go.make None n, 0) ;;
    Go.Ok (fst st).

Definition SetFromRGBA (b : BC5) (rgba : image.RGBA) : Go.result BC5 :=
  let size := image.Size (image.Bounds rgba) in
  if negb (image.X size =? image.Y size)
  then Go.Fail (Go.errorString "image must be square")
  else if negb (Z.rem (image.X size) 4 =? 0)
  then Go.Fail (Go.errorString "size must be a multiple of 4")
  else
    blocks <- makeBlocks rgba ;;
    let data := Go.make 0 (Go.len blocks * 16) in
    data <- Go.forM (Go.upto (Go.len blocks))
              (fun data i =>
                 let pos := i * 16 in
                 p <- Go.index blocks i ;;
                 block <- Go.deref p ;;
                 let c := compressBlock block in
                 Go.Ok (Go.copyAt data (Z.to_nat pos) (firstn 16 c)))
              data ;;
    Go.Ok (mkBC5 data (image.Bounds rgba) (Mode b)).

Definition NewBC5FromRGBA (rgba : image.RGBA) : Go.result BC5 :=
  SetFromRGBA newBC5 rgba.

Definition Size (b : BC5) : Z :=
  Go.i32 (Go.i32 (image.X (image.Size (Rect b)))
          * Go.i32 (image.Y (image.Size (Rect b)))).

Definition Decompress (b : BC5) : Go.result image.RGBA :=
  blocks <- Go.forM (Go.upto (Z.quot (Go.len (Data b)) 16))
              (fun blocks i =>
                 let pos := i * 16 in
                 blk <- decompressBlock (Go.slice (Data b) pos (pos + 16))
                                        (Mode b) ;;
                 Go.Ok (blocks ++ [blk]))
              [] ;;
  let rgba := image.NewRGBA (Rect b) in
  Go.forM (grid (image.Y (image.Size (image.Bounds rgba)))
                (image.X (image.Size (Rect b))))
    (fun rgba '(x, y) =>
       let blockIx :=
         Go.int (Z.quot (Go.int (quarter y * image.X (image.Size (Rect b)))) 4
                 + quarter x) in
       blk <- Go.index blocks blockIx ;;
       Go.Ok (image.SetRGBA rgba x y
                (image.RGBAAt blk (Z.rem x 4) (Z.rem y 4))))
    rgba.

(** [b.At(x, y)] for a [b] whose [Data] has the bytes [spare] of its
    backing array after it (see [Go.sliceChecked]). *)
Definition AtCap (b : BC5) (spare : list Z) (x y : Z) : Go.result color.RGBA :=
  let size := image.Size (Rect b) in
  if (x <? 0) || (image.X size <=? x) || (y <? 0) || (image.Y size <=? y)
  then Go.Ok color.zero
  else
    let blockIx :=
      Go.int (Go.int (quarter y * image.Y size) + Go.int (quarter x * 16)) in
    s <- Go.sliceChecked (Data b) spare blockIx (blockIx + 16) ;;
    block <- decompressBlock s (Mode b) ;;
    Go.Ok (image.RGBAAt block (Z.rem x 4) (Z.rem y 4)).

(** [b.At(x, y)] for a [b] whose [Data] has no capacity beyond its length,
    as [SetFromRGBA] makes it. *)
Definition At (b : BC5) (x y : Z) : Go.result color.RGBA := AtCap b [] x y.

(** [[]byte(s)] *)
Definition bytesOfString (s : string) : list Z :=
  map (fun c => Z.of_N (Ascii.N_of_ascii c)) (list_ascii_of_string s).

Definition strToDword (s : string) : Z :=
  BigEndian.Uint32 (bytesOfString s).

Definition Encode {W} `{io.Writer W} (img : BC5) (w : W)
  : W * option Go.failure :=
  let size := image.Size (Rect img) in
  let headerBytes := Go.make 0 12 in
  let headerBytes :=
    Go.copyAt headerBytes 0 (BigEndian.PutUint32 (strToDword "BC5 ")) in
  let headerBytes :=
    Go.copyAt headerBytes 4 (BigEndian.PutUint32 (Go.u32 (image.X size))) in
  let headerBytes :=
    Go.copyAt headerBytes 8 (BigEndian.PutUint32 (Go.u32 (image.Y size))) in
  let '(w, (n, err)) := io.Write w headerBytes in
  match err with
  | Some e => (w, Some e)
  | None =>
      if negb (n =? 12)
      then (w, Some (Go.errorString "failed to write header"))
      else
        let '(w, (n, err)) := io.Write w (Data img) in
        match err with
        | Some e => (w, Some e)
        | None =>
            if negb (n =? Go.len (Data img))
            then (w, Some (Go.errorString "failed to write image data"))
            else (w, None)
        end
  end.

Definition Decode {R} `{io.Reader R} (r : R) : Go.result BC5 :=
  readBytes <- io.ReadAll r ;;
  if Go.len readBytes <? 12
  then Go.Fail (Go.errorString "not enough data for BC5")
  else
    let buf := readBytes in
    let '(sig, buf) := io.Next buf 4 in
    let signature := BigEndian.Uint32 sig in
    if negb (signature =? strToDword "BC5 ")
    then Go.Fail (Go.errorString "invalid file signature")
    else
      let '(wb, buf) := io.Next buf 4 in
      let width := BigEndian.Uint32 wb in
      let '(hb, buf) := io.Next buf 4 in
      let height := BigEndian.Uint32 hb in
      if Go.len readBytes <? 13
      then Go.Fail (Go.errorString "no image data found")
      else
        Go.Ok (mkBC5 (Go.sliceFrom readBytes 12)
                     (image.Rect 0 0 width height) Zero).

(** [NewBC5FromFile]; [osOpen] stands for [os.Open], which gives a reader
    of the file or an error. *)
Definition NewBC5FromFile {R} `{io.Reader R}
           (osOpen : string -> Go.result R) (bcfile : string)
  : Go.result BC5 :=
  f <- osOpen bcfile ;;
  Decode f.

End bc5.

Import bc5.

(** ** Definitions used to state the properties *)

(** The index field of a compressed block as [compressBlock] builds it from
    sixteen palette indices given in scan order: the accumulation loop
    followed by the emission of the low six bytes. *)
Definition packIndices (vs : list Z) : list Z :=
  Go.slice (BigEndian.PutUint64 (fold_left pushIndex vs 0)) 2 8.

(** Base-8 numeral with the first digit most significant. *)
Definition horner (vs : list Z) (u : Z) : Z :=
  fold_left (fun a v => a * 8 + v) vs u.

Definition isByte (v : Z) : Prop := 0 <= v < 256.
Definition isIndex (i : Z) : Prop := 0 <= i < 8.

(** A float in the closed interval from 0 to 1. *)
Definition inUnit (c : float) : Prop :=
  (0 <=? c)%float = true /\ (c <=? 1)%float = true.

(** Sixteen indices that are not a palindrome. *)
Definition indices_1000 : list Z := 1 :: repeat 0 15.

(** A 4x4 block whose first pixel alone is dark in the red channel. *)
Definition cornerBlock : image.RGBA :=
  image.mkRGBA ([0; 0; 0; 255] ++ concat (repeat [255; 0; 0; 255] 15))
               16 (image.Rect 0 0 4 4).

(** A 4x4 block with red 100 and green 200 everywhere, and the given blue
    and alpha. *)
Definition plainBlock (b a : Z) : image.RGBA :=
  image.mkRGBA (concat (repeat [100; 200; b; a] 16)) 16 (image.Rect 0 0 4 4).

(** The red bytes of a 4x4 image in scan order. *)
Definition redBytes (p : image.RGBA) : list Z :=
  map (fun '(x, y) => color.R (image.RGBAAt p x y)) (grid 4 4).

(** The compressed form of a block with red 100 and green 200 everywhere:
    reference bytes (100,100) and (200,200), all index bits zero. *)
Definition solidBlock : list Z :=
  [100; 100; 0; 0; 0; 0; 0; 0; 200; 200; 0; 0; 0; 0; 0; 0].

Definition solidData : list Z :=
  solidBlock ++ solidBlock ++ solidBlock ++ solidBlock.

(** The empty 4x4 block [makeBlocks] draws into. *)
Definition fresh4 : image.RGBA := image.NewRGBA (image.Rect 0 0 4 4).

(** The block of [makeBlocks] at block column [bx] and block row [by_]. *)
Definition blockOf (img : image.RGBA) (bx by_ : Z) : image.RGBA :=
  let sub := image.SubImage img
               (image.Rect (bx * 4) (by_ * 4) (bx * 4 + 4) (by_ * 4 + 4)) in
  image.Draw fresh4 (image.Bounds fresh4) sub (image.Min (image.Bounds sub)).

(** The blocks [makeBlocks] draws, one for every 4x4 cell its loops visit,
    row after row. *)
Definition cellBlocks (img : image.RGBA) : list image.RGBA :=
  let size := image.Size (image.Bounds img) in
  map (fun '(x, y) => blockOf img x y)
      (grid (Z.quot (image.Y size) 4) (Z.quot (image.X size) 4)).



(** An 8x8 image with red 100 and green 200 everywhere. *)
Definition solidImage : image.RGBA :=
  image.mkRGBA (concat (repeat [100; 200; 7; 9] 64)) 32 (image.Rect 0 0 8 8).


(** An image whose rectangle has its corners the wrong way round: its
    size is (-4, -4). *)
Definition invertedImage : image.RGBA :=
  image.mkRGBA [] 0 (image.mkRectangle (image.mkPoint 4 4) (image.mkPoint 0 0)).

(** The bytes of the signature "BC5 ". *)
Definition signatureBytes : list Z := [66; 67; 53; 32].

(** The twelve header bytes [Encode] writes for [img]. *)
Definition headerOf (img : BC5) : list Z :=
  signatureBytes
  ++ BigEndian.PutUint32 (Go.u32 (image.X (image.Size (Rect img))))
  ++ BigEndian.PutUint32 (Go.u32 (image.Y (image.Size (Rect img)))).

(** An 8x8 image: the upper four rows black, the lower four rows with red
    and green 255. *)
Definition twoBands : image.RGBA :=
  image.mkRGBA (concat (repeat [0; 0; 0; 255] 32)
                ++ concat (repeat [255; 255; 0; 255] 32))
               32 (image.Rect 0 0 8 8).

(** A compressed image whose width does not fit the 32-bit header field. *)
Definition tooWide : BC5 := mkBC5 [7] (image.Rect 0 0 4294967296 4) Zero.


(** ** Definitions used to state the further properties *)

(** The red, respectively green, bytes of a block in scan order. *)
Definition reds (block : image.RGBA) : list Z :=
  map (fun '(x, y) => color.R (image.RGBAAt block x y)) (grid 4 4).
Definition greens (block : image.RGBA) : list Z :=
  map (fun '(x, y) => color.G (image.RGBAAt block x y)) (grid 4 4).

(** [m] is the least, respectively greatest, element of [l]. *)
Definition isMin (m : Z) (l : list Z) : Prop := In m l /\ Forall (fun v => m <= v) l.
Definition isMax (m : Z) (l : list Z) : Prop := In m l /\ Forall (fun v => v <= m) l.

(** The distance [nearest] compares. *)
Definition dist (pal : list float) (v : Z) (i : Z) : float :=
  F64.Abs (at8 pal i - normalize v)%float.

(** A block all of whose red and green bytes are bytes. *)
Definition byteBlock (block : image.RGBA) : Prop :=
  Forall isByte (reds block) /\ Forall isByte (greens block).

(** The 4x4 rectangle with upper left corner [(x0, y0)]. *)
Definition square4 (x0 y0 : Z) : image.Rectangle :=
  image.mkRectangle (image.mkPoint x0 y0) (image.mkPoint (x0 + 4) (y0 + 4)).

(** The palette index of pixel [i] (in scan order) that [getIndices] reads
    from the red, respectively green, index field of a 16-byte block. *)
Definition redIndex (block : list Z) (i : Z) : Z :=
  Z.land (Z.shiftr (BigEndian.Uint64 ([0; 0] ++ Go.slice block 2 8)) (i * 3)) 7.
Definition greenIndex (block : list Z) (i : Z) : Z :=
  Z.land (Z.shiftr (BigEndian.Uint64 ([0; 0] ++ Go.sliceFrom block 10)) (i * 3)) 7.

(** The pixel [decompressBlock] computes for position [i] of the scan. *)
Definition decodedPixel (block : list Z) (blueMode : BlueMode) (i : Z)
  : color.RGBA :=
  let r := generatePalette (normalize (nth 0 block 0))
                           (normalize (nth 1 block 0)) in
  let g := generatePalette (normalize (nth 8 block 0))
                           (normalize (nth 9 block 0)) in
  let rv := at8 r (redIndex block i) in
  let gv := at8 g (greenIndex block i) in
  color.mkRGBA (denormalize rv) (denormalize gv)
               (blue blueMode rv gv (denormalize rv)) 1.

(** The 4x4 image whose pixel at scan position [i] is [col i]. *)
Definition blockImage (col : Z -> color.RGBA) : image.RGBA :=
  image.mkRGBA
    (flat_map (fun i => [color.R (col i); color.G (col i);
                         color.B (col i); color.A (col i)]) (Go.upto 16))
    16 (image.Rect 0 0 4 4).

(** The byte a value is reproduced as when it is quantized to the palette
    of the reference bytes [mn] and [mx]: the entry [nearest] picks,
    denormalized. *)
Definition quantizeByte (mn mx v : Z) : Z :=
  let pal := generatePalette (normalize mn) (normalize mx) in
  denormalize (at8 pal (nearest pal v)).

(** The bytes with their normalized values. *)
Definition normTable : list (Z * float) :=
  Eval vm_compute in map (fun v => (v, normalize v)) (Go.upto 256).

(** The byte of the palette entry nearest to the normalized value [nv]:
    the scan of [nearest] over the entries, each with its byte, carrying
    the byte and the distance of the best entry so far. *)
Definition pickByte (pal : list (float * Z)) (nv : float) : Z :=
  match pal with
  | [] => 0
  | (p0, b0) :: _ =>
      fst (fold_left (fun '(q, d) '(p, b) =>
                        let di := F64.Abs (p - nv)%float in
                        if (di <? d)%float then (b, di) else (q, d))
                     pal (b0, F64.Abs (p0 - nv)%float))
  end.

(** The bound on the values [v] of the first [cnt] entries of [l], for the
    references [mn] and [mx] with palette [pal]: the error is at most [e],
    and a reference is reproduced exactly. *)
Fixpoint checkValues (pal : list (float * Z)) (mn mx e : Z) (cnt : nat)
         (l : list (Z * float)) : bool :=
  match cnt, l with
  | S cnt', (v, nv) :: l' =>
      let q := pickByte pal nv in
      (Z.abs (q - v) <=? e) &&
      (negb ((v =? mn) || (v =? mx)) || (q =? v)) &&
      checkValues pal mn mx e cnt' l'
  | _, _ => true
  end.

(** [checkValues] for the least reference [mn] and every greatest
    reference of [ms], the values running from [mn] to the greatest
    reference: [cnt] counts the entries of [l] before the head of [ms]. *)
Fixpoint checkMaxima (mn : Z) (nmn : float) (cnt : nat)
         (l ms : list (Z * float)) : bool :=
  match ms with
  | [] => true
  | (mx, nmx) :: ms' =>
      let pal := map (fun p => (p, denormalize p)) (generatePalette nmn nmx) in
      checkValues pal mn mx ((mx - mn + 10) / 10) (S cnt) l &&
      checkMaxima mn nmn (S cnt) l ms'
  end.

(** [checkMaxima] for every least reference of [l]. *)
Fixpoint checkMinima (l : list (Z * float)) : bool :=
  match l with
  | [] => true
  | (mn, nmn) :: l' => checkMaxima mn nmn 0 l l && checkMinima l'
  end.

(** The red and green byte [compressBlock] and [decompressBlock] together
    give the pixel at [(x, y)] of a block: its bytes quantized between the
    extremes of their channels. *)
Definition quantized (block : image.RGBA) (x y : Z) : Z * Z :=
  let '(minR, maxR, minG, maxG) := minmax block in
  let c := image.RGBAAt block x y in
  (quantizeByte minR maxR (color.R c), quantizeByte minG maxG (color.G c)).

(** An image as [image.NewRGBA] makes it for [w] by [h] pixels at the
    origin: four bytes for every pixel, row after row. *)
Definition packed (w h : Z) (p : image.RGBA) : Prop :=
  image.Bounds p = image.mkRectangle (image.mkPoint 0 0) (image.mkPoint w h) /\
  image.Stride p = 4 * w /\
  Go.len (image.Pix p) = 4 * w * h.

(** The number of the block [Decompress] takes the pixel at [(x, y)] of an
    image [w] pixels wide from. *)
Definition blockIx (w x y : Z) : Z := y / 4 * w / 4 + x / 4.

(** The sixteen bytes of block [i] of the data. *)
Definition blockAt (data : list Z) (i : Z) : list Z :=
  Go.slice data (i * 16) (i * 16 + 16).

(** The byte offset [At] reads the block of the pixel at [(x, y)] from, in
    an image [h] pixels high. *)
Definition atOffset (h x y : Z) : Z := y / 4 * h + x / 4 * 16.

(** [isByte] as a test. *)
Definition isByteb (v : Z) : bool := (0 <=? v) && (v <? 256).

(** Sixteen palette indices that are not a palindrome. *)
Definition indices_ramp : list Z :=
  [0; 1; 2; 3; 4; 5; 6; 7; 0; 1; 2; 3; 4; 5; 6; 7].

(** A 4x4 block whose red bytes rise and whose green bytes fall along the
    scan. *)
Definition rampBlock : image.RGBA :=
  image.mkRGBA
    (flat_map (fun i => [16 * i; 255 - 16 * i; 0; 255]) (Go.upto 16))
    16 (image.Rect 0 0 4 4).

(** An 8x8 image with its own red and green byte at every pixel. *)
Definition rampPix : list Z :=
  flat_map (fun i => [3 * i; 255 - 2 * i; 0; 255]) (Go.upto 64).
Definition rampImage : image.RGBA :=
  image.mkRGBA rampPix (4 * 8) (image.Rect 0 0 8 8).

(** The compressed form of [solidImage], and what [Decompress] makes of
    it. *)
Definition solidBC5 : BC5 := mkBC5 solidData (image.Rect 0 0 8 8) Zero.
Definition solidOut : image.RGBA :=
  image.mkRGBA (concat (repeat [100; 200; 0; 1] 64)) 32 (image.Rect 0 0 8 8).

(** A stream [Decode] accepts: the header of a 4x4 image and one block. *)
Definition solidStream : list Z :=
  signatureBytes ++ [0; 0; 0; 4; 0; 0; 0; 4] ++ solidBlock.

(** * Properties *)

(** ** Loops, slices and failures *)

Section Loops.

Lemma in_upto n i : In i (Go.upto n) <-> 0 <= i < n.
Proof.
  unfold Go.upto. rewrite in_map_iff. split.
  - intros (k & <- & Hk). apply in_seq in Hk. lia.
  - intros Hi. exists (Z.to_nat i). split; [lia | apply in_seq; lia].
Qed.

Lemma in_grid ny nx x y :
  In (x, y) (grid ny nx) <-> 0 <= x < nx /\ 0 <= y < ny.
Proof.
  unfold grid. rewrite in_flat_map. split.
  - intros (y' & Hy & Hx). apply in_map_iff in Hx.
    destruct Hx as (x' & E & Hx). inversion E; subst.
    apply in_upto in Hy. apply in_upto in Hx. lia.
  - intros [Hx Hy]. exists y. split; [apply in_upto; lia |].
    apply in_map_iff. exists x. split; [reflexivity | apply in_upto; lia].
Qed.

Lemma upto_succ n :
  Go.upto (Z.of_nat (S n)) = 0 :: map Z.succ (Go.upto (Z.of_nat n)).
Proof.
  unfold Go.upto. rewrite !Nat2Z.id. cbn [seq map]. f_equal.
  rewrite <- seq_shift, !map_map. apply map_ext. intros a. lia.
Qed.

Lemma fold_left_ext_in {A B} (f g : A -> B -> A) (l : list B) :
  (forall a x, In x l -> f a x = g a x) ->
  forall a, fold_left f l a = fold_left g l a.
Proof.
  induction l as [| x l IH]; intros H a; [reflexivity |].
  cbn [fold_left]. rewrite (H a x) by (left; reflexivity).
  apply IH. intros a' x' Hin. apply H. right. exact Hin.
Qed.

Lemma length_set {A} (s : list A) i v : length (Go.set s i v) = length s.
Proof.
  revert i. induction s as [| h t IH]; intros [| j]; cbn; auto.
Qed.

Lemma length_copyAt {A} (dst : list A) lo src :
  length (Go.copyAt dst lo src) = length dst.
Proof.
  revert lo src. induction dst as [| h t IH]; intros lo src; [reflexivity |].
  destruct lo as [| j]; cbn [Go.copyAt].
  - destruct src as [| x src']; [reflexivity |]. cbn [length]. now rewrite IH.
  - cbn [length]. now rewrite IH.
Qed.

Lemma Forall_set {A} (P : A -> Prop) (s : list A) i v :
  Forall P s -> P v -> Forall P (Go.set s i v).
Proof.
  intros Hs Hv. revert i.
  induction Hs as [| h t Hh Ht IH]; intros [| j]; cbn; auto.
Qed.

Lemma Forall_copyAt {A} (P : A -> Prop) (dst : list A) lo src :
  Forall P dst -> Forall P src -> Forall P (Go.copyAt dst lo src).
Proof.
  intros Hd. revert lo src.
  induction Hd as [| h t Hh Ht IH]; intros lo src Hs; [constructor |].
  destruct lo as [| j]; cbn [Go.copyAt].
  - destruct Hs as [| x src' Hx Hs']; constructor; auto.
  - constructor; auto.
Qed.

(** An in-range index expression does not panic. *)
Lemma index_ok {A} (s : list A) i :
  0 <= i < Go.len s ->
  exists v, Go.index s i = Go.Ok v /\ nth_error s (Z.to_nat i) = Some v.
Proof.
  unfold Go.index, Go.len. intros Hi.
  destruct (Z.ltb_spec i 0); [lia |].
  destruct (Z.leb_spec (Z.of_nat (length s)) i); [lia |]. cbn [orb].
  destruct (nth_error s (Z.to_nat i)) as [v |] eqn:E; [eauto |].
  apply nth_error_None in E. lia.
Qed.

(** A loop that keeps an invariant indexed by the number of completed
    rounds, and whose body does not fail under it, does not fail. *)
Lemma forM_inv {A S} (Inv : nat -> S -> Prop) (body : S -> A -> Go.result S) :
  forall (xs : list A) (k : nat) (s : S),
    Inv k s ->
    (forall j x s, (k <= j < k + length xs)%nat -> In x xs -> Inv j s ->
                   exists s', body s x = Go.Ok s' /\ Inv (Datatypes.S j) s') ->
    exists s', Go.forM xs body s = Go.Ok s' /\ Inv (k + length xs)%nat s'.
Proof.
  induction xs as [| x xs IH]; intros k s Hs Hbody.
  - exists s. rewrite Nat.add_0_r. auto.
  - cbn [length] in Hbody.
    destruct (Hbody k x s ltac:(lia) (or_introl eq_refl) Hs) as (s1 & E1 & H1).
    destruct (IH (Datatypes.S k) s1 H1) as (s2 & E2 & H2).
    { intros j y t Hj Hy. apply Hbody; [lia | right; exact Hy]. }
    exists s2. cbn [Go.forM length]. rewrite E1. cbn [Go.bind].
    rewrite Nat.add_succ_r. auto.
Qed.

Lemma length_grid ny nx :
  Go.len (grid ny nx) = Z.max 0 ny * Z.max 0 nx.
Proof.
  unfold grid, Go.len, Go.upto.
  assert (H : forall (l : list nat) (n : nat),
             length (flat_map (fun y => map (fun x => (x, y))
                                            (map Z.of_nat (seq 0 n)))
                              (map Z.of_nat l))
             = (length l * n)%nat).
  { induction l as [| y l IH]; intros n; [reflexivity |].
    cbn [map flat_map length]. rewrite length_app, IH, !length_map, length_seq.
    lia. }
  rewrite H, length_seq. lia.
Qed.

(** A loop whose body never fails is a fold. *)
Lemma forM_pure {A S} (body : S -> A -> Go.result S) (g : S -> A -> S)
      (l : list A) : forall s,
  (forall s x, In x l -> body s x = Go.Ok (g s x)) ->
  Go.forM l body s = Go.Ok (fold_left g l s).
Proof.
  induction l as [| x l IH]; intros s H; [reflexivity |].
  cbn [Go.forM fold_left]. rewrite (H s x (or_introl eq_refl)). cbn [Go.bind].
  apply IH. intros t y Hy. apply H. right. exact Hy.
Qed.

Lemma set_app {A} (pre : list A) x rest v :
  Go.set (pre ++ x :: rest) (length pre) v = pre ++ v :: rest.
Proof.
  induction pre as [| a pre IH]; [reflexivity |].
  cbn [app length Go.set]. rewrite IH. reflexivity.
Qed.

(** A loop that stores one value after the other fills the slots from the
    first free one on. *)
Lemma fill_slots {A B} (f : B -> A)
      (body : list (option A) * Z -> B -> Go.result (list (option A) * Z))
      (l : list B) :
  (forall blocks ix c,
     body (blocks, ix) c
     = (blocks' <- Go.store blocks ix (Some (f c)) ;; Go.Ok (blocks', ix + 1))) ->
  forall (pre : list (option A)) (k : nat),
    Go.forM l body (pre ++ repeat None (length l + k), Go.len pre)
    = Go.Ok (pre ++ map (fun c => Some (f c)) l ++ repeat None k,
             Go.len pre + Go.len l).
Proof.
  intros Hbody. induction l as [| c l IH]; intros pre k.
  - cbn [Go.forM length Nat.add map app]. unfold Go.len. cbn [length].
    rewrite Z.add_0_r. reflexivity.
  - cbn [Go.forM length Nat.add repeat map]. rewrite Hbody.
    unfold Go.store.
    assert (Hl : Go.len (pre ++ None :: repeat None (length l + k))
                 = Go.len pre + 1 + Z.of_nat (length l + k)).
    { unfold Go.len. rewrite length_app. cbn [length]. rewrite repeat_length.
      lia. }
    destruct (Z.ltb_spec (Go.len pre) 0); [unfold Go.len in *; lia |].
    destruct (Z.leb_spec (Go.len (pre ++ None :: repeat None (length l + k)))
                         (Go.len pre)); [lia |].
    cbn [orb Go.bind]. unfold Go.len at 1. rewrite Nat2Z.id, set_app.
    replace (pre ++ Some (f c) :: repeat None (length l + k))
      with ((pre ++ [Some (f c)]) ++ repeat None (length l + k))
      by (rewrite <- app_assoc; reflexivity).
    replace (Go.len pre + 1) with (Go.len (pre ++ [Some (f c)]))
      by (unfold Go.len; rewrite length_app; cbn [length]; lia).
    rewrite IH. f_equal. f_equal.
    + rewrite <- app_assoc. reflexivity.
    + unfold Go.len. rewrite length_app. cbn [length]. lia.
Qed.

End Loops.

(** ** The index field: packing and unpacking *)

Section IndexField.

Lemma small_bits_high v k n :
  0 <= v < 2 ^ k -> 0 <= k <= n -> Z.testbit v n = false.
Proof.
  intros Hv Hn.
  rewrite <- (Z.mod_small v (2 ^ k)) by exact Hv.
  apply Z.mod_pow2_bits_high. lia.
Qed.

(** While the accumulator has room, a step of the index loop is a step of
    Horner's rule in base 8. *)
Lemma pushIndex_arith u ix :
  0 <= u < 2 ^ 61 -> isIndex ix -> pushIndex u ix = u * 8 + ix.
Proof.
  unfold isIndex. intros Hu Hix. unfold pushIndex, Go.u64.
  rewrite Z.shiftl_mul_pow2 by lia.
  rewrite Z.mod_small by lia.
  change (2 ^ 3) with 8.
  rewrite <- Z.lxor_lor, <- Z.add_nocarry_lxor; try reflexivity.
  all: apply Z.bits_inj'; intros n Hn; rewrite Z.land_spec, Z.bits_0;
    destruct (Z.ltb_spec n 3) as [Hlt | Hge].
  all: try (replace (u * 8) with (Z.shiftl u 3)
             by (rewrite Z.shiftl_mul_pow2; lia);
            rewrite Z.shiftl_spec_low by lia; reflexivity).
  all: rewrite (small_bits_high ix 3 n) by (change (2 ^ 3) with 8; lia);
    apply andb_false_r.
Qed.

Lemma fold_pushIndex vs : forall u k,
  Forall isIndex vs ->
  0 <= k -> 0 <= u < 8 ^ k -> k + Go.len vs <= 20 ->
  fold_left pushIndex vs u = horner vs u /\
  0 <= horner vs u < 8 ^ (k + Go.len vs).
Proof.
  unfold Go.len.
  induction vs as [| v vs IH]; intros u k Hall Hk Hu Hlen.
  - cbn. rewrite Z.add_0_r. auto.
  - inversion Hall as [| ? ? Hv Hall']; subst.
    assert (HS : Z.of_nat (length (v :: vs)) = 1 + Z.of_nat (length vs))
      by (cbn [length]; lia).
    rewrite HS in *.
    assert (H8 : 8 ^ (k + 1) = 8 * 8 ^ k)
      by (rewrite Z.pow_add_r by lia; lia).
    assert (Hb : 8 ^ k <= 8 ^ 19) by (apply Z.pow_le_mono_r; lia).
    cbn [fold_left].
    rewrite pushIndex_arith;
      [| change (2 ^ 61) with (16 * 8 ^ 19); lia | exact Hv].
    change (horner (v :: vs) u) with (horner vs (u * 8 + v)).
    replace (k + (1 + Z.of_nat (length vs)))
      with (k + 1 + Z.of_nat (length vs)) by lia.
    unfold isIndex in Hv. apply IH; try assumption; lia.
Qed.

Lemma horner_app vs v u : horner (vs ++ [v]) u = horner vs u * 8 + v.
Proof. unfold horner. rewrite fold_left_app. reflexivity. Qed.

(** Reading the 3-bit groups of a base-8 numeral from the low end yields
    its digits last to first. *)
Lemma digits_horner vs :
  Forall isIndex vs ->
  map (fun i => Z.land (Z.shiftr (horner vs 0) (i * 3)) 7)
      (Go.upto (Go.len vs))
  = rev vs.
Proof.
  unfold Go.len.
  induction vs as [| v vs IH] using rev_ind; intros Hall; [reflexivity |].
  apply Forall_app in Hall. destruct Hall as [Hvs Hv].
  inversion Hv as [| ? ? Hv0 _]; subst. unfold isIndex in Hv0.
  rewrite length_app, Nat.add_comm. cbn [length Nat.add].
  rewrite upto_succ, rev_app_distr, horner_app. cbn [map rev app].
  f_equal.
  - rewrite Z.shiftr_0_r. change 7 with (Z.ones 3).
    rewrite Z.land_ones by lia.
    change (2 ^ 3) with 8. rewrite Z.add_comm, Z.mod_add by lia.
    apply Z.mod_small; lia.
  - rewrite map_map, <- IH by assumption. apply map_ext_in.
    intros i Hi. apply in_map_iff in Hi. destruct Hi as (j & <- & _).
    f_equal.
    replace (Z.succ (Z.of_nat j) * 3) with (3 + Z.of_nat j * 3) by lia.
    rewrite <- Z.shiftr_shiftr by lia. f_equal.
    rewrite Z.shiftr_div_pow2 by lia. change (2 ^ 3) with 8.
    rewrite Z.add_comm, Z.div_add by lia.
    rewrite Z.div_small by lia. reflexivity.
Qed.

Lemma byte_window P k n :
  0 <= k -> 0 <= n ->
  Z.testbit (Z.shiftl (Go.u8 (Z.shiftr P k)) k) n
  = (k <=? n) && (n <? k + 8) && Z.testbit P n.
Proof.
  intros Hk Hn. unfold Go.u8. change 256 with (2 ^ 8).
  rewrite Z.shiftl_spec by lia.
  destruct (Z.leb_spec k n) as [Hle | Hgt].
  - rewrite Z.testbit_mod_pow2 by lia. rewrite Z.shiftr_spec by lia.
    replace (n - k + k) with n by lia.
    replace (n - k <? 8) with (n <? k + 8); [reflexivity |].
    destruct (Z.ltb_spec n (k + 8)), (Z.ltb_spec (n - k) 8); auto; lia.
  - rewrite Z.testbit_neg_r by lia. reflexivity.
Qed.

(** The six emitted bytes, zero-extended and read back, are the 64-bit
    field itself as long as its top 16 bits are clear. *)
Lemma Uint64_PutUint64_low P :
  0 <= P < 2 ^ 48 ->
  BigEndian.Uint64 ([0; 0] ++ Go.slice (BigEndian.PutUint64 P) 2 8) = P.
Proof.
  intros HP. unfold BigEndian.Uint64, BigEndian.PutUint64, Go.slice.
  change (Z.to_nat (8 - 2)) with 6%nat. change (Z.to_nat 2) with 2%nat.
  cbn [firstn skipn app nth].
  apply Z.bits_inj'. intros n Hn.
  rewrite <- (Z.shiftl_0_r (Go.u8 P)), <- (Z.shiftr_0_r P) at 1.
  rewrite !Z.lor_spec, !byte_window by lia.
  rewrite !Z.shiftl_0_l, Z.bits_0.
  destruct (Z.ltb_spec n 48) as [Hlt | Hge].
  - destruct (Z.testbit P n); [| rewrite !andb_false_r; reflexivity].
    rewrite !andb_true_r.
    repeat match goal with
           | |- context [?a <=? ?b] => destruct (Z.leb_spec a b)
           | |- context [?a <? ?b] => destruct (Z.ltb_spec a b)
           end; cbn; try reflexivity; lia.
  - rewrite (small_bits_high P 48 n) by lia.
    rewrite !andb_false_r. reflexivity.
Qed.

(** What unpacking a packed field returns: the sixteen indices in the
    opposite order. *)
Lemma getIndices_packIndices_rev vs :
  length vs = 16%nat -> Forall isIndex vs ->
  getIndices (packIndices vs) = Go.Ok (rev vs).
Proof.
  intros Hlen Hall. unfold packIndices.
  destruct (fold_pushIndex vs 0 0 Hall) as [E B];
    try (unfold Go.len; lia).
  rewrite E. unfold Go.len in B. rewrite Hlen in B.
  unfold getIndices.
  replace (Go.len (Go.slice (BigEndian.PutUint64 (horner vs 0)) 2 8))
    with 6 by reflexivity.
  cbn [Z.eqb negb Pos.eqb].
  rewrite Uint64_PutUint64_low
    by (change (2 ^ 48) with (8 ^ (0 + Z.of_nat 16)); exact B).
  f_equal. rewrite <- digits_horner by assumption.
  unfold Go.len. rewrite Hlen. reflexivity.
Qed.

(** Every unpacked index is a palette index, whatever the six bytes. *)
Lemma getIndices_range b :
  Go.len b = 6 ->
  exists ix, getIndices b = Go.Ok ix /\ length ix = 16%nat /\
             Forall isIndex ix.
Proof.
  intros Hb. unfold getIndices. rewrite Hb. cbn [Z.eqb Pos.eqb negb].
  eexists. split; [reflexivity |]. split; [reflexivity |].
  apply Forall_map, Forall_forall. intros i _. unfold isIndex.
  change 7 with (Z.ones 3). rewrite Z.land_ones by lia.
  change (2 ^ 3) with 8. apply Z.mod_pos_bound. lia.
Qed.

End IndexField.

(** C1.  The claim is that unpacking a packed index field gives the sixteen
    indices back in their order.  The code does not: [compressBlock] shifts
    the accumulator left before each index, so the first index lands in the
    highest group, while [getIndices] reads index [i] from bits [3i..3i+2].
    Packing the indices [1,0,...,0] and unpacking gives [0,...,0,1]. *)
Theorem pack_unpack_reverses :
  getIndices (packIndices indices_1000) = Go.Ok (repeat 0 15 ++ [1]) /\
  repeat 0 15 ++ [1] <> indices_1000.
Proof.
  split; [vm_compute; reflexivity |].
  unfold indices_1000. cbn. discriminate.
Qed.

(** ** The palette *)

Section FloatOrder.

Lemma SFcompare_antisym x y :
  SFcompare y x = option_map CompOpp (SFcompare x y).
Proof.
  destruct x as [sx | sx | | sx mx ex], y as [sy | sy | | sy my ey];
    cbn; try reflexivity;
    try (destruct sx; reflexivity); try (destruct sy; reflexivity);
    try (destruct sx, sy; reflexivity).
  f_equal. rewrite (Z.compare_antisym ex ey).
  change (Pos.compare_cont Eq my mx) with (Pos.compare my mx).
  change (Pos.compare_cont Eq mx my) with (Pos.compare mx my).
  rewrite (Pos.compare_antisym mx my).
  destruct sx, sy, (ex ?= ey), (mx ?= my)%positive; reflexivity.
Qed.

Lemma leb_not_gt (x y : float) :
  (x <=? y)%float = true -> (y <? x)%float = false.
Proof.
  rewrite leb_spec, ltb_spec. unfold SFleb, SFltb.
  rewrite (SFcompare_antisym (Prim2SF x) (Prim2SF y)).
  destruct (SFcompare (Prim2SF x) (Prim2SF y)) as [[| |] |]; cbn; congruence.
Qed.

Lemma leb_not_nan (x y : float) :
  (x <=? y)%float = true ->
  Prim2SF x <> S754_nan /\ Prim2SF y <> S754_nan.
Proof.
  rewrite leb_spec. unfold SFleb.
  destruct (Prim2SF x), (Prim2SF y); cbn; split; congruence.
Qed.

(** Two floats that are not NaN are comparable. *)
Lemma gt_or_le (x y : float) :
  Prim2SF x <> S754_nan -> Prim2SF y <> S754_nan ->
  (y <? x)%float = true \/ (x <=? y)%float = true.
Proof.
  rewrite leb_spec, ltb_spec. unfold SFleb, SFltb.
  rewrite (SFcompare_antisym (Prim2SF x) (Prim2SF y)).
  intros Hx Hy.
  destruct (SFcompare (Prim2SF x) (Prim2SF y)) as [[| |] |] eqn:E;
    cbn; auto.
  destruct (Prim2SF x), (Prim2SF y); cbn in E; congruence.
Qed.

End FloatOrder.

Lemma length_generatePalette c0 c1 : length (generatePalette c0 c1) = 8%nat.
Proof. unfold generatePalette. destruct (c1 <? c0)%float; reflexivity. Qed.

(** C3.  For reference values [c0], [c1] between 0 and 1 the palette has
    eight entries, the first two being [c0] and [c1]; the two cases
    [c0 > c1] and [c0 <= c1] are exhaustive; in the first, entry [k] for
    [k = 2..7] is [((7-k+1)*c0 + (k-1)*c1)/7]; in the second, entries 2..5
    are the weighted sums with weights (4,1), (3,2), (2,3), (1,4) over 5 and
    entries 6 and 7 are 0 and 1. *)
Theorem generatePalette_entries (c0 c1 : float) :
  inUnit c0 -> inUnit c1 ->
  let pal := generatePalette c0 c1 in
  length pal = 8%nat /\ at8 pal 0 = c0 /\ at8 pal 1 = c1 /\
  ((c1 <? c0)%float = true \/ (c0 <=? c1)%float = true) /\
  ((c1 <? c0)%float = true ->
   forall k, 2 <= k <= 7 ->
     at8 pal k
     = ((F64.ofInt (7 - k + 1) * c0 + F64.ofInt (k - 1) * c1) / 7)%float) /\
  ((c0 <=? c1)%float = true ->
   at8 pal 2 = ((4 * c0 + 1 * c1) / 5)%float /\
   at8 pal 3 = ((3 * c0 + 2 * c1) / 5)%float /\
   at8 pal 4 = ((2 * c0 + 3 * c1) / 5)%float /\
   at8 pal 5 = ((1 * c0 + 4 * c1) / 5)%float /\
   at8 pal 6 = 0%float /\ at8 pal 7 = 1%float).
Proof.
  intros [H0 _] [H1 _] pal. subst pal.
  apply leb_not_nan in H0, H1. destruct H0 as [_ H0], H1 as [_ H1].
  split; [apply length_generatePalette |].
  unfold generatePalette.
  split; [destruct (c1 <? c0)%float; reflexivity |].
  split; [destruct (c1 <? c0)%float; reflexivity |].
  split; [apply gt_or_le; assumption |].
  split.
  - intros Hgt k Hk. rewrite Hgt.
    assert (Ek : k = 2 \/ k = 3 \/ k = 4 \/ k = 5 \/ k = 6 \/ k = 7) by lia.
    destruct Ek as [-> | [-> | [-> | [-> | [-> | ->]]]]]; reflexivity.
  - intros Hle. rewrite (leb_not_gt _ _ Hle). repeat split.
Qed.

Lemma generatePalette_entries_witness :
  inUnit 0.25%float /\ inUnit 0.75%float /\
  at8 (generatePalette 0.25 0.75) 6 = 0%float /\
  at8 (generatePalette 0.75 0.25) 6
  = ((2 * 0.75 + 5 * 0.25) / 7)%float.
Proof.
  assert (Ha : inUnit 0.25%float) by (split; reflexivity).
  assert (Hb : inUnit 0.75%float) by (split; reflexivity).
  split; [exact Ha |]. split; [exact Hb |]. split.
  - apply (generatePalette_entries 0.25 0.75 Ha Hb). reflexivity.
  - apply (generatePalette_entries 0.75 0.25 Hb Ha); [reflexivity | lia].
Defined.

(** ** The block codec *)

Section BlockCodec.

(** [compressBlock] looks at a block only through the red and green bytes
    of its sixteen pixels. *)
Lemma compressBlock_ext b1 b2 :
  (forall x y, 0 <= x < 4 -> 0 <= y < 4 ->
     color.R (image.RGBAAt b1 x y) = color.R (image.RGBAAt b2 x y) /\
     color.G (image.RGBAAt b1 x y) = color.G (image.RGBAAt b2 x y)) ->
  compressBlock b1 = compressBlock b2.
Proof.
  intros H. unfold compressBlock.
  assert (Hmm : minmax b1 = minmax b2).
  { unfold minmax. apply fold_left_ext_in.
    intros [[[minR maxR] minG] maxG] [x y] Hin.
    apply in_grid in Hin. destruct (H x y) as [-> ->]; try lia. reflexivity. }
  rewrite Hmm. destruct (minmax b2) as [[[minR maxR] minG] maxG].
  assert (Hix : forall pR pG, indexLoop b1 pR pG = indexLoop b2 pR pG).
  { intros pR pG. unfold indexLoop. apply fold_left_ext_in.
    intros [r g] [x y] Hin.
    apply in_grid in Hin. destruct (H x y) as [-> ->]; try lia. reflexivity. }
  rewrite Hix. reflexivity.
Qed.

Lemma u8_isByte z : isByte (Go.u8 z).
Proof. unfold isByte, Go.u8. apply Z.mod_pos_bound. lia. Qed.

Lemma compressBlock_bytes block :
  length (compressBlock block) = 16%nat /\
  Forall isByte (compressBlock block).
Proof.
  unfold compressBlock.
  destruct (minmax block) as [[[minR maxR] minG] maxG].
  destruct (indexLoop block _ _) as [rIndexU gIndexU].
  split.
  - rewrite !length_copyAt, !length_set, !length_copyAt, !length_set.
    reflexivity.
  - assert (Hput : forall u, Forall isByte (Go.slice (BigEndian.PutUint64 u) 2 8)).
    { intros u. unfold BigEndian.PutUint64, Go.slice.
      change (Z.to_nat (8 - 2)) with 6%nat. change (Z.to_nat 2) with 2%nat.
      cbn [firstn skipn]. repeat constructor; apply u8_isByte. }
    repeat first [ apply Forall_copyAt | apply Forall_set
                 | apply Hput | apply u8_isByte ].
    unfold Go.make. apply Forall_forall. intros z Hz.
    apply repeat_spec in Hz. subst. unfold isByte. lia.
Qed.

Lemma Bounds_SetRGBA p x y c :
  image.Bounds (image.SetRGBA p x y c) = image.Bounds p.
Proof.
  unfold image.SetRGBA.
  destruct (negb (image.In (image.mkPoint x y) (image.Bounds p)));
    reflexivity.
Qed.

Lemma len_slice16 (block : list Z) :
  Go.len block = 16 ->
  Go.len (Go.slice block 2 8) = 6 /\ Go.len (Go.sliceFrom block 10) = 6.
Proof.
  unfold Go.len, Go.slice, Go.sliceFrom. intros H.
  rewrite length_firstn, !length_skipn. lia.
Qed.

Lemma index_palette c0 c1 i :
  isIndex i -> exists v, Go.index (generatePalette c0 c1) i = Go.Ok v.
Proof.
  intros Hi. destruct (index_ok (generatePalette c0 c1) i) as (v & E & _).
  - unfold Go.len. rewrite length_generatePalette. exact Hi.
  - eauto.
Qed.

Lemma decompressBlock_ok block blueMode :
  Go.len block = 16 ->
  exists img, decompressBlock block blueMode = Go.Ok img /\
              image.Bounds img = image.Rect 0 0 4 4.
Proof.
  intros Hlen. unfold decompressBlock. rewrite Hlen.
  cbn [Z.eqb Pos.eqb negb].
  destruct (len_slice16 block Hlen) as [Hr Hg].
  destruct (getIndices_range _ Hr) as (rIx & -> & Lr & Fr).
  destruct (getIndices_range _ Hg) as (gIx & -> & Lg & Fg).
  cbn [Go.bind].
  match goal with
  | |- context [Go.forM ?xs ?body ?s0] =>
      destruct (forM_inv
                  (fun k (s : image.RGBA * Z) =>
                     snd s = Z.of_nat k /\
                     image.Bounds (fst s) = image.Rect 0 0 4 4)
                  body xs 0%nat s0) as (s' & E & Hk & HB)
  end.
  - split; reflexivity.
  - intros j [x y] [img px] Hj _ [Hpx HB]. cbn [fst snd] in Hpx, HB.
    change (length (grid 4 4)) with 16%nat in Hj. subst px.
    destruct (index_ok rIx (Z.of_nat j)) as (ri & -> & Nr);
      [unfold Go.len; lia |].
    destruct (index_ok gIx (Z.of_nat j)) as (gi & Eg & Ng);
      [unfold Go.len; lia |].
    apply nth_error_In in Nr, Ng.
    rewrite Forall_forall in Fr, Fg.
    destruct (index_palette (normalize (nth 0 block 0))
                (normalize (nth 1 block 0)) ri (Fr _ Nr)) as (rv & Er).
    destruct (index_palette (normalize (nth 8 block 0))
                (normalize (nth 9 block 0)) gi (Fg _ Ng)) as (gv & Egv).
    cbn [Go.bind]. rewrite Er. cbn [Go.bind]. rewrite Eg. cbn [Go.bind].
    rewrite Egv. cbn [Go.bind].
    eexists. split; [reflexivity |]. cbn [fst snd].
    split; [lia | rewrite Bounds_SetRGBA; exact HB].
  - rewrite E. cbn [Go.bind]. eauto.
Qed.

Lemma decompressBlock_bad_length block blueMode :
  Go.len block <> 16 ->
  decompressBlock block blueMode = Go.Fail (Go.panic "invalid block size").
Proof.
  intros H. unfold decompressBlock.
  destruct (Z.eqb_spec (Go.len block) 16); [contradiction | reflexivity].
Qed.

End BlockCodec.

(** C6.  [compressBlock] returns sixteen bytes for every block;
    [decompressBlock] panics with "invalid block size" on every input that
    is not sixteen bytes long and returns a 4x4 image on every input that
    is. *)
Theorem block_size_invariants :
  (forall block,
     length (compressBlock block) = 16%nat /\
     Forall isByte (compressBlock block)) /\
  (forall data blueMode,
     Go.len data <> 16 ->
     decompressBlock data blueMode = Go.Fail (Go.panic "invalid block size")) /\
  (forall data blueMode,
     Go.len data = 16 ->
     exists img, decompressBlock data blueMode = Go.Ok img /\
                 image.Bounds img = image.Rect 0 0 4 4).
Proof.
  split; [exact compressBlock_bytes |].
  split; [exact decompressBlock_bad_length | exact decompressBlock_ok].
Qed.

Lemma block_size_invariants_witness :
  length (compressBlock cornerBlock) = 16%nat /\
  decompressBlock [1; 2; 3] Greyscale
  = Go.Fail (Go.panic "invalid block size") /\
  exists img, decompressBlock (compressBlock cornerBlock) ComputeNormal
              = Go.Ok img /\
              image.Bounds img = image.Rect 0 0 4 4.
Proof.
  destruct block_size_invariants as (Hc & Hbad & Hok).
  split; [apply Hc |].
  split; [apply Hbad; vm_compute; discriminate |].
  apply Hok. vm_compute. reflexivity.
Defined.

(** C9.  Two blocks that agree on the red and green byte of every pixel,
    whatever their blue and alpha bytes, compress to the same sixteen
    bytes. *)
Theorem compressBlock_ignores_blue_alpha b1 b2 :
  (forall x y, 0 <= x < 4 -> 0 <= y < 4 ->
     color.R (image.RGBAAt b1 x y) = color.R (image.RGBAAt b2 x y) /\
     color.G (image.RGBAAt b1 x y) = color.G (image.RGBAAt b2 x y)) ->
  compressBlock b1 = compressBlock b2.
Proof. exact (compressBlock_ext b1 b2). Qed.

Lemma plainBlock_red_green b a x y :
  0 <= x < 4 -> 0 <= y < 4 ->
  color.R (image.RGBAAt (plainBlock b a) x y) = 100 /\
  color.G (image.RGBAAt (plainBlock b a) x y) = 200.
Proof.
  intros Hx Hy.
  assert (Ex : x = 0 \/ x = 1 \/ x = 2 \/ x = 3) by lia.
  assert (Ey : y = 0 \/ y = 1 \/ y = 2 \/ y = 3) by lia.
  destruct Ex as [-> | [-> | [-> | ->]]], Ey as [-> | [-> | [-> | ->]]];
    split; reflexivity.
Qed.

Lemma compressBlock_ignores_blue_alpha_witness :
  plainBlock 1 2 <> plainBlock 30 40 /\
  compressBlock (plainBlock 1 2) = compressBlock (plainBlock 30 40).
Proof.
  split; [discriminate |].
  apply (compressBlock_ignores_blue_alpha (plainBlock 1 2) (plainBlock 30 40)).
  intros x y Hx Hy.
  destruct (plainBlock_red_green 1 2 x y Hx Hy) as [-> ->].
  destruct (plainBlock_red_green 30 40 x y Hx Hy) as [-> ->].
  split; reflexivity.
Defined.

(** C10.  On a 16-byte input both index fields unpack to indices between
    0 and 7, every one of them addresses an entry of its eight-entry
    palette, and [decompressBlock] returns an image, whatever the blue
    mode. *)
Theorem palette_lookups_in_range block blueMode :
  Go.len block = 16 ->
  let r := generatePalette (normalize (nth 0 block 0))
                           (normalize (nth 1 block 0)) in
  let g := generatePalette (normalize (nth 8 block 0))
                           (normalize (nth 9 block 0)) in
  exists rIndices gIndices,
    getIndices (Go.slice block 2 8) = Go.Ok rIndices /\
    getIndices (Go.sliceFrom block 10) = Go.Ok gIndices /\
    Forall isIndex rIndices /\ Forall isIndex gIndices /\
    (forall i, In i rIndices -> exists v, Go.index r i = Go.Ok v) /\
    (forall i, In i gIndices -> exists v, Go.index g i = Go.Ok v) /\
    exists img, decompressBlock block blueMode = Go.Ok img.
Proof.
  intros Hlen r g.
  destruct (len_slice16 block Hlen) as [Hr Hg].
  destruct (getIndices_range _ Hr) as (rIx & Er & _ & Fr).
  destruct (getIndices_range _ Hg) as (gIx & Eg & _ & Fg).
  exists rIx, gIx. repeat (split; [assumption |]).
  rewrite Forall_forall in Fr, Fg.
  split; [intros i Hi; apply index_palette, Fr, Hi |].
  split; [intros i Hi; apply index_palette, Fg, Hi |].
  destruct (decompressBlock_ok block blueMode Hlen) as (img & E & _).
  eauto.
Qed.

Lemma palette_lookups_in_range_witness :
  exists img, decompressBlock (repeat 255 16) ComputeNormal = Go.Ok img.
Proof.
  destruct (palette_lookups_in_range (repeat 255 16) ComputeNormal eq_refl)
    as (rIx & gIx & _ & _ & _ & _ & _ & _ & img & E).
  exists img. exact E.
Defined.

(** C2.  The claim is that decompressing a compressed block reproduces the
    pixels holding the channel extremes exactly and every pixel within one
    palette step.  On [cornerBlock], whose first pixel has red 0 and whose
    other pixels have red 255, the decompressed block has red 255 at the
    first pixel and red 0 at the last: the block comes back in the opposite
    scan order. *)
Theorem decompress_compress_misplaces_extremes :
  exists out,
    decompressBlock (compressBlock cornerBlock) Zero = Go.Ok out /\
    redBytes cornerBlock = 0 :: repeat 255 15 /\
    redBytes out = repeat 255 15 ++ [0].
Proof.
  eexists. split; [vm_compute; reflexivity |].
  split; vm_compute; reflexivity.
Qed.

(** ** Tiling an image into blocks *)

Section Tiling.

Lemma sliceFrom_sliceFrom {A} (l : list A) a b :
  0 <= a -> 0 <= b ->
  Go.sliceFrom (Go.sliceFrom l a) b = Go.sliceFrom l (a + b).
Proof.
  intros Ha Hb. unfold Go.sliceFrom. rewrite skipn_skipn.
  f_equal. lia.
Qed.

(** A pixel of a sub-image is the pixel of the image it was cut from. *)
Lemma RGBAAt_SubImage pix stride (b r : image.Rectangle) x y :
  0 <= stride ->
  image.Intersect r b = r -> image.Empty r = false ->
  image.In (image.mkPoint x y) r = true ->
  image.RGBAAt (image.SubImage (image.mkRGBA pix stride b) r) x y
  = image.RGBAAt (image.mkRGBA pix stride b) x y.
Proof.
  intros Hs Hint Hne Hin.
  unfold image.SubImage. cbn [image.Bounds image.Pix image.Stride].
  rewrite Hint, Hne. unfold image.RGBAAt.
  cbn [image.Bounds image.Pix image.Stride]. rewrite Hin.
  destruct r as [[rx0 ry0] [rx1 ry1]], b as [[bx0 by0] [bx1 by1]].
  unfold image.Intersect, image.Empty, image.In in *.
  cbn [image.Min image.Max image.X image.Y] in *.
  rewrite !andb_true_iff, !Z.leb_le, !Z.ltb_lt in Hin.
  match type of Hint with
  | (if ?c then _ else _) = _ => destruct c eqn:Ec
  end.
  - inversion Hint; subst. cbn in Hne. discriminate.
  - inversion Hint as [[E1 E2 E3 E4]].
    assert (Hin' : ((bx0 <=? x) && (x <? bx1) && (by0 <=? y) && (y <? by1)) = true).
    { rewrite !andb_true_iff, !Z.leb_le, !Z.ltb_lt. lia. }
    rewrite Hin'. cbn [negb].
    unfold image.PixOffset.
    cbn [image.Bounds image.Pix image.Stride image.Min image.Max image.X image.Y].
    rewrite ?E1, ?E2, ?E3, ?E4.
    rewrite sliceFrom_sliceFrom by nia.
    replace ((ry0 - by0) * stride + (rx0 - bx0) * 4
             + ((y - ry0) * stride + (x - rx0) * 4))
      with ((y - by0) * stride + (x - bx0) * 4) by ring.
    reflexivity.
Qed.

End Tiling.


(** For an image of non-negative size [makeBlocks] leaves no slot nil: it
    returns the blocks of the cells. *)
Lemma makeBlocks_cells (img : image.RGBA) :
  0 <= image.X (image.Size (image.Bounds img)) < 2 ^ 32 ->
  0 <= image.Y (image.Size (image.Bounds img)) < 2 ^ 32 ->
  makeBlocks img = Go.Ok (map Some (cellBlocks img)).
Proof.
  intros HX HY. unfold makeBlocks, cellBlocks. cbv zeta.
  set (qx := Z.quot (image.X (image.Size (image.Bounds img))) 4).
  set (qy := Z.quot (image.Y (image.Size (image.Bounds img))) 4).
  assert (B32 : 2 ^ 32 = 4294967296) by reflexivity. rewrite B32 in *.
  assert (Hqx : 0 <= qx < 1073741824).
  { unfold qx. rewrite Z.quot_div_nonneg by lia.
    split; [apply Z.div_pos; lia | apply Z.div_lt_upper_bound; lia]. }
  assert (Hqy : 0 <= qy < 1073741824).
  { unfold qy. rewrite Z.quot_div_nonneg by lia.
    split; [apply Z.div_pos; lia | apply Z.div_lt_upper_bound; lia]. }
  assert (Hn : Go.int (qx * qy) = qx * qy).
  { unfold Go.int.
    change (2 ^ 63) with 9223372036854775808.
    change (2 ^ 64) with 18446744073709551616.
    rewrite Z.mod_small by nia. lia. }
  rewrite Hn. destruct (Z.ltb_spec (qx * qy) 0); [nia |].
  pose proof (length_grid qy qx) as G. rewrite !Z.max_r in G by lia.
  unfold Go.len in G.
  pose proof (fill_slots (fun '(x, y) => blockOf img x y)
                (fun '(blocks, currentBlockIx) '(x, y) =>
                   let subImg :=
                     image.SubImage img
                       (image.Rect (x * 4) (y * 4) (x * 4 + 4) (y * 4 + 4)) in
                   let blk := image.NewRGBA (image.Rect 0 0 4 4) in
                   blocks <- Go.store blocks currentBlockIx
                               (Some (image.Draw blk (image.Bounds blk) subImg
                                         (image.Min (image.Bounds subImg)))) ;;
                   Go.Ok (blocks, currentBlockIx + 1))
                (grid qy qx)) as F.
  specialize (F ltac:(intros blocks ix [x y]; unfold blockOf, fresh4;
                        cbv zeta; reflexivity) [] 0%nat).
  cbn [app] in F. rewrite Nat.add_0_r in F.
  unfold Go.make. replace (Z.to_nat (qx * qy)) with (length (grid qy qx)) by lia.
  change (Go.len (@nil (option image.RGBA))) with 0 in F.
  rewrite F. cbn [Go.bind fst repeat]. rewrite app_nil_r.
  rewrite <- map_map with (g := Some). reflexivity.
Qed.

(** Where [makeBlocks] returns blocks without a nil among them,
    [SetFromRGBA] copies the compressed form of one block after the
    other. *)
Lemma SetFromRGBA_cells (b : BC5) (rgba : image.RGBA) (cells : list image.RGBA) :
  image.X (image.Size (image.Bounds rgba))
  = image.Y (image.Size (image.Bounds rgba)) ->
  Z.rem (image.X (image.Size (image.Bounds rgba))) 4 = 0 ->
  makeBlocks rgba = Go.Ok (map Some cells) ->
  SetFromRGBA b rgba
  = Go.Ok (mkBC5
             (fold_left
                (fun data i =>
                   let pos := i * 16 in
                   let c := compressBlock (nth (Z.to_nat i) cells image.empty) in
                   Go.copyAt data (Z.to_nat pos) (firstn 16 c))
                (Go.upto (Go.len cells)) (Go.make 0 (Go.len cells * 16)))
             (image.Bounds rgba) (Mode b)).
Proof.
  intros H H4 HM. unfold SetFromRGBA. cbv zeta.
  rewrite <- H, Z.eqb_refl, H4. cbn [Z.eqb negb]. rewrite HM. cbn [Go.bind].
  assert (Hlen : Go.len (map Some cells) = Go.len cells)
    by (unfold Go.len; rewrite length_map; reflexivity).
  rewrite Hlen.
  rewrite (forM_pure _
             (fun data i =>
                Go.copyAt data (Z.to_nat (i * 16))
                  (firstn 16 (compressBlock (nth (Z.to_nat i) cells image.empty))))).
  - reflexivity.
  - intros data i Hi. apply in_upto in Hi.
    destruct (index_ok (map Some cells) i) as (v & E & N); [rewrite Hlen; lia |].
    rewrite E. cbn [Go.bind].
    rewrite nth_error_map in N.
    destruct (nth_error cells (Z.to_nat i)) as [blk |] eqn:Eb; [| discriminate].
    cbn in N. injection N as <-. cbn [Go.deref Go.bind].
    rewrite (nth_error_nth _ _ image.empty Eb). reflexivity.
Qed.








(** ** The wire format *)

Import io.

Section Wire.

Lemma Uint32_PutUint32 v :
  0 <= v < 2 ^ 32 -> BigEndian.Uint32 (BigEndian.PutUint32 v) = v.
Proof.
  intros Hv. unfold BigEndian.Uint32, BigEndian.PutUint32. cbn [nth].
  apply Z.bits_inj'. intros n Hn.
  rewrite <- (Z.shiftl_0_r (Go.u8 v)), <- (Z.shiftr_0_r v) at 1.
  rewrite !Z.lor_spec, !byte_window by lia.
  destruct (Z.ltb_spec n 32) as [Hlt | Hge].
  - destruct (Z.testbit v n); [| rewrite !andb_false_r; reflexivity].
    rewrite !andb_true_r.
    repeat match goal with
           | |- context [?a <=? ?b] => destruct (Z.leb_spec a b)
           | |- context [?a <? ?b] => destruct (Z.ltb_spec a b)
           end; cbn; try reflexivity; lia.
  - rewrite (small_bits_high v 32 n) by lia.
    rewrite !andb_false_r. reflexivity.
Qed.

Lemma lor_shiftl_add lo hi k :
  0 <= k -> 0 <= lo < 2 ^ k ->
  Z.lor lo (Z.shiftl hi k) = lo + hi * 2 ^ k.
Proof.
  intros Hk Hlo. rewrite <- Z.shiftl_mul_pow2 by lia.
  rewrite <- Z.lxor_lor, <- Z.add_nocarry_lxor; try reflexivity.
  all: apply Z.bits_inj'; intros n Hn; rewrite Z.land_spec, Z.bits_0;
    destruct (Z.ltb_spec n k) as [Hlt | Hge];
    [ rewrite Z.shiftl_spec_low by lia; apply andb_false_r
    | rewrite (small_bits_high lo k n) by lia; reflexivity ].
Qed.

Lemma Uint32_arith a b c d :
  isByte a -> isByte b -> isByte c -> isByte d ->
  BigEndian.Uint32 [a; b; c; d]
  = a * 16777216 + b * 65536 + c * 256 + d.
Proof.
  unfold isByte. intros Ha Hb Hc Hd.
  unfold BigEndian.Uint32. cbn [nth].
  replace (Z.shiftl a 24) with (Z.shiftl (Z.shiftl a 8) 16)
    by (rewrite Z.shiftl_shiftl by lia; reflexivity).
  rewrite <- Z.shiftl_lor.
  replace (Z.shiftl (Z.lor b (Z.shiftl a 8)) 16)
    with (Z.shiftl (Z.shiftl (Z.lor b (Z.shiftl a 8)) 8) 8)
    by (rewrite Z.shiftl_shiftl by lia; reflexivity).
  rewrite <- Z.shiftl_lor.
  rewrite (lor_shiftl_add b a 8) by (change (2 ^ 8) with 256; lia).
  rewrite (lor_shiftl_add c _ 8) by (change (2 ^ 8) with 256; lia).
  rewrite (lor_shiftl_add d _ 8) by (change (2 ^ 8) with 256; lia).
  change (2 ^ 8) with 256. lia.
Qed.
End Wire.

Lemma Encode_buffer (img : BC5) (w : list Z) :
  Encode img w = (w ++ headerOf img ++ Data img, None).
Proof.
  unfold Encode, headerOf, io.Write, io.bufferWriter.
  change (strToDword "BC5 ") with 1111700768.
  change (BigEndian.PutUint32 1111700768) with signatureBytes.
  unfold BigEndian.PutUint32, signatureBytes.
  change (Go.make 0 12) with [0; 0; 0; 0; 0; 0; 0; 0; 0; 0; 0; 0].
  cbn [Go.copyAt]. cbv zeta.
  change (Go.len [_; _; _; _; _; _; _; _; _; _; _; _]) with 12.
  cbn [Z.eqb Pos.eqb negb].
  rewrite Z.eqb_refl. cbn [negb app]. rewrite <- app_assoc. reflexivity.
Qed.

Lemma Size_Rect_origin w h :
  0 <= w < 2 ^ 32 -> 0 <= h < 2 ^ 32 ->
  image.Size (image.Rect 0 0 w h) = image.mkPoint w h.
Proof.
  intros Hw Hh. unfold image.Rect.
  destruct (Z.ltb_spec w 0); [lia |]. destruct (Z.ltb_spec h 0); [lia |].
  unfold image.Size, image.Dx, image.Dy, Go.int.
  cbn [image.Min image.Max image.X image.Y].
  rewrite !Z.sub_0_r.
  assert (H32 : 2 ^ 32 = 4294967296) by reflexivity.
  assert (H63 : 2 ^ 63 = 9223372036854775808) by reflexivity.
  assert (H64 : 2 ^ 64 = 18446744073709551616) by reflexivity.
  rewrite H32 in *. rewrite H63, H64.
  f_equal; rewrite Z.mod_small; lia.
Qed.

Lemma Decode_header (hdr rest : list Z) :
  length hdr = 12%nat ->
  Decode (hdr ++ rest)
  = if negb (BigEndian.Uint32 (firstn 4 hdr) =? strToDword "BC5 ")
    then Go.Fail (Go.errorString "invalid file signature")
    else if Go.len rest <? 1
    then Go.Fail (Go.errorString "no image data found")
    else Go.Ok (mkBC5 rest
                  (image.Rect 0 0 (BigEndian.Uint32 (firstn 4 (skipn 4 hdr)))
                              (BigEndian.Uint32 (firstn 4 (skipn 8 hdr))))
                  Zero).
Proof.
  intros Hlen.
  do 12 (destruct hdr as [| ? hdr]; [discriminate |]).
  destruct hdr; [| discriminate].
  unfold Decode, io.ReadAll, io.bufferReader. cbn [Go.bind].
  unfold Go.len. rewrite length_app. cbn [length].
  destruct (Z.ltb_spec (Z.of_nat (12 + length rest)) 12) as [|_]; [lia |].
  unfold io.Next. change (Z.to_nat 4) with 4%nat.
  cbn [firstn skipn app].
  destruct (negb _); [reflexivity |].
  replace (Z.of_nat (12 + length rest) <? 13) with (Z.of_nat (length rest) <? 1)
    by (destruct (Z.ltb_spec (Z.of_nat (length rest)) 1),
          (Z.ltb_spec (Z.of_nat (12 + length rest)) 13); auto; lia).
  destruct (_ <? 1); reflexivity.
Qed.

Lemma header_fields wv hv :
  let hdr := signatureBytes ++ BigEndian.PutUint32 wv ++ BigEndian.PutUint32 hv in
  length hdr = 12%nat /\ firstn 4 hdr = signatureBytes /\
  firstn 4 (skipn 4 hdr) = BigEndian.PutUint32 wv /\
  firstn 4 (skipn 8 hdr) = BigEndian.PutUint32 hv.
Proof. repeat split. Qed.

Lemma u32_small v : 0 <= v < 2 ^ 32 -> Go.u32 v = v.
Proof. intros H. unfold Go.u32. apply Z.mod_small. exact H. Qed.

Lemma Decode_Encode img :
  Data img <> [] ->
  0 <= image.X (image.Size (Rect img)) < 2 ^ 32 ->
  0 <= image.Y (image.Size (Rect img)) < 2 ^ 32 ->
  Decode (fst (Encode img ([] : list Z)))
  = Go.Ok (mkBC5 (Data img)
             (image.Rect 0 0 (image.X (image.Size (Rect img)))
                         (image.Y (image.Size (Rect img)))) Zero).
Proof.
  intros Hdata Hw Hh. rewrite Encode_buffer. cbn [fst app].
  unfold headerOf.
  destruct (header_fields (Go.u32 (image.X (image.Size (Rect img))))
              (Go.u32 (image.Y (image.Size (Rect img)))))
    as (Hlen & Hsig & Hwb & Hhb).
  rewrite Decode_header by exact Hlen.
  rewrite Hsig, Hwb, Hhb.
  change (BigEndian.Uint32 signatureBytes =? strToDword "BC5 ") with true.
  cbn [negb].
  destruct (Z.ltb_spec (Go.len (Data img)) 1) as [Hlt |].
  { destruct (Data img); [congruence |].
    unfold Go.len in Hlt. cbn [length] in Hlt. lia. }
  rewrite !u32_small by assumption.
  rewrite !Uint32_PutUint32 by assumption. reflexivity.
Qed.

Lemma Decode_bad_signature (stream : list Z) :
  12 <= Go.len stream ->
  Forall isByte (firstn 4 stream) ->
  firstn 4 stream <> signatureBytes ->
  Decode stream = Go.Fail (Go.errorString "invalid file signature").
Proof.
  intros Hlen Hbytes Hsig.
  assert (H12 : length (firstn 12 stream) = 12%nat)
    by (rewrite length_firstn; unfold Go.len in Hlen; lia).
  rewrite <- (firstn_skipn 12 stream) in Hbytes, Hsig |- *.
  remember (firstn 12 stream) as hdr eqn:Ehdr.
  remember (skipn 12 stream) as rest eqn:Erest. clear Ehdr Erest.
  rewrite Decode_header by exact H12.
  destruct hdr as [| a [| b [| c [| d hdr]]]]; try discriminate.
  cbn [firstn app] in *.
  apply Forall_cons_iff in Hbytes. destruct Hbytes as [Ha Hbytes].
  apply Forall_cons_iff in Hbytes. destruct Hbytes as [Hb Hbytes].
  apply Forall_cons_iff in Hbytes. destruct Hbytes as [Hc Hbytes].
  apply Forall_cons_iff in Hbytes. destruct Hbytes as [Hd _].
  rewrite Uint32_arith by assumption.
  change (strToDword "BC5 ") with 1111700768.
  destruct (Z.eqb_spec (a * 16777216 + b * 65536 + c * 256 + d) 1111700768)
    as [E |]; [| reflexivity].
  exfalso. apply Hsig. unfold signatureBytes, isByte in *.
  assert (a = 66 /\ b = 67 /\ c = 53 /\ d = 32) as (-> & -> & -> & ->) by lia.
  reflexivity.
Qed.

(** C7 (amended).  For a compressed image with at least one byte of block
    data whose width and height fit 32 bits, encoding into an empty buffer
    and decoding the bytes written gives back the width, the height and the
    block bytes; and decoding a stream of at least 12 bytes whose first four
    bytes are not "BC5 " fails with "invalid file signature". *)
Theorem wire_roundtrip_and_signature :
  (forall img,
     Data img <> [] ->
     0 <= image.X (image.Size (Rect img)) < 2 ^ 32 ->
     0 <= image.Y (image.Size (Rect img)) < 2 ^ 32 ->
     exists wire img',
       Encode img ([] : list Z) = (wire, None) /\
       Decode wire = Go.Ok img' /\
       image.Size (Rect img') = image.Size (Rect img) /\
       Data img' = Data img) /\
  (forall stream : list Z,
     12 <= Go.len stream ->
     Forall isByte (firstn 4 stream) ->
     firstn 4 stream <> signatureBytes ->
     Decode stream = Go.Fail (Go.errorString "invalid file signature")).
Proof.
  split.
  - intros img Hdata Hw Hh.
    exists (fst (Encode img ([] : list Z))).
    eexists. split; [rewrite Encode_buffer; reflexivity |].
    split; [apply Decode_Encode; assumption |].
    cbn [Rect Data]. split; [| reflexivity].
    rewrite Size_Rect_origin by assumption.
    destruct (image.Size (Rect img)); reflexivity.
  - exact Decode_bad_signature.
Qed.

Lemma wire_roundtrip_and_signature_witness :
  (exists wire img',
     Encode (mkBC5 solidData (image.Rect 0 0 8 8) Zero) ([] : list Z)
     = (wire, None) /\
     Decode wire = Go.Ok img' /\
     image.Size (Rect img') = image.mkPoint 8 8 /\
     Data img' = solidData) /\
  Decode (repeat 88 12) = Go.Fail (Go.errorString "invalid file signature").
Proof.
  destruct wire_roundtrip_and_signature as [Hrt Hsig]. split.
  - apply (Hrt (mkBC5 solidData (image.Rect 0 0 8 8) Zero));
      [discriminate | vm_compute; split; [discriminate | reflexivity] ..].
  - apply Hsig.
    + vm_compute. discriminate.
    + repeat constructor; unfold isByte; lia.
    + discriminate.
Defined.

(** C7 as claimed fails in three ways: a stream shorter than the header is
    rejected for its length before its signature is looked at; an image
    without block data is encoded to twelve bytes that [Decode] rejects;
    and a width of 2^32 comes back as 0. *)
Lemma wire_claim_counterexample :
  (firstn 4 [88; 88; 88; 88] <> signatureBytes /\
   Decode [88; 88; 88; 88]
   = Go.Fail (Go.errorString "not enough data for BC5")) /\
  Decode (fst (Encode newBC5 ([] : list Z)))
  = Go.Fail (Go.errorString "no image data found") /\
  (image.X (image.Size (Rect tooWide)) = 4294967296 /\
   Decode (fst (Encode tooWide ([] : list Z)))
   = Go.Ok (mkBC5 [7] (image.Rect 0 0 0 4) Zero)).
Proof.
  repeat split; try discriminate; vm_compute; reflexivity.
Qed.

(** ** Point queries *)

(** C5.  The claim is that [At] returns the pixel [Decompress] holds at the
    same place.  On the compressed form of [twoBands], [Decompress] has red
    and green 255 at (0,4), as the image has, while [At] returns red and
    green 0 there: [At] reads the sixteen bytes at offset [(y/4)*height +
    (x/4)*16], which is not where the block of the pixel starts. *)
Theorem At_disagrees_with_Decompress :
  exists bc out,
    SetFromRGBA newBC5 twoBands = Go.Ok bc /\
    Decompress bc = Go.Ok out /\
    image.RGBAAt twoBands 0 4 = color.mkRGBA 255 255 0 255 /\
    image.RGBAAt out 0 4 = color.mkRGBA 255 255 0 1 /\
    At bc 0 4 = Go.Ok (color.mkRGBA 0 0 0 1).
Proof.
  eexists. eexists.
  split; [vm_compute; reflexivity |].
  split; [vm_compute; reflexivity |].
  repeat split; vm_compute; reflexivity.
Qed.

Lemma At_outside b x y :
  x < 0 \/ image.X (image.Size (Rect b)) <= x \/
  y < 0 \/ image.Y (image.Size (Rect b)) <= y ->
  At b x y = Go.Ok color.zero.
Proof.
  intros H. unfold At, AtCap.
  destruct (Z.ltb_spec x 0); [reflexivity |].
  destruct (Z.leb_spec (image.X (image.Size (Rect b))) x); [reflexivity |].
  destruct (Z.ltb_spec y 0); [reflexivity |].
  destruct (Z.leb_spec (image.Y (image.Size (Rect b))) y); [reflexivity |].
  lia.
Qed.

(** C8.  For every compressed image, [At] at a coordinate left of, right
    of, above or below the image returns the zero pixel and does not fail;
    so it does at (-1, 0) and at (width, 0). *)
Theorem At_out_of_bounds b :
  (forall x y,
     x < 0 \/ image.X (image.Size (Rect b)) <= x \/
     y < 0 \/ image.Y (image.Size (Rect b)) <= y ->
     At b x y = Go.Ok color.zero) /\
  At b (-1) 0 = Go.Ok color.zero /\
  At b (image.X (image.Size (Rect b))) 0 = Go.Ok color.zero.
Proof.
  split; [apply At_outside |].
  split; apply At_outside; lia.
Qed.

Lemma At_out_of_bounds_witness :
  At (mkBC5 solidData (image.Rect 0 0 8 8) Greyscale) 3 8
  = Go.Ok (color.mkRGBA 0 0 0 0).
Proof.
  apply (proj1 (At_out_of_bounds
                  (mkBC5 solidData (image.Rect 0 0 8 8) Greyscale))).
  right. right. right. vm_compute. discriminate.
Defined.

(** * Further properties of the package *)

Section Normalize.

Lemma denormalize_normalize v :
  isByte v -> denormalize (normalize v) = v.
Proof.
  intros Hv.
  assert (H : forallb (fun v => denormalize (normalize v) =? v)
                      (Go.upto 256) = true) by (vm_compute; reflexivity).
  rewrite forallb_forall in H. apply Z.eqb_eq, H, in_upto. exact Hv.
Qed.

Lemma normalize_monotone a b :
  isByte a -> isByte b -> a <= b ->
  (normalize b <? normalize a)%float = false.
Proof.
  intros Ha Hb Hab.
  assert (H : forallb (fun '(x, y) =>
                         negb (x <=? y) || negb (normalize y <? normalize x)%float)
                      (grid 256 256) = true) by (vm_compute; reflexivity).
  rewrite forallb_forall in H.
  specialize (H (a, b)). cbn beta iota in H.
  destruct (Z.leb_spec a b); [| lia]. cbn [negb orb] in H.
  apply negb_true_iff, H, in_grid. unfold isByte in *. lia.
Qed.

End Normalize.

Section FloatLt.

Lemma pos_cmp_cont m1 m2 : Pos.compare_cont Eq m1 m2 = (m1 ?= m2)%positive.
Proof. reflexivity. Qed.

Lemma SFltb_irrefl x : SFltb x x = false.
Proof.
  unfold SFltb. destruct x as [s | s | | s m e]; cbn; try reflexivity;
    try (destruct s; reflexivity).
  rewrite Z.compare_refl, pos_cmp_cont, Pos.compare_refl.
  destruct s; reflexivity.
Qed.

Lemma SFltb_trans x y z :
  SFltb x y = true -> SFltb y z = true -> SFltb x z = true.
Proof.
  unfold SFltb.
  destruct x as [sx | sx | | sx mx ex], y as [sy | sy | | sy my ey],
           z as [sz | sz | | sz mz ez]; cbn;
    try discriminate; try reflexivity;
    try (destruct sx; discriminate); try (destruct sy; discriminate);
    try (destruct sz; discriminate);
    try (destruct sx, sy; discriminate); try (destruct sy, sz; discriminate);
    try (destruct sx, sz; try discriminate; reflexivity);
    try (destruct sx, sy, sz; try discriminate; reflexivity).
  change (Pos.compare_cont Eq mx my) with (mx ?= my)%positive.
  change (Pos.compare_cont Eq my mz) with (my ?= mz)%positive.
  change (Pos.compare_cont Eq mx mz) with (mx ?= mz)%positive.
  destruct (Z.compare_spec ex ey), (Z.compare_spec ey ez),
           (Z.compare_spec ex ez); try lia;
    destruct (Pos.compare_spec mx my), (Pos.compare_spec my mz),
             (Pos.compare_spec mx mz); try lia;
    destruct sx, sy, sz; cbn; try discriminate; reflexivity.
Qed.

Lemma ltb_irrefl (x : float) : (x <? x)%float = false.
Proof. rewrite ltb_spec. apply SFltb_irrefl. Qed.

Lemma ltb_trans (x y z : float) :
  (x <? y)%float = true -> (y <? z)%float = true -> (x <? z)%float = true.
Proof. rewrite !ltb_spec. apply SFltb_trans. Qed.

End FloatLt.

Section Nearest.

Variable pal : list float.
Variable v : Z.

Let d (i : Z) : float := dist pal v i.
Let step (ni i : Z) : Z := if (d i <? d ni)%float then i else ni.

Lemma fold_step_best (l : list Z) : forall ni0,
  let r := fold_left step l ni0 in
  (r = ni0 \/ (In r l /\ (d r <? d ni0)%float = true)) /\
  (d ni0 <? d r)%float = false /\
  forall j, In j l -> (d j <? d r)%float = false.
Proof.
  induction l as [| i l IH]; intros ni0; cbn [fold_left].
  - split; [left; reflexivity |]. split; [apply ltb_irrefl |]. intros j [].
  - destruct (IH (step ni0 i)) as (Hr & Hni & Hall).
    set (r := fold_left step l (step ni0 i)) in *.
    unfold step in Hr, Hni.
    destruct (d i <? d ni0)%float eqn:Ei.
    + (* the candidate [i] replaces [ni0] *)
      assert (Hr0 : (d r <? d ni0)%float = true).
      { destruct Hr as [-> | [_ Hr]]; [exact Ei |].
        exact (ltb_trans _ _ _ Hr Ei). }
      split; [right; split; [| exact Hr0] |].
      { destruct Hr as [-> | [Hr _]]; [left; reflexivity | right; exact Hr]. }
      split.
      * destruct (d ni0 <? d r)%float eqn:E; [| reflexivity].
        pose proof (ltb_trans _ _ _ E Hr0) as C.
        rewrite ltb_irrefl in C. discriminate.
      * intros j [<- | Hj]; [exact Hni | apply Hall, Hj].
    + split; [| split; [exact Hni |]].
      * destruct Hr as [-> | [Hr Hlt]];
          [left; reflexivity | right; split; [right; exact Hr | exact Hlt]].
      * intros j [<- | Hj]; [| apply Hall, Hj].
        destruct Hr as [-> | [_ Hlt]]; [exact Ei |].
        destruct (d i <? d r)%float eqn:E; [| reflexivity].
        rewrite (ltb_trans _ _ _ E Hlt) in Ei. discriminate.
Qed.

End Nearest.

Lemma nearest_fold pal v :
  nearest pal v
  = Go.u8 (fold_left (fun ni i => if (dist pal v i <? dist pal v ni)%float
                                  then i else ni) (Go.upto 8) 0).
Proof. reflexivity. Qed.

(** [nearest] returns a palette index, and no entry of the palette is
    strictly closer to the value than the entry it returns. *)
Lemma nearest_spec pal v :
  isIndex (nearest pal v) /\
  forall j, 0 <= j < 8 ->
    (dist pal v j <? dist pal v (nearest pal v))%float = false.
Proof.
  rewrite nearest_fold.
  destruct (fold_step_best pal v (Go.upto 8) 0) as (Hr & _ & Hall).
  cbv zeta in Hr, Hall.
  set (r := fold_left _ (Go.upto 8) 0) in *.
  assert (Hi : 0 <= r < 8).
  { destruct Hr as [-> | [Hr _]]; [lia | apply in_upto in Hr; exact Hr]. }
  assert (Hu : Go.u8 r = r) by (unfold Go.u8; apply Z.mod_small; lia).
  rewrite Hu. split; [exact Hi |].
  intros j Hj. apply Hall, in_upto. exact Hj.
Qed.

Section MinMax.

Lemma minmax_fold_gen block (l : list (Z * Z)) : forall a b c d,
  fold_left
    (fun '(minR, maxR, minG, maxG) '(x, y) =>
       let c := image.RGBAAt block x y in
       let minR := if color.R c <? minR then color.R c else minR in
       let maxR := if maxR <? color.R c then color.R c else maxR in
       let minG := if color.G c <? minG then color.G c else minG in
       let maxG := if maxG <? color.G c then color.G c else maxG in
       (minR, maxR, minG, maxG))
    l (a, b, c, d)
  = (fold_left Z.min
       (map (fun '(x, y) => color.R (image.RGBAAt block x y)) l) a,
     fold_left Z.max
       (map (fun '(x, y) => color.R (image.RGBAAt block x y)) l) b,
     fold_left Z.min
       (map (fun '(x, y) => color.G (image.RGBAAt block x y)) l) c,
     fold_left Z.max
       (map (fun '(x, y) => color.G (image.RGBAAt block x y)) l) d).
Proof.
  induction l as [| [x y] l IH]; intros a b c d; [reflexivity |].
  cbn [fold_left map]. cbv zeta. rewrite <- IH.
  f_equal. f_equal; [f_equal; [f_equal |] |].
  - destruct (Z.ltb_spec (color.R (image.RGBAAt block x y)) a); lia.
  - destruct (Z.ltb_spec b (color.R (image.RGBAAt block x y))); lia.
  - destruct (Z.ltb_spec (color.G (image.RGBAAt block x y)) c); lia.
  - destruct (Z.ltb_spec d (color.G (image.RGBAAt block x y))); lia.
Qed.

Lemma minmax_folds block :
  minmax block
  = (fold_left Z.min (reds block) 255, fold_left Z.max (reds block) 0,
     fold_left Z.min (greens block) 255, fold_left Z.max (greens block) 0).
Proof. unfold minmax, reds, greens. apply minmax_fold_gen. Qed.

Lemma fold_min_spec l : forall a,
  fold_left Z.min l a <= a /\
  Forall (fun v => fold_left Z.min l a <= v) l /\
  (fold_left Z.min l a = a \/ In (fold_left Z.min l a) l).
Proof.
  induction l as [| x l IH]; intros a; cbn [fold_left].
  - repeat split; [lia | constructor | left; reflexivity].
  - destruct (IH (Z.min a x)) as (H1 & H2 & H3).
    remember (fold_left Z.min l (Z.min a x)) as m eqn:Em. clear Em.
    split; [lia |]. split; [constructor; [lia | exact H2] |].
    destruct H3 as [H3 | H3]; [| right; right; exact H3].
    destruct (Z.min_spec a x) as [[_ E] | [_ E]];
      [left; lia | right; left; lia].
Qed.

Lemma fold_max_spec l : forall a,
  a <= fold_left Z.max l a /\
  Forall (fun v => v <= fold_left Z.max l a) l /\
  (fold_left Z.max l a = a \/ In (fold_left Z.max l a) l).
Proof.
  induction l as [| x l IH]; intros a; cbn [fold_left].
  - repeat split; [lia | constructor | left; reflexivity].
  - destruct (IH (Z.max a x)) as (H1 & H2 & H3).
    remember (fold_left Z.max l (Z.max a x)) as m eqn:Em. clear Em.
    split; [lia |]. split; [constructor; [lia | exact H2] |].
    destruct H3 as [H3 | H3]; [| right; right; exact H3].
    destruct (Z.max_spec a x) as [[_ E] | [_ E]];
      [right; left; lia | left; lia].
Qed.

Lemma fold_min_bytes l :
  l <> [] -> Forall isByte l -> isMin (fold_left Z.min l 255) l.
Proof.
  intros Hne Hb. destruct (fold_min_spec l 255) as (H1 & H2 & H3).
  split; [| exact H2].
  destruct H3 as [H3 | H3]; [| exact H3].
  destruct l as [| x l]; [contradiction |].
  inversion Hb as [| ? ? Hx _]; subst. inversion H2 as [| ? ? Hmx _]; subst.
  unfold isByte in Hx. left. lia.
Qed.

Lemma fold_max_bytes l :
  l <> [] -> Forall isByte l -> isMax (fold_left Z.max l 0) l.
Proof.
  intros Hne Hb. destruct (fold_max_spec l 0) as (H1 & H2 & H3).
  split; [| exact H2].
  destruct H3 as [H3 | H3]; [| exact H3].
  destruct l as [| x l]; [contradiction |].
  inversion Hb as [| ? ? Hx _]; subst. inversion H2 as [| ? ? Hmx _]; subst.
  unfold isByte in Hx. left. lia.
Qed.

Lemma isMin_isMax_bytes l mn mx :
  Forall isByte l -> isMin mn l -> isMax mx l ->
  isByte mn /\ isByte mx /\ mn <= mx.
Proof.
  intros Hb [Hin Hle] [Hin' Hge]. rewrite Forall_forall in Hb, Hle, Hge.
  split; [apply Hb, Hin |]. split; [apply Hb, Hin' |]. apply Hle, Hin'.
Qed.

End MinMax.

Lemma compressBlock_layout block :
  let '(minR, maxR, minG, maxG) := minmax block in
  let palR := generatePalette (normalize minR) (normalize maxR) in
  let palG := generatePalette (normalize minG) (normalize maxG) in
  let '(rIndexU, gIndexU) := indexLoop block palR palG in
  compressBlock block
  = [denormalize (normalize minR); denormalize (normalize maxR)]
    ++ Go.slice (BigEndian.PutUint64 rIndexU) 2 8
    ++ [denormalize (normalize minG); denormalize (normalize maxG)]
    ++ Go.slice (BigEndian.PutUint64 gIndexU) 2 8.
Proof.
  unfold compressBlock.
  destruct (minmax block) as [[[minR maxR] minG] maxG].
  cbv zeta.
  destruct (indexLoop block _ _) as [rIndexU gIndexU].
  assert (Hp : forall c0 c1, at8 (generatePalette c0 c1) 0 = c0 /\
                             at8 (generatePalette c0 c1) 1 = c1).
  { intros c0 c1. unfold generatePalette.
    destruct (c1 <? c0)%float; split; reflexivity. }
  destruct (Hp (normalize minR) (normalize maxR)) as [-> ->].
  destruct (Hp (normalize minG) (normalize maxG)) as [-> ->].
  unfold BigEndian.PutUint64, Go.slice.
  change (Z.to_nat (8 - 2)) with 6%nat. change (Z.to_nat 2) with 2%nat.
  change (Go.make 0 16) with [0; 0; 0; 0; 0; 0; 0; 0; 0; 0; 0; 0; 0; 0; 0; 0].
  cbn [firstn skipn Go.set Go.copyAt app]. reflexivity.
Qed.

(** X4.  The four reference bytes of a compressed block are the least and
    greatest red byte and the least and greatest green byte of the block. *)
Theorem compressBlock_reference_bytes block :
  byteBlock block ->
  exists minR maxR minG maxG,
    isMin minR (reds block) /\ isMax maxR (reds block) /\
    isMin minG (greens block) /\ isMax maxG (greens block) /\
    Go.slice (compressBlock block) 0 2 = [minR; maxR] /\
    Go.slice (compressBlock block) 8 10 = [minG; maxG].
Proof.
  intros [Hr Hg].
  pose proof (compressBlock_layout block) as L.
  rewrite minmax_folds in L. cbv zeta in L.
  destruct (indexLoop block _ _) as [rIndexU gIndexU].
  assert (Hne : forall f, map f (grid 4 4) <> @nil Z) by (intros f; discriminate).
  pose proof (fold_min_bytes _ (Hne _) Hr) as HminR.
  pose proof (fold_max_bytes _ (Hne _) Hr) as HmaxR.
  pose proof (fold_min_bytes _ (Hne _) Hg) as HminG.
  pose proof (fold_max_bytes _ (Hne _) Hg) as HmaxG.
  destruct (isMin_isMax_bytes _ _ _ Hr HminR HmaxR) as (B1 & B2 & _).
  destruct (isMin_isMax_bytes _ _ _ Hg HminG HmaxG) as (B3 & B4 & _).
  rewrite !denormalize_normalize in L by assumption.
  do 4 eexists. repeat (split; [eassumption |]).
  rewrite L. split; reflexivity.
Qed.

(** X5.  In compression the first reference value never exceeds the second,
    so both palettes are built by the second branch of [generatePalette]
    and end with the entries 0 and 1. *)
Theorem compress_palettes_degenerate block :
  byteBlock block ->
  let '(minR, maxR, minG, maxG) := minmax block in
  let palR := generatePalette (normalize minR) (normalize maxR) in
  let palG := generatePalette (normalize minG) (normalize maxG) in
  (normalize maxR <? normalize minR)%float = false /\
  (normalize maxG <? normalize minG)%float = false /\
  at8 palR 6 = 0%float /\ at8 palR 7 = 1%float /\
  at8 palG 6 = 0%float /\ at8 palG 7 = 1%float.
Proof.
  intros [Hr Hg]. rewrite minmax_folds. cbv zeta.
  assert (Hne : forall f, map f (grid 4 4) <> @nil Z) by (intros f; discriminate).
  pose proof (fold_min_bytes _ (Hne _) Hr) as HminR.
  pose proof (fold_max_bytes _ (Hne _) Hr) as HmaxR.
  pose proof (fold_min_bytes _ (Hne _) Hg) as HminG.
  pose proof (fold_max_bytes _ (Hne _) Hg) as HmaxG.
  destruct (isMin_isMax_bytes _ _ _ Hr HminR HmaxR) as (B1 & B2 & L1).
  destruct (isMin_isMax_bytes _ _ _ Hg HminG HmaxG) as (B3 & B4 & L2).
  pose proof (normalize_monotone _ _ B1 B2 L1) as M1.
  pose proof (normalize_monotone _ _ B3 B4 L2) as M2.
  unfold generatePalette, reds, greens in *. rewrite M1, M2. repeat split.
Qed.

Section Assemble.

Lemma copyAt_app {A} (pre rest src : list A) :
  Go.copyAt (pre ++ rest) (length pre) src = pre ++ Go.copyAt rest 0 src.
Proof.
  induction pre as [| h pre IH]; [reflexivity |].
  cbn [app length Go.copyAt]. now rewrite IH.
Qed.

Lemma copyAt_head {A} (src dst : list A) :
  (length src <= length dst)%nat ->
  Go.copyAt dst 0 src = src ++ skipn (length src) dst.
Proof.
  revert dst. induction src as [| x src IH]; intros dst Hlen.
  - destruct dst; reflexivity.
  - destruct dst as [| h dst]; [cbn in Hlen; lia |].
    cbn [Go.copyAt length skipn app]. rewrite IH by (cbn in Hlen; lia).
    reflexivity.
Qed.

Variable c : Z -> list Z.
Hypothesis c16 : forall i, length (c i) = 16%nat.

Lemma fold_copyAt_blocks (m : nat) : forall (k : nat) (pre : list Z),
  length pre = (16 * k)%nat ->
  fold_left
    (fun data i => Go.copyAt data (Z.to_nat (i * 16)) (firstn 16 (c i)))
    (map Z.of_nat (seq k m)) (pre ++ repeat 0 (16 * m))
  = pre ++ concat (map c (map Z.of_nat (seq k m))).
Proof.
  induction m as [| m IH]; intros k pre Hpre.
  - cbn. reflexivity.
  - cbn [seq map fold_left concat].
    replace (Z.to_nat (Z.of_nat k * 16)) with (length pre) by lia.
    rewrite copyAt_app.
    rewrite firstn_all2 by (rewrite c16; lia).
    rewrite copyAt_head by (rewrite c16, repeat_length; lia).
    rewrite c16.
    replace (16 * S m)%nat with (16 + 16 * m)%nat by lia.
    rewrite repeat_app, skipn_app, repeat_length, Nat.sub_diag.
    rewrite skipn_all2 by (rewrite repeat_length; lia).
    cbn [skipn app].
    rewrite (app_assoc pre (c (Z.of_nat k))).
    rewrite IH by (rewrite length_app, c16; lia).
    rewrite <- app_assoc. reflexivity.
Qed.

End Assemble.

Lemma map_nth_seq {A} (l : list A) (d : A) :
  map (fun i => nth i l d) (seq 0 (length l)) = l.
Proof.
  induction l as [| a l IH]; [reflexivity |].
  cbn [length seq map nth]. f_equal.
  rewrite <- seq_shift, map_map. exact IH.
Qed.

Lemma map_nth_upto {A} (l : list A) (d : A) :
  map (fun i => nth (Z.to_nat i) l d) (Go.upto (Go.len l)) = l.
Proof.
  unfold Go.upto, Go.len. rewrite Nat2Z.id, map_map.
  rewrite <- (map_nth_seq l d) at 2. apply map_ext.
  intros i. rewrite Nat2Z.id. reflexivity.
Qed.

Lemma upto_pos n : 0 < n -> exists l, Go.upto n = 0 :: l.
Proof.
  intros Hn. unfold Go.upto.
  destruct (Z.to_nat n) as [| m] eqn:E; [lia |].
  cbn [seq map]. eauto.
Qed.

(** [SetFromRGBA] rejects an image that is not square, then one whose
    side is not a multiple of 4.  Otherwise, for a side that is not
    negative, it stores the compressed blocks of the cells one after the
    other, sixteen bytes each, takes the bounds of the image and leaves the
    blue mode as it was; for a negative side the slots of [makeBlocks] stay
    nil and compressing the first one panics. *)
Lemma SetFromRGBA_cases (b : BC5) (rgba : image.RGBA) :
  let size := image.Size (image.Bounds rgba) in
  (image.X size <> image.Y size ->
   SetFromRGBA b rgba = Go.Fail (Go.errorString "image must be square")) /\
  (image.X size = image.Y size -> Z.rem (image.X size) 4 <> 0 ->
   SetFromRGBA b rgba
   = Go.Fail (Go.errorString "size must be a multiple of 4")) /\
  (image.X size = image.Y size -> Z.rem (image.X size) 4 = 0 ->
   0 <= image.X size < 2 ^ 32 ->
   SetFromRGBA b rgba
   = Go.Ok (mkBC5 (concat (map compressBlock (cellBlocks rgba)))
                  (image.Bounds rgba) (Mode b)) /\
   Go.len (concat (map compressBlock (cellBlocks rgba)))
   = 16 * (Z.max 0 (Z.quot (image.Y size) 4)
           * Z.max 0 (Z.quot (image.X size) 4))) /\
  (image.X size = image.Y size -> Z.rem (image.X size) 4 = 0 ->
   - 2 ^ 32 < image.X size < 0 ->
   SetFromRGBA b rgba = Go.Fail (Go.panic "nil pointer dereference")).
Proof.
  intros size. split; [| split; [| split]].
  - intros H. unfold SetFromRGBA. fold size.
    destruct (Z.eqb_spec (image.X size) (image.Y size));
      [contradiction | reflexivity].
  - intros H H4. unfold SetFromRGBA. fold size.
    rewrite H, Z.eqb_refl. cbn [negb]. rewrite <- H.
    destruct (Z.eqb_spec (Z.rem (image.X size) 4) 0);
      [contradiction | reflexivity].
  - intros H H4 Hx.
    assert (Hy : 0 <= image.Y size < 2 ^ 32) by (rewrite <- H; exact Hx).
    rewrite (SetFromRGBA_cells b rgba (cellBlocks rgba) H H4
               (makeBlocks_cells rgba Hx Hy)).
    cbv zeta. split.
    + f_equal. f_equal.
      set (blocks := cellBlocks rgba).
      pose proof (fold_copyAt_blocks
                    (fun i => compressBlock (nth (Z.to_nat i) blocks image.empty))
                    (fun i => proj1 (compressBlock_bytes _))
                    (length blocks) 0 [] eq_refl) as F.
      cbn [app] in F.
      unfold Go.make, Go.upto, Go.len.
      replace (Z.to_nat (Z.of_nat (length blocks) * 16))
        with (16 * length blocks)%nat by lia.
      rewrite Nat2Z.id, F.
      f_equal. rewrite <- (map_map (fun i => nth (Z.to_nat i) blocks image.empty)
                                   compressBlock).
      f_equal. pose proof (map_nth_upto blocks image.empty) as M.
      unfold Go.upto, Go.len in M. rewrite Nat2Z.id in M. exact M.
    + unfold Go.len.
      assert (L : forall l : list image.RGBA,
                 length (concat (map compressBlock l)) = (16 * length l)%nat).
      { induction l as [| x l IH]; [reflexivity |].
        cbn [map concat length]. rewrite length_app, IH.
        rewrite (proj1 (compressBlock_bytes x)). lia. }
      rewrite L. unfold cellBlocks. cbv zeta. rewrite length_map. fold size.
      pose proof (length_grid (Z.quot (image.Y size) 4)
                              (Z.quot (image.X size) 4)) as G.
      unfold Go.len in G. rewrite Nat2Z.inj_mul, G, <- ?H. reflexivity.
  - intros H H4 Hx. unfold SetFromRGBA. fold size.
    rewrite <- H, Z.eqb_refl, H4. cbn [Z.eqb negb].
    unfold makeBlocks. fold size. cbv zeta. rewrite <- H.
    set (q := Z.quot (image.X size) 4).
    assert (B32 : 2 ^ 32 = 4294967296) by reflexivity. rewrite B32 in Hx.
    assert (Hq : - 1073741824 <= q <= -1).
    { pose proof (Z.quot_rem' (image.X size) 4) as E. fold q in E. lia. }
    assert (Hn : Go.int (q * q) = q * q).
    { unfold Go.int.
      change (2 ^ 63) with 9223372036854775808.
      change (2 ^ 64) with 18446744073709551616.
      rewrite Z.mod_small by nia. lia. }
    rewrite Hn. destruct (Z.ltb_spec (q * q) 0); [nia |].
    assert (Hg : grid q q = []).
    { unfold grid, Go.upto. replace (Z.to_nat q) with 0%nat by lia.
      reflexivity. }
    rewrite Hg. cbn [Go.forM Go.bind fst].
    assert (Hlen : Go.len (Go.make (@None image.RGBA) (q * q)) = q * q).
    { unfold Go.len, Go.make. rewrite repeat_length. nia. }
    rewrite Hlen.
    destruct (upto_pos (q * q) ltac:(nia)) as (l & ->).
    cbn [Go.forM]. unfold Go.make.
    destruct (Z.to_nat (q * q)) as [| m] eqn:Em; [nia |].
    cbn [repeat]. unfold Go.index.
    destruct (Z.leb_spec (Go.len (None :: repeat (@None image.RGBA) m)) 0) as [C |];
      [unfold Go.len in C; cbn [length] in C; lia |].
    reflexivity.
Qed.

(** X11.  For a square image of non-negative side below 46341, what [Size]
    returns for the result of [SetFromRGBA] is the number of bytes of
    [Data]. *)
Theorem Size_is_data_length (b b' : BC5) (rgba : image.RGBA) :
  SetFromRGBA b rgba = Go.Ok b' ->
  0 <= image.X (image.Size (image.Bounds rgba)) <= 46340 ->
  Size b' = Go.len (Data b').
Proof.
  intros E Hw.
  destruct (SetFromRGBA_cases b rgba) as (H1 & H2 & H3 & _). cbv zeta in *.
  set (size := image.Size (image.Bounds rgba)) in *.
  destruct (Z.eq_dec (image.X size) (image.Y size)) as [Hsq |];
    [| rewrite H1 in E by assumption; discriminate].
  destruct (Z.eq_dec (Z.rem (image.X size) 4) 0) as [H4 |];
    [| rewrite H2 in E by assumption; discriminate].
  assert (Hw32 : 0 <= image.X size < 2 ^ 32)
    by (assert (46340 < 2 ^ 32) by reflexivity; lia).
  destruct (H3 Hsq H4 Hw32) as [E' L]. rewrite E' in E. inversion E; subst b'.
  cbn [Data Rect]. rewrite L. unfold Size. cbn [Rect]. fold size.
  rewrite <- Hsq.
  assert (Hq : image.X size = 4 * Z.quot (image.X size) 4).
  { pose proof (Z.quot_rem' (image.X size) 4). lia. }
  assert (Hq0 : 0 <= Z.quot (image.X size) 4) by (apply Z.quot_pos; lia).
  unfold Go.i32.
  assert (H31 : 2 ^ 31 = 2147483648) by reflexivity.
  assert (H32 : 2 ^ 32 = 4294967296) by reflexivity.
  rewrite H31, H32.
  assert (Hs : (image.X size + 2147483648) mod 4294967296 - 2147483648
               = image.X size) by (rewrite Z.mod_small; lia).
  rewrite Hs.
  assert (Hm : 0 <= image.X size * image.X size < 2147483648) by nia.
  rewrite Z.mod_small by lia. nia.
Qed.

Lemma Uint32_range a b c d :
  isByte a -> isByte b -> isByte c -> isByte d ->
  0 <= BigEndian.Uint32 [a; b; c; d] < 2 ^ 32.
Proof.
  intros Ha Hb Hc Hd. rewrite Uint32_arith by assumption.
  unfold isByte in *. change (2 ^ 32) with 4294967296. lia.
Qed.

Lemma PutUint32_Uint32 a b c d :
  isByte a -> isByte b -> isByte c -> isByte d ->
  BigEndian.PutUint32 (BigEndian.Uint32 [a; b; c; d]) = [a; b; c; d].
Proof.
  intros Ha Hb Hc Hd. rewrite Uint32_arith by assumption.
  unfold BigEndian.PutUint32, Go.u8, isByte in *.
  rewrite !Z.shiftr_div_pow2 by lia.
  change (2 ^ 24) with 16777216. change (2 ^ 16) with 65536.
  change (2 ^ 8) with 256.
  repeat f_equal; Z.div_mod_to_equations; lia.
Qed.

Lemma Decode_short (stream : list Z) :
  Go.len stream < 12 ->
  Decode stream = Go.Fail (Go.errorString "not enough data for BC5").
Proof.
  intros H. unfold Decode, io.ReadAll, io.bufferReader. cbn [Go.bind].
  destruct (Z.ltb_spec (Go.len stream) 12); [reflexivity | lia].
Qed.

Lemma Decode_long (stream : list Z) :
  12 <= Go.len stream ->
  firstn 4 stream = signatureBytes ->
  Decode stream
  = if Go.len stream <? 13
    then Go.Fail (Go.errorString "no image data found")
    else Go.Ok (mkBC5 (skipn 12 stream)
                  (image.Rect 0 0 (BigEndian.Uint32 (Go.slice stream 4 8))
                              (BigEndian.Uint32 (Go.slice stream 8 12)))
                  Zero).
Proof.
  intros Hlen Hsig.
  do 12 (destruct stream as [| ? stream];
         [unfold Go.len in Hlen; cbn [length] in Hlen; lia |]).
  unfold Go.slice.
  change (Z.to_nat (8 - 4)) with 4%nat. change (Z.to_nat (12 - 8)) with 4%nat.
  change (Z.to_nat 4) with 4%nat. change (Z.to_nat 8) with 8%nat.
  cbn [firstn skipn] in Hsig |- *.
  match goal with
  | |- Decode (?a0 :: ?a1 :: ?a2 :: ?a3 :: ?a4 :: ?a5 :: ?a6 :: ?a7 :: ?a8
                 :: ?a9 :: ?a10 :: ?a11 :: ?rest) = _ =>
      change (Decode ([a0; a1; a2; a3; a4; a5; a6; a7; a8; a9; a10; a11]
                        ++ rest) =
              if Z.of_nat (12 + length rest) <? 13
              then Go.Fail (Go.errorString "no image data found")
              else Go.Ok (mkBC5 rest
                            (image.Rect 0 0 (BigEndian.Uint32 [a4; a5; a6; a7])
                                        (BigEndian.Uint32 [a8; a9; a10; a11]))
                            Zero))
  end.
  rewrite Decode_header by reflexivity.
  cbn [firstn skipn]. rewrite Hsig.
  change (BigEndian.Uint32 signatureBytes =? strToDword "BC5 ") with true.
  cbn [negb]. unfold Go.len.
  replace (Z.of_nat (12 + length stream) <? 13)
    with (Z.of_nat (length stream) <? 1)
    by (destruct (Z.ltb_spec (Z.of_nat (length stream)) 1),
          (Z.ltb_spec (Z.of_nat (12 + length stream)) 13); auto; lia).
  reflexivity.
Qed.

(** [Decode] fails with "not enough data for BC5" on fewer than twelve
    bytes, with "no image data found" on twelve bytes that start with the
    signature, and succeeds on a longer stream that starts with the
    signature; it succeeds in no other case. *)
Lemma Decode_outcomes (stream : list Z) :
  Forall isByte stream ->
  (Go.len stream < 12 ->
   Decode stream = Go.Fail (Go.errorString "not enough data for BC5")) /\
  (Go.len stream = 12 -> firstn 4 stream = signatureBytes ->
   Decode stream = Go.Fail (Go.errorString "no image data found")) /\
  ((exists img, Decode stream = Go.Ok img) <->
   13 <= Go.len stream /\ firstn 4 stream = signatureBytes).
Proof.
  intros Hb. split; [apply Decode_short |]. split.
  - intros H12 Hsig. rewrite Decode_long by (assumption || lia).
    rewrite H12. reflexivity.
  - split.
    + intros [img E].
      destruct (Z.lt_ge_cases (Go.len stream) 12) as [Hs | Hl].
      { rewrite Decode_short in E by assumption. discriminate. }
      destruct (list_eq_dec Z.eq_dec (firstn 4 stream) signatureBytes)
        as [Hsig | Hsig].
      * rewrite Decode_long in E by assumption.
        destruct (Z.ltb_spec (Go.len stream) 13); [discriminate |]. auto.
      * rewrite Decode_bad_signature in E; try assumption; [discriminate |].
        rewrite <- (firstn_skipn 4 stream) in Hb.
        apply Forall_app in Hb. exact (proj1 Hb).
    + intros [Hl Hsig]. rewrite Decode_long by (assumption || lia).
      destruct (Z.ltb_spec (Go.len stream) 13); [lia |]. eauto.
Qed.

(** X14.  A byte stream that [Decode] accepts is written back unchanged by
    [Encode] from the decoded image. *)
Theorem Encode_Decode (stream : list Z) (img : BC5) :
  Forall isByte stream ->
  Decode stream = Go.Ok img ->
  Encode img ([] : list Z) = (stream, None).
Proof.
  intros Hb E.
  destruct (proj1 (proj2 (proj2 (Decode_outcomes stream Hb))) (ex_intro _ img E))
    as [Hl Hsig].
  rewrite Decode_long in E by (assumption || lia).
  destruct (Z.ltb_spec (Go.len stream) 13); [lia |].
  inversion E; subst img. clear E.
  rewrite Encode_buffer. cbn [app]. f_equal.
  unfold headerOf. cbn [Rect Data].
  do 12 (destruct stream as [| ? stream];
         [unfold Go.len in Hl; cbn [length] in Hl; lia |]).
  repeat match goal with
         | H : Forall isByte (_ :: _) |- _ =>
             apply Forall_cons_iff in H; destruct H as [? H]
         end.
  unfold Go.slice.
  change (Z.to_nat (8 - 4)) with 4%nat. change (Z.to_nat (12 - 8)) with 4%nat.
  change (Z.to_nat 4) with 4%nat. change (Z.to_nat 8) with 8%nat.
  cbn [firstn skipn] in *.
  rewrite Size_Rect_origin by (apply Uint32_range; assumption).
  cbn [image.X image.Y].
  rewrite !u32_small by (apply Uint32_range; assumption).
  rewrite !PutUint32_Uint32 by assumption.
  rewrite <- Hsig. reflexivity.
Qed.

Lemma four_cases x : 0 <= x < 4 -> x = 0 \/ x = 1 \/ x = 2 \/ x = 3.
Proof. lia. Qed.

Lemma SubImage_disjoint pix stride x0 y0 :
  4 <= x0 \/ 4 <= y0 \/ x0 <= -4 \/ y0 <= -4 ->
  image.SubImage (image.mkRGBA pix stride (square4 x0 y0))
                 (image.Rect 0 0 4 4)
  = image.empty.
Proof.
  intros H. unfold image.SubImage, image.Intersect, square4.
  cbn [image.Bounds image.Rect Z.ltb Z.compare image.Min image.Max image.X image.Y].
  cbv zeta. cbn [image.Min image.Max image.X image.Y].
  assert (E : image.Empty
                (image.mkRectangle
                   (image.mkPoint (Z.max 0 x0) (Z.max 0 y0))
                   (image.mkPoint (Z.min 4 (x0 + 4)) (Z.min 4 (y0 + 4))))
              = true).
  { unfold image.Empty. cbn [image.Min image.Max image.X image.Y].
    apply orb_true_iff. rewrite !Z.leb_le. lia. }
  rewrite E. reflexivity.
Qed.

(** X12.  [makeBlocks] cuts the blocks at absolute coordinates from (0,0);
    a 4x4 image whose bounds lie elsewhere is compressed as a block of
    zero pixels, whatever its own pixels are. *)
Theorem SetFromRGBA_off_origin (b : BC5) pix stride x0 y0 :
  4 <= x0 \/ 4 <= y0 \/ x0 <= -4 \/ y0 <= -4 ->
  SetFromRGBA b (image.mkRGBA pix stride (square4 x0 y0))
  = Go.Ok (mkBC5 (repeat 0 16) (square4 x0 y0) (Mode b)).
Proof.
  intros H.
  set (img := image.mkRGBA pix stride (square4 x0 y0)).
  assert (Hsize : image.Size (image.Bounds img) = image.mkPoint 4 4).
  { unfold img, square4, image.Size, image.Dx, image.Dy.
    cbn [image.Bounds image.Min image.Max image.X image.Y].
    replace (x0 + 4 - x0) with 4 by lia. replace (y0 + 4 - y0) with 4 by lia.
    reflexivity. }
  destruct (SetFromRGBA_cases b img) as (_ & _ & H3 & _). cbv zeta in H3.
  rewrite Hsize in H3.
  assert (Hside : 0 <= image.X (image.mkPoint 4 4) < 2 ^ 32)
    by (cbn [image.X]; split; [lia | reflexivity]).
  destruct (H3 eq_refl eq_refl Hside) as [E _].
  rewrite E. f_equal.
  assert (Hblocks : cellBlocks img = [fresh4]).
  { unfold cellBlocks. rewrite Hsize. cbn [image.X image.Y].
    change (grid (Z.quot 4 4) (Z.quot 4 4)) with [(0, 0)]. cbn [map].
    unfold blockOf. cbv zeta.
    change (image.Rect (0 * 4) (0 * 4) (0 * 4 + 4) (0 * 4 + 4))
      with (image.Rect 0 0 4 4).
    unfold img. rewrite (SubImage_disjoint pix stride x0 y0 H).
    vm_compute. reflexivity. }
  rewrite Hblocks. vm_compute. reflexivity.
Qed.

Section DecodedBlock.

Lemma color_eta c :
  color.mkRGBA (color.R c) (color.G c) (color.B c) (color.A c) = c.
Proof. destruct c; reflexivity. Qed.

Lemma RGBAAt_blockImage col x y :
  0 <= x < 4 -> 0 <= y < 4 ->
  image.RGBAAt (blockImage col) x y = col (4 * y + x).
Proof.
  intros Hx Hy. rewrite <- (color_eta (col (4 * y + x))).
  destruct (four_cases x Hx) as [-> | [-> | [-> | ->]]],
           (four_cases y Hy) as [-> | [-> | [-> | ->]]];
    reflexivity.
Qed.

(** Sixteen writes into the fresh block, in scan order. *)
Lemma fill_blockImage col :
  Go.forM (grid 4 4)
    (fun '(img, pxIndex) '(x, y) =>
       Go.Ok (image.SetRGBA img x y (col pxIndex), pxIndex + 1))
    (image.NewRGBA (image.Rect 0 0 4 4), 0)
  = Go.Ok (blockImage col, 16).
Proof. vm_compute. reflexivity. Qed.

(** Two loop bodies that agree on the states the loop reaches give the
    same loop. *)
Lemma forM_agree {A S} (Inv : nat -> S -> Prop)
      (body1 body2 : S -> A -> Go.result S) :
  forall (xs : list A) (k : nat) (s : S),
    Inv k s ->
    (forall j x s, (k <= j < k + length xs)%nat -> Inv j s ->
                   body1 s x = body2 s x /\
                   forall s', body2 s x = Go.Ok s' -> Inv (Datatypes.S j) s') ->
    Go.forM xs body1 s = Go.forM xs body2 s.
Proof.
  induction xs as [| x xs IH]; intros k s Hs H; [reflexivity |].
  cbn [Go.forM]. cbn [length] in H.
  destruct (H k x s ltac:(lia) Hs) as [E Hnext]. rewrite E.
  destruct (body2 s x) as [s' | f]; [| reflexivity]. cbn [Go.bind].
  apply (IH (Datatypes.S k)); [apply Hnext; reflexivity |].
  intros j y t Hj. apply H. lia.
Qed.

Lemma index_nth {A} (s : list A) (i : Z) (d : A) :
  0 <= i < Go.len s -> Go.index s i = Go.Ok (nth (Z.to_nat i) s d).
Proof.
  intros Hi. destruct (index_ok s i Hi) as (v & E & N).
  rewrite E. f_equal. symmetry. apply nth_error_nth. exact N.
Qed.

Lemma getIndices_map b :
  Go.len b = 6 ->
  getIndices b
  = Go.Ok (map (fun i => Z.land (Z.shiftr (BigEndian.Uint64 ([0; 0] ++ b))
                                          (i * 3)) 7) (Go.upto 16)).
Proof.
  intros H. unfold getIndices. rewrite H. reflexivity.
Qed.

Lemma land7_isIndex z : isIndex (Z.land z 7).
Proof.
  unfold isIndex. change 7 with (Z.ones 3). rewrite Z.land_ones by lia.
  change (2 ^ 3) with 8. apply Z.mod_pos_bound. lia.
Qed.

Lemma nth_map_upto (f : Z -> Z) (n : Z) (j : nat) :
  (j < Z.to_nat n)%nat -> nth j (map f (Go.upto n)) 0 = f (Z.of_nat j).
Proof.
  intros Hj. unfold Go.upto. rewrite map_map.
  rewrite (nth_indep _ 0 (f (Z.of_nat 0))) by (rewrite length_map, length_seq; exact Hj).
  rewrite (map_nth (fun k => f (Z.of_nat k)) (seq 0 (Z.to_nat n)) 0%nat j).
  rewrite seq_nth by exact Hj. reflexivity.
Qed.

Lemma decompressBlock_closed block blueMode :
  Go.len block = 16 ->
  decompressBlock block blueMode
  = Go.Ok (blockImage (decodedPixel block blueMode)).
Proof.
  intros Hlen. unfold decompressBlock. rewrite Hlen.
  cbn [Z.eqb Pos.eqb negb].
  destruct (len_slice16 block Hlen) as [Hr Hg].
  rewrite (getIndices_map _ Hr), (getIndices_map _ Hg). cbn [Go.bind].
  fold (redIndex block) (greenIndex block).
  set (r := generatePalette (normalize (nth 0 block 0))
                            (normalize (nth 1 block 0))).
  set (g := generatePalette (normalize (nth 8 block 0))
                            (normalize (nth 9 block 0))).
  rewrite (forM_agree
             (fun k (s : image.RGBA * Z) => snd s = Z.of_nat k)
             _
             (fun '(img, pxIndex) '(x, y) =>
                Go.Ok (image.SetRGBA img x y
                         (decodedPixel block blueMode pxIndex),
                       pxIndex + 1))
             (grid 4 4) 0%nat).
  - rewrite fill_blockImage. reflexivity.
  - reflexivity.
  - intros j [x y] [img px] Hj Hpx. cbn [snd] in Hpx. subst px.
    change (length (grid 4 4)) with 16%nat in Hj.
    split; [| intros s' E; inversion E; cbn [snd]; lia].
    rewrite (index_nth _ _ 0)
      by (unfold Go.len; rewrite length_map; change (length (Go.upto 16)) with 16%nat; lia).
    cbn [Go.bind]. rewrite Nat2Z.id, nth_map_upto by (change (Z.to_nat 16) with 16%nat; lia).
    rewrite (index_nth r _ 0%float)
      by (unfold Go.len, r, redIndex; rewrite length_generatePalette;
          apply land7_isIndex).
    cbn [Go.bind].
    rewrite (index_nth _ _ 0)
      by (unfold Go.len; rewrite length_map; change (length (Go.upto 16)) with 16%nat; lia).
    cbn [Go.bind]. rewrite Nat2Z.id, nth_map_upto by (change (Z.to_nat 16) with 16%nat; lia).
    rewrite (index_nth g _ 0%float)
      by (unfold Go.len, g, greenIndex; rewrite length_generatePalette;
          apply land7_isIndex).
    cbn [Go.bind]. reflexivity.
Qed.

End DecodedBlock.

(** ** Quantization *)

Lemma checkMinima_all : checkMinima normTable = true.
Proof. vm_cast_no_check (eq_refl true). Qed.

Section Quantize.

Lemma normTable_eq :
  normTable = map (fun v => (v, normalize v)) (Go.upto 256).
Proof. vm_compute. reflexivity. Qed.

Lemma pickByte_nearest (pal : list float) (v : Z) :
  length pal = 8%nat ->
  pickByte (map (fun p => (p, denormalize p)) pal) (normalize v)
  = denormalize (at8 pal (nearest pal v)).
Proof.
  intros Hlen.
  do 8 (destruct pal as [| ? pal]; [discriminate |]).
  destruct pal; [| discriminate].
  unfold pickByte, nearest. set (nv := normalize v).
  change (Go.upto 8) with [0; 1; 2; 3; 4; 5; 6; 7].
  cbn [map fold_left].
  cbv [at8 nth Z.to_nat Pos.to_nat Pos.iter_op Nat.add].
  cbv beta iota zeta.
  repeat match goal with
         | |- context [if ?c then _ else _] =>
             destruct c; cbv beta iota zeta;
             cbv [at8 nth Z.to_nat Pos.to_nat Pos.iter_op Nat.add]
         end;
    reflexivity.
Qed.

Lemma checkValues_sound pal mn mx e : forall cnt l k v nv,
  checkValues pal mn mx e cnt l = true ->
  (k < cnt)%nat -> nth_error l k = Some (v, nv) ->
  Z.abs (pickByte pal nv - v) <= e /\
  (v = mn \/ v = mx -> pickByte pal nv = v).
Proof.
  induction cnt as [| cnt IH]; intros l k v nv H Hk Hn; [lia |].
  destruct l as [| [v0 nv0] l]; [destruct k; discriminate |].
  cbn [checkValues] in H. cbv zeta in H.
  apply andb_true_iff in H. destruct H as [H H3].
  apply andb_true_iff in H. destruct H as [H1 H2].
  destruct k as [| k].
  - cbn in Hn. injection Hn as -> ->.
    apply Z.leb_le in H1. split; [exact H1 |].
    intros Hext. apply orb_true_iff in H2. destruct H2 as [H2 | H2].
    + apply negb_true_iff, orb_false_iff in H2. destruct H2 as [A B].
      apply Z.eqb_neq in A, B. lia.
    + apply Z.eqb_eq. exact H2.
  - cbn in Hn. apply (IH l k v nv H3); [lia | exact Hn].
Qed.

Lemma checkMaxima_sound mn nmn l : forall ms cnt j mx nmx,
  checkMaxima mn nmn cnt l ms = true ->
  nth_error ms j = Some (mx, nmx) ->
  checkValues (map (fun p => (p, denormalize p)) (generatePalette nmn nmx))
              mn mx ((mx - mn + 10) / 10) (S (cnt + j)) l = true.
Proof.
  induction ms as [| [mx0 nmx0] ms IH]; intros cnt j mx nmx H Hn;
    [destruct j; discriminate |].
  cbn [checkMaxima] in H. cbv zeta in H.
  apply andb_true_iff in H. destruct H as [H1 H2].
  destruct j as [| j].
  - cbn in Hn. injection Hn as -> ->. rewrite Nat.add_0_r. exact H1.
  - cbn in Hn. rewrite <- Nat.add_succ_comm. apply (IH _ _ _ _ H2 Hn).
Qed.

Lemma checkMinima_sound : forall l i mn nmn,
  checkMinima l = true ->
  nth_error l i = Some (mn, nmn) ->
  checkMaxima mn nmn 0 (skipn i l) (skipn i l) = true.
Proof.
  induction l as [| [mn0 nmn0] l IH]; intros i mn nmn H Hn;
    [destruct i; discriminate |].
  cbn [checkMinima] in H. apply andb_true_iff in H. destruct H as [H1 H2].
  destruct i as [| i].
  - cbn in Hn. injection Hn as -> ->. exact H1.
  - cbn in Hn. cbn [skipn]. apply (IH _ _ _ H2 Hn).
Qed.

Lemma nth_error_normTable i k :
  0 <= i -> 0 <= k -> i + k < 256 ->
  nth_error (skipn (Z.to_nat i) normTable) (Z.to_nat k)
  = Some (i + k, normalize (i + k)).
Proof.
  intros Hi Hk Hik. rewrite normTable_eq, nth_error_skipn.
  unfold Go.upto. rewrite map_map, nth_error_map, nth_error_seq.
  destruct (Nat.ltb_spec (Z.to_nat i + Z.to_nat k) (Z.to_nat 256)); [| lia].
  cbn [option_map Nat.add].
  replace (Z.of_nat (Z.to_nat i + Z.to_nat k)) with (i + k) by lia.
  reflexivity.
Qed.

Lemma quantize_checked mn mx v :
  isByte mn -> isByte mx -> mn <= v <= mx ->
  Z.abs (quantizeByte mn mx v - v) <= (mx - mn + 10) / 10 /\
  (v = mn \/ v = mx -> quantizeByte mn mx v = v).
Proof.
  unfold isByte. intros Hmn Hmx Hv.
  pose proof (nth_error_normTable mn 0 ltac:(lia) ltac:(lia) ltac:(lia)) as N0.
  rewrite Z.add_0_r in N0.
  assert (Nmn : nth_error normTable (Z.to_nat mn) = Some (mn, normalize mn)).
  { rewrite <- N0. change (Z.to_nat 0) with 0%nat.
    rewrite nth_error_skipn, Nat.add_0_r. reflexivity. }
  pose proof (checkMinima_sound _ _ _ _ checkMinima_all Nmn) as M.
  pose proof (nth_error_normTable mn (mx - mn) ltac:(lia) ltac:(lia) ltac:(lia))
    as Nmx.
  replace (mn + (mx - mn)) with mx in Nmx by lia.
  pose proof (checkMaxima_sound _ _ _ _ _ _ _ _ M Nmx) as V.
  pose proof (nth_error_normTable mn (v - mn) ltac:(lia) ltac:(lia) ltac:(lia))
    as Nv.
  replace (mn + (v - mn)) with v in Nv by lia.
  assert (Hk : (Z.to_nat (v - mn) < S (0 + Z.to_nat (mx - mn)))%nat) by lia.
  pose proof (checkValues_sound _ _ _ _ _ _ _ _ _ V Hk Nv) as Q.
  rewrite pickByte_nearest in Q by apply length_generatePalette.
  exact Q.
Qed.

End Quantize.

(** The byte a value between the two references is quantized to differs
    from it by at most a tenth of the distance of the references plus one,
    and the references themselves are reproduced exactly. *)
Lemma quantize_bound mn mx v :
  isByte mn -> isByte mx -> mn <= v <= mx ->
  10 * Z.abs (quantizeByte mn mx v - v) <= mx - mn + 10 /\
  (v = mn \/ v = mx -> quantizeByte mn mx v = v).
Proof.
  intros Hmn Hmx Hv.
  destruct (quantize_checked mn mx v Hmn Hmx Hv) as [H1 H2].
  split; [| exact H2].
  pose proof (Z.mul_div_le (mx - mn + 10) 10 ltac:(lia)). lia.
Qed.

(** X9.  [decompressBlock] gives every pixel of every 16-byte block alpha 1
    and red and green bytes; the blue byte is 255 in mode [One], the red
    byte in mode [Greyscale], and 0 in mode [Zero] and in every mode that
    is none of the four constants. *)
Theorem decompressBlock_channels block blueMode :
  Go.len block = 16 ->
  exists out,
    decompressBlock block blueMode = Go.Ok out /\
    forall x y, 0 <= x < 4 -> 0 <= y < 4 ->
      let c := image.RGBAAt out x y in
      color.A c = 1 /\ isByte (color.R c) /\ isByte (color.G c) /\
      (blueMode = One -> color.B c = 255) /\
      (blueMode = Greyscale -> color.B c = color.R c) /\
      (blueMode <> One -> blueMode <> Greyscale ->
       blueMode <> ComputeNormal -> color.B c = 0).
Proof.
  intros Hlen. eexists. split; [apply decompressBlock_closed, Hlen |].
  intros x y Hx Hy. cbv zeta. rewrite RGBAAt_blockImage by assumption.
  unfold decodedPixel. cbn [color.R color.G color.B color.A].
  split; [reflexivity |].
  split; [apply u8_isByte |]. split; [apply u8_isByte |].
  unfold blue, One, Greyscale, ComputeNormal.
  split; [intros ->; reflexivity |].
  split; [intros ->; reflexivity |].
  intros H1 H3 H2.
  destruct (Z.eqb_spec blueMode 2); [contradiction |].
  destruct (Z.eqb_spec blueMode 3); [contradiction |].
  destruct (Z.eqb_spec blueMode 1); [contradiction |]. reflexivity.
Qed.

Section Rotation.

Lemma indexLoop_fold_gen block palR palG (l : list (Z * Z)) : forall r g,
  fold_left
    (fun '(rIndexU, gIndexU) '(x, y) =>
       let c := image.RGBAAt block x y in
       (pushIndex rIndexU (nearest palR (color.R c)),
        pushIndex gIndexU (nearest palG (color.G c))))
    l (r, g)
  = (fold_left pushIndex
       (map (fun '(x, y) => nearest palR (color.R (image.RGBAAt block x y))) l) r,
     fold_left pushIndex
       (map (fun '(x, y) => nearest palG (color.G (image.RGBAAt block x y))) l) g).
Proof.
  induction l as [| [x y] l IH]; intros r g; [reflexivity |].
  cbn [fold_left map]. cbv zeta. apply IH.
Qed.

Lemma indexLoop_folds block palR palG :
  indexLoop block palR palG
  = (fold_left pushIndex (map (nearest palR) (reds block)) 0,
     fold_left pushIndex (map (nearest palG) (greens block)) 0).
Proof.
  unfold indexLoop, reds, greens. rewrite !map_map.
  apply indexLoop_fold_gen.
Qed.

Lemma compressBlock_fields block :
  byteBlock block ->
  let '(minR, maxR, minG, maxG) := minmax block in
  let palR := generatePalette (normalize minR) (normalize maxR) in
  let palG := generatePalette (normalize minG) (normalize maxG) in
  isByte minR /\ isByte maxR /\ isByte minG /\ isByte maxG /\
  compressBlock block
  = [minR; maxR] ++ packIndices (map (nearest palR) (reds block))
    ++ [minG; maxG] ++ packIndices (map (nearest palG) (greens block)).
Proof.
  intros [Hr Hg].
  pose proof (compressBlock_layout block) as L.
  rewrite minmax_folds in L |- *. cbv zeta in L |- *.
  rewrite indexLoop_folds in L.
  assert (Hne : forall f, map f (grid 4 4) <> @nil Z) by (intros f; discriminate).
  pose proof (fold_min_bytes _ (Hne _) Hr) as HminR.
  pose proof (fold_max_bytes _ (Hne _) Hr) as HmaxR.
  pose proof (fold_min_bytes _ (Hne _) Hg) as HminG.
  pose proof (fold_max_bytes _ (Hne _) Hg) as HmaxG.
  destruct (isMin_isMax_bytes _ _ _ Hr HminR HmaxR) as (B1 & B2 & _).
  destruct (isMin_isMax_bytes _ _ _ Hg HminG HmaxG) as (B3 & B4 & _).
  unfold reds, greens in *.
  rewrite !denormalize_normalize in L by assumption.
  repeat (split; [assumption |]). exact L.
Qed.

End Rotation.

Section Rotation2.

Lemma layout_fields a b c d (rf gf : list Z) :
  length rf = 6%nat -> length gf = 6%nat ->
  let cb := [a; b] ++ rf ++ [c; d] ++ gf in
  nth 0 cb 0 = a /\ nth 1 cb 0 = b /\ nth 8 cb 0 = c /\ nth 9 cb 0 = d /\
  Go.slice cb 2 8 = rf /\ Go.sliceFrom cb 10 = gf.
Proof.
  intros Hr Hg.
  do 6 (destruct rf as [| ? rf]; [discriminate |]).
  destruct rf; [| discriminate].
  do 6 (destruct gf as [| ? gf]; [discriminate |]).
  destruct gf; [| discriminate].
  repeat split.
Qed.

Lemma Ok_inj {A} (a b : A) : Go.Ok a = Go.Ok b -> a = b.
Proof. intros H. inversion H. reflexivity. Qed.

Lemma length_packIndices vs : length (packIndices vs) = 6%nat.
Proof. reflexivity. Qed.

(** The index [getIndices] reads at position [i] of a packed field is
    the index packed at position [15 - i]. *)
Lemma unpacked_index (vs : list Z) (i : Z) :
  length vs = 16%nat -> Forall isIndex vs -> 0 <= i < 16 ->
  Z.land (Z.shiftr (BigEndian.Uint64 ([0; 0] ++ packIndices vs)) (i * 3)) 7
  = nth (Z.to_nat (15 - i)) vs 0.
Proof.
  intros Hlen Hall Hi.
  pose proof (getIndices_packIndices_rev vs Hlen Hall) as E.
  pose proof (getIndices_map (packIndices vs) (f_equal Z.of_nat (length_packIndices vs))) as M.
  rewrite M in E. apply Ok_inj in E.
  set (f := fun i => Z.land (Z.shiftr (BigEndian.Uint64
                                         ([0; 0] ++ packIndices vs))
                                      (i * 3)) 7) in *.
  change (f i = nth (Z.to_nat (15 - i)) vs 0).
  assert (N : nth (Z.to_nat i) (map f (Go.upto 16)) 0 = f (Z.of_nat (Z.to_nat i))).
  { apply nth_map_upto. change (Z.to_nat 16) with 16%nat. lia. }
  rewrite Z2Nat.id in N by lia. rewrite <- N, E.
  rewrite rev_nth by lia. f_equal. lia.
Qed.

Lemma nth_reds block x y :
  0 <= x < 4 -> 0 <= y < 4 ->
  nth (Z.to_nat (15 - (4 * y + x))) (reds block) 0
  = color.R (image.RGBAAt block (3 - x) (3 - y)) /\
  nth (Z.to_nat (15 - (4 * y + x))) (greens block) 0
  = color.G (image.RGBAAt block (3 - x) (3 - y)).
Proof.
  intros Hx Hy.
  destruct (four_cases x Hx) as [-> | [-> | [-> | ->]]],
           (four_cases y Hy) as [-> | [-> | [-> | ->]]];
    split; reflexivity.
Qed.

Lemma nth_map_nearest pal (l : list Z) (k : nat) :
  (k < length l)%nat ->
  nth k (map (nearest pal) l) 0 = nearest pal (nth k l 0).
Proof.
  intros Hk. rewrite (nth_indep _ 0 (nearest pal 0)) by (rewrite length_map; exact Hk).
  apply map_nth.
Qed.

End Rotation2.

(** Decompressing a compressed block gives, at [(x, y)], the quantized
    red and green bytes of the pixel at [(3 - x, 3 - y)] of the block:
    the block comes back quantized and turned by half a turn. *)
Lemma half_turn_pixels (block : image.RGBA) blueMode :
  byteBlock block ->
  exists out,
    decompressBlock (compressBlock block) blueMode = Go.Ok out /\
    forall x y, 0 <= x < 4 -> 0 <= y < 4 ->
      (color.R (image.RGBAAt out x y), color.G (image.RGBAAt out x y))
      = quantized block (3 - x) (3 - y).
Proof.
  intros Hb.
  assert (Hlen : Go.len (compressBlock block) = 16)
    by (unfold Go.len; rewrite (proj1 (compressBlock_bytes block)); reflexivity).
  eexists. split; [apply decompressBlock_closed, Hlen |].
  intros x y Hx Hy. rewrite RGBAAt_blockImage by assumption.
  pose proof (compressBlock_fields block Hb) as F.
  unfold quantized. destruct (minmax block) as [[[minR maxR] minG] maxG].
  cbv zeta in F. destruct F as (B1 & B2 & B3 & B4 & F).
  set (palR := generatePalette (normalize minR) (normalize maxR)) in *.
  set (palG := generatePalette (normalize minG) (normalize maxG)) in *.
  set (rs := map (nearest palR) (reds block)) in *.
  set (gs := map (nearest palG) (greens block)) in *.
  destruct (layout_fields minR maxR minG maxG (packIndices rs) (packIndices gs)
              (length_packIndices rs) (length_packIndices gs))
    as (N0 & N1 & N8 & N9 & SR & SG).
  unfold decodedPixel, redIndex, greenIndex. rewrite F.
  rewrite N0, N1, N8, N9, SR, SG. cbv zeta.
  cbn [color.R color.G].
  assert (Lr : length rs = 16%nat) by reflexivity.
  assert (Lg : length gs = 16%nat) by reflexivity.
  assert (Ar : Forall isIndex rs).
  { apply Forall_forall. intros i Hi. unfold rs in Hi.
    apply in_map_iff in Hi. destruct Hi as (v & <- & _).
    apply nearest_spec. }
  assert (Ag : Forall isIndex gs).
  { apply Forall_forall. intros i Hi. unfold gs in Hi.
    apply in_map_iff in Hi. destruct Hi as (v & <- & _).
    apply nearest_spec. }
  rewrite (unpacked_index rs (4 * y + x) Lr Ar) by lia.
  rewrite (unpacked_index gs (4 * y + x) Lg Ag) by lia.
  unfold rs, gs.
  rewrite !nth_map_nearest
    by (change (length (reds block)) with 16%nat
        || change (length (greens block)) with 16%nat; lia).
  destruct (nth_reds block x y Hx Hy) as [-> ->].
  reflexivity.
Qed.

Lemma isMin_unique l m m' : isMin m l -> isMin m' l -> m = m'.
Proof.
  intros [I1 F1] [I2 F2]. rewrite Forall_forall in F1, F2.
  pose proof (F1 _ I2). pose proof (F2 _ I1). lia.
Qed.

Lemma isMax_unique l m m' : isMax m l -> isMax m' l -> m = m'.
Proof.
  intros [I1 F1] [I2 F2]. rewrite Forall_forall in F1, F2.
  pose proof (F1 _ I2). pose proof (F2 _ I1). lia.
Qed.

Lemma minmax_extremes block :
  byteBlock block ->
  let '(minR, maxR, minG, maxG) := minmax block in
  isMin minR (reds block) /\ isMax maxR (reds block) /\
  isMin minG (greens block) /\ isMax maxG (greens block).
Proof.
  intros [Hr Hg]. rewrite minmax_folds.
  assert (Hne : forall f, map f (grid 4 4) <> @nil Z) by (intros f; discriminate).
  split; [apply (fold_min_bytes _ (Hne _) Hr) |].
  split; [apply (fold_max_bytes _ (Hne _) Hr) |].
  split; [apply (fold_min_bytes _ (Hne _) Hg) |].
  apply (fold_max_bytes _ (Hne _) Hg).
Qed.

Lemma in_reds block x y :
  0 <= x < 4 -> 0 <= y < 4 ->
  In (color.R (image.RGBAAt block x y)) (reds block) /\
  In (color.G (image.RGBAAt block x y)) (greens block).
Proof.
  intros Hx Hy. unfold reds, greens. split; apply in_map_iff; exists (x, y);
    (split; [reflexivity | apply in_grid; lia]).
Qed.

(** X8.  Decompressing a compressed block reproduces every red and green
    byte, at the opposite place of the block, up to a tenth of the distance
    between the least and the greatest byte of its channel, plus one; a
    byte that is the least or the greatest of its channel is reproduced
    exactly. *)
Theorem decompress_compress_error (block : image.RGBA) blueMode :
  byteBlock block ->
  exists out,
    decompressBlock (compressBlock block) blueMode = Go.Ok out /\
    forall minR maxR minG maxG,
      isMin minR (reds block) -> isMax maxR (reds block) ->
      isMin minG (greens block) -> isMax maxG (greens block) ->
      forall x y, 0 <= x < 4 -> 0 <= y < 4 ->
        let c := image.RGBAAt block (3 - x) (3 - y) in
        let c' := image.RGBAAt out x y in
        10 * Z.abs (color.R c' - color.R c) <= maxR - minR + 10 /\
        10 * Z.abs (color.G c' - color.G c) <= maxG - minG + 10 /\
        (color.R c = minR \/ color.R c = maxR -> color.R c' = color.R c) /\
        (color.G c = minG \/ color.G c = maxG -> color.G c' = color.G c).
Proof.
  intros Hb.
  destruct (half_turn_pixels block blueMode Hb) as (out & E & H).
  exists out. split; [exact E |].
  intros minR maxR minG maxG H1 H2 H3 H4 x y Hx Hy. cbv zeta.
  specialize (H x y Hx Hy). unfold quantized in H.
  pose proof (minmax_extremes block Hb) as M.
  destruct (minmax block) as [[[mnR mxR] mnG] mxG].
  destruct M as (M1 & M2 & M3 & M4).
  rewrite (isMin_unique _ _ _ H1 M1), (isMax_unique _ _ _ H2 M2),
          (isMin_unique _ _ _ H3 M3), (isMax_unique _ _ _ H4 M4).
  pose proof (f_equal fst H) as ER. pose proof (f_equal snd H) as EG.
  cbn [fst snd] in ER, EG. rewrite ER, EG.
  destruct (in_reds block (3 - x) (3 - y)) as [IR IG]; try lia.
  destruct Hb as [Br Bg].
  destruct (isMin_isMax_bytes _ _ _ Br M1 M2) as (B1 & B2 & _).
  destruct (isMin_isMax_bytes _ _ _ Bg M3 M4) as (B3 & B4 & _).
  destruct M1 as [_ M1], M2 as [_ M2], M3 as [_ M3], M4 as [_ M4].
  rewrite Forall_forall in M1, M2, M3, M4.
  destruct (quantize_bound mnR mxR _ B1 B2 (conj (M1 _ IR) (M2 _ IR))) as [Q1 Q2].
  destruct (quantize_bound mnG mxG _ B3 B4 (conj (M3 _ IG) (M4 _ IG))) as [Q3 Q4].
  repeat split; assumption.
Qed.

(** ** [int(float32(v)/4)] *)

Section Float32.

Lemma fexp32 e : -125 <= e -> fexp 24 128 e = e - 24.
Proof. intros H. unfold fexp, emin. lia. Qed.

Lemma digits2_iter p k :
  digits2_pos (Pos.iter xO p k) = (digits2_pos p + k)%positive.
Proof.
  induction k as [| k IH] using Pos.peano_ind.
  - cbn. lia.
  - rewrite Pos.iter_succ. cbn [digits2_pos]. rewrite IH. lia.
Qed.

Lemma iter_xO_mul p k : Zpos (Pos.iter xO p k) = Zpos p * 2 ^ Zpos k.
Proof.
  induction k as [| k IH] using Pos.peano_ind.
  - cbn. lia.
  - rewrite Pos.iter_succ.
    change (Zpos (Pos.iter xO p k)~0) with (2 * Zpos (Pos.iter xO p k)).
    rewrite IH, Pos2Z.inj_succ, Z.pow_succ_r by lia. lia.
Qed.

Lemma digits2_bounds p :
  2 ^ (Zpos (digits2_pos p) - 1) <= Zpos p < 2 ^ Zpos (digits2_pos p).
Proof.
  induction p as [p IH | p IH |]; cbn [digits2_pos].
  - rewrite Pos2Z.inj_succ. change (Zpos p~1) with (2 * Zpos p + 1).
    replace (Z.succ (Zpos (digits2_pos p)) - 1) with (Zpos (digits2_pos p)) by lia.
    rewrite Z.pow_succ_r by lia.
    assert (E : 2 ^ Zpos (digits2_pos p) = 2 * 2 ^ (Zpos (digits2_pos p) - 1)).
    { rewrite <- Z.pow_succ_r by lia. f_equal. lia. }
    set (A := 2 ^ (Zpos (digits2_pos p) - 1)) in *.
    set (B := 2 ^ Zpos (digits2_pos p)) in *. clearbody A B. lia.
  - rewrite Pos2Z.inj_succ. change (Zpos p~0) with (2 * Zpos p).
    replace (Z.succ (Zpos (digits2_pos p)) - 1) with (Zpos (digits2_pos p)) by lia.
    rewrite Z.pow_succ_r by lia.
    assert (E : 2 ^ Zpos (digits2_pos p) = 2 * 2 ^ (Zpos (digits2_pos p) - 1)).
    { rewrite <- Z.pow_succ_r by lia. f_equal. lia. }
    set (A := 2 ^ (Zpos (digits2_pos p) - 1)) in *.
    set (B := 2 ^ Zpos (digits2_pos p)) in *. clearbody A B. lia.
  - cbn. lia.
Qed.

(** A mantissa of exactly 24 digits is not rounded. *)
Lemma binary_round_aux_exact m e :
  Zpos (digits2_pos m) = 24 -> -149 <= e <= 104 ->
  binary_round_aux 24 128 false (Zpos m) e loc_Exact = S754_finite false m e.
Proof.
  intros Hd He. unfold binary_round_aux, shr_fexp, Zdigits2.
  rewrite Hd, fexp32 by lia.
  replace (24 + e - 24 - e) with 0 by lia.
  cbn [shr shr_record_of_loc loc_of_shr_record shr_m shr_r shr_s
       round_nearest_even Zdigits2].
  rewrite Hd, fexp32 by lia.
  replace (24 + e - 24 - e) with 0 by lia.
  cbn [shr shr_record_of_loc shr_m].
  change (128 - 24) with 104.
  destruct (Z.leb_spec e 104); [reflexivity | lia].
Qed.

End Float32.

Section Quarter.

(** An integer of at most 24 binary digits is a binary32 number: its
    mantissa shifted up to 24 digits, with the exponent that undoes the
    shift. *)
Lemma ofInt_exact p :
  Zpos p < 2 ^ 24 ->
  exists m e,
    F32.ofInt (Zpos p) = S754_finite false m e /\
    Zpos (digits2_pos m) = 24 /\ -23 <= e <= 0 /\
    Zpos m = Zpos p * 2 ^ (- e).
Proof.
  intros Hp. pose proof (digits2_bounds p) as [Hlo Hhi].
  assert (Hd : Zpos (digits2_pos p) <= 24).
  { destruct (Z.le_gt_cases (Zpos (digits2_pos p)) 24) as [H | H]; [exact H |].
    assert (2 ^ 24 <= 2 ^ (Zpos (digits2_pos p) - 1))
      by (apply Z.pow_le_mono_r; lia).
    lia. }
  unfold F32.ofInt, binary_normalize, binary_round.
  rewrite Z.add_0_r, fexp32 by lia. unfold shl_align.
  rewrite Z.sub_0_r.
  destruct (Zpos (digits2_pos p) - 24) as [| k | k] eqn:Ek; [| lia |].
  - exists p, 0. rewrite binary_round_aux_exact by lia.
    repeat split; try lia.
  - exists (Pos.iter xO p k), (Zneg k).
    assert (Hdig : Zpos (digits2_pos (Pos.iter xO p k)) = 24)
      by (rewrite digits2_iter; lia).
    rewrite binary_round_aux_exact by (assumption || lia).
    repeat split; try lia.
    rewrite iter_xO_mul. reflexivity.
Qed.

Lemma four32 : F32.ofInt 4 = S754_finite false 8388608 (-21).
Proof. reflexivity. Qed.

(** Dividing a normal binary32 number by 4 lowers its exponent by 2. *)
Lemma div4_exact m e :
  Zpos (digits2_pos m) = 24 -> -23 <= e <= 0 ->
  F32.div (S754_finite false m e) (F32.ofInt 4) = S754_finite false m (e - 2).
Proof.
  intros Hd He. rewrite four32. unfold F32.div, SFdiv, SFdiv_core_binary.
  unfold Zdigits2. rewrite Hd.
  change (Zpos (digits2_pos 8388608)) with 24.
  replace (24 + e - (24 + -21)) with (e + 21) by lia.
  rewrite fexp32 by lia.
  replace (Z.min (e + 21 - 24) (e - -21)) with (e - 3) by lia.
  replace (e - -21 - (e - 3)) with 24 by lia.
  cbv beta iota.
  assert (Hq : Z.div_eucl (Z.shiftl (Zpos m) 24) 8388608 = (Zpos m~0, 0)).
  { rewrite Z.shiftl_mul_pow2 by lia.
    pose proof (Z.div_eucl_eq (Zpos m * 2 ^ 24) 8388608 ltac:(lia)) as E.
    pose proof (Z.mod_pos_bound (Zpos m * 2 ^ 24) 8388608 ltac:(lia)) as B.
    unfold Z.modulo in B.
    destruct (Z.div_eucl (Zpos m * 2 ^ 24) 8388608) as [q r].
    change (2 ^ 24) with 16777216 in *.
    assert (q = 2 * Zpos m /\ r = 0) as [-> ->] by lia.
    reflexivity. }
  rewrite Hq. cbn [xorb].
  change (new_location 8388608 0) with loc_Exact.
  unfold binary_round_aux, shr_fexp, Zdigits2.
  cbn [digits2_pos]. rewrite Pos2Z.inj_succ, Hd.
  rewrite fexp32 by lia.
  replace (Z.succ 24 + (e - 3) - 24 - (e - 3)) with 1 by lia.
  cbn [shr shr_record_of_loc iter_pos shr_1 orb loc_of_shr_record shr_m shr_r
       shr_s round_nearest_even Zdigits2].
  rewrite Hd, fexp32 by lia.
  replace (24 + (e - 3 + 1) - 24 - (e - 3 + 1)) with 0 by lia.
  cbn [shr shr_record_of_loc shr_m].
  change (128 - 24) with 104.
  destruct (Z.leb_spec (e - 3 + 1) 104); [| lia].
  f_equal. lia.
Qed.

(** [int(float32(v)/4)] is [v/4] for every [v] that a binary32 holds
    exactly. *)
Lemma quarter_exact v : 0 <= v < 2 ^ 24 -> quarter v = v / 4.
Proof.
  intros Hv. unfold quarter.
  destruct v as [| p | p]; [reflexivity | | lia].
  destruct (ofInt_exact p (proj2 Hv)) as (m & e & -> & Hd & He & Hm).
  rewrite div4_exact by assumption.
  unfold F32.toInt, F64.trunc.
  rewrite Z.shiftl_div_pow2 by lia. rewrite Hm.
  replace (- (e - 2)) with (2 + - e) by lia.
  rewrite Z.pow_add_r by lia.
  rewrite Z.div_mul_cancel_r by (try apply Z.pow_nonzero; lia).
  change (2 ^ 2) with 4.
  unfold Go.int.
  assert (0 <= Zpos p / 4 < 2 ^ 24)
    by (split; [apply Z.div_pos; lia | apply Z.div_lt_upper_bound; lia]).
  change (2 ^ 24) with 16777216 in *.
  change (2 ^ 63) with 9223372036854775808.
  change (2 ^ 64) with 18446744073709551616.
  rewrite Z.mod_small by lia. lia.
Qed.

End Quarter.

(** ** Cutting an image into blocks *)

Section Blocks.

Lemma Rect_canon a b c d :
  a <= c -> b <= d ->
  image.Rect a b c d
  = image.mkRectangle (image.mkPoint a b) (image.mkPoint c d).
Proof.
  intros H1 H2. unfold image.Rect.
  destruct (Z.ltb_spec c a); [lia |]. destruct (Z.ltb_spec d b); [lia |].
  reflexivity.
Qed.

Lemma Intersect_inside a b c d w h :
  0 <= a -> 0 <= b -> a < c -> b < d -> c <= w -> d <= h ->
  image.Intersect
    (image.mkRectangle (image.mkPoint a b) (image.mkPoint c d))
    (image.mkRectangle (image.mkPoint 0 0) (image.mkPoint w h))
  = image.mkRectangle (image.mkPoint a b) (image.mkPoint c d).
Proof.
  intros. unfold image.Intersect, image.Empty.
  cbn [image.Min image.Max image.X image.Y].
  rewrite !Z.max_l, !Z.min_l by lia.
  destruct (Z.leb_spec c a); [lia |]. destruct (Z.leb_spec d b); [lia |].
  reflexivity.
Qed.

(** Sixteen pixels written into a fresh block are read back. *)
Lemma fill4_read (col : Z -> Z -> color.RGBA) x y :
  0 <= x < 4 -> 0 <= y < 4 ->
  image.RGBAAt
    (fold_left
       (fun d dy =>
          fold_left (fun d dx => image.SetRGBA d (0 + dx) (0 + dy) (col dx dy))
                    (Go.upto 4) d)
       (Go.upto 4) fresh4) x y
  = col x y.
Proof.
  intros Hx Hy.
  destruct (four_cases x Hx) as [-> | [-> | [-> | ->]]],
           (four_cases y Hy) as [-> | [-> | [-> | ->]]];
    (etransitivity; [vm_compute; reflexivity | apply color_eta]).
Qed.

(** Drawing a source whose bounds are one 4x4 cell into a fresh block
    copies the sixteen pixels of the cell. *)
Lemma Draw_cell (src : image.RGBA) x0 y0 x y :
  image.Bounds src
  = image.mkRectangle (image.mkPoint x0 y0) (image.mkPoint (x0 + 4) (y0 + 4)) ->
  0 <= x < 4 -> 0 <= y < 4 ->
  image.RGBAAt
    (image.Draw fresh4 (image.Bounds fresh4) src (image.Min (image.Bounds src)))
    x y
  = image.RGBAAt src (x0 + x) (y0 + y).
Proof.
  intros E Hx Hy.
  set (r4 := image.mkRectangle (image.mkPoint 0 0) (image.mkPoint 4 4)).
  assert (D : image.Draw fresh4 (image.Bounds fresh4) src
                         (image.Min (image.Bounds src))
              = image.copyRect fresh4 r4 src x0 y0).
  { unfold image.Draw. cbv zeta. rewrite E.
    change (image.Bounds fresh4) with r4.
    change (image.Intersect r4 r4) with r4.
    assert (A : image.Add
                  (image.mkRectangle (image.mkPoint x0 y0)
                                     (image.mkPoint (x0 + 4) (y0 + 4)))
                  (image.mkPoint
                     (image.X (image.Min r4)
                      - image.X (image.Min
                                   (image.mkRectangle (image.mkPoint x0 y0)
                                      (image.mkPoint (x0 + 4) (y0 + 4)))))
                     (image.Y (image.Min r4)
                      - image.Y (image.Min
                                   (image.mkRectangle (image.mkPoint x0 y0)
                                      (image.mkPoint (x0 + 4) (y0 + 4))))))
                = r4).
    { unfold image.Add, r4. cbn [image.Min image.Max image.X image.Y].
      f_equal; f_equal; lia. }
    rewrite A. change (image.Intersect r4 r4) with r4.
    change (image.Empty r4) with false. cbv iota.
    cbn [image.Min image.X image.Y r4].
    change (0 - 0) with 0. rewrite !Z.add_0_r. reflexivity. }
  rewrite D. unfold image.copyRect.
  change (image.Dx r4) with 4. change (image.Dy r4) with 4.
  cbn [image.Min image.X image.Y r4].
  apply (fill4_read (fun dx dy => image.RGBAAt src (x0 + dx) (y0 + dy)));
    assumption.
Qed.

(** A block of [makeBlocks] that lies inside the image holds the pixels of
    the image at the place of the block. *)
Lemma blockOf_inside pix stride w h bx by_ x y :
  0 <= stride -> 0 <= bx -> 0 <= by_ ->
  bx * 4 + 4 <= w -> by_ * 4 + 4 <= h ->
  0 <= x < 4 -> 0 <= y < 4 ->
  let img := image.mkRGBA pix stride (image.Rect 0 0 w h) in
  image.RGBAAt (blockOf img bx by_) x y
  = image.RGBAAt img (bx * 4 + x) (by_ * 4 + y).
Proof.
  intros Hs Hbx Hby Hw Hh Hx Hy img. subst img.
  rewrite (Rect_canon 0 0 w h) by lia.
  set (b := image.mkRectangle (image.mkPoint 0 0) (image.mkPoint w h)).
  set (r := image.mkRectangle (image.mkPoint (bx * 4) (by_ * 4))
                              (image.mkPoint (bx * 4 + 4) (by_ * 4 + 4))).
  assert (Hint : image.Intersect r b = r)
    by (apply Intersect_inside; lia).
  assert (Hne : image.Empty r = false).
  { unfold image.Empty, r. cbn [image.Min image.Max image.X image.Y].
    destruct (Z.leb_spec (bx * 4 + 4) (bx * 4)); [lia |].
    destruct (Z.leb_spec (by_ * 4 + 4) (by_ * 4)); [lia |]. reflexivity. }
  rewrite <- (RGBAAt_SubImage pix stride b r (bx * 4 + x) (by_ * 4 + y)
                Hs Hint Hne).
  2:{ unfold image.In, r. cbn [image.Min image.Max image.X image.Y].
      rewrite !andb_true_iff, !Z.leb_le, !Z.ltb_lt. lia. }
  unfold blockOf. cbv zeta.
  rewrite (Rect_canon (bx * 4) (by_ * 4)) by lia. fold r.
  apply Draw_cell; [| assumption | assumption].
  unfold image.SubImage. cbn [image.Bounds image.Pix image.Stride].
  rewrite Hint, Hne. reflexivity.
Qed.

End Blocks.

(** ** Pixels of a packed image *)

Section Pixels.

Lemma nth_sliceFrom {A} (l : list A) : forall k j d,
  nth j (skipn k l) d = nth (k + j) l d.
Proof.
  induction l as [| a l IH]; intros k j d.
  - assert (N : forall n, nth n (@nil A) d = d) by (intros [| n]; reflexivity).
    rewrite skipn_nil, !N. reflexivity.
  - destruct k; [reflexivity |]. cbn [skipn Nat.add nth]. apply IH.
Qed.

Lemma nth_copyAt {A} (dst : list A) : forall lo src i d,
  nth i (Go.copyAt dst lo src) d
  = if ((lo <=? i) && (i <? lo + length src) && (i <? length dst))%nat
    then nth (i - lo) src d else nth i dst d.
Proof.
  induction dst as [| a dst IH]; intros lo src i d.
  - assert (N : forall n, nth n (@nil A) d = d) by (intros [| n]; reflexivity).
    assert (E : Go.copyAt (@nil A) lo src = []) by (destruct lo; reflexivity).
    rewrite E, !N. cbn [length].
    destruct (Nat.ltb_spec i 0); [lia |]. rewrite andb_false_r. reflexivity.
  - destruct lo as [| lo].
    + destruct src as [| s src].
      * cbn [Go.copyAt length]. rewrite Nat.add_0_r.
        destruct (Nat.ltb_spec i 0); [lia |]. rewrite andb_false_r.
        reflexivity.
      * cbn [Go.copyAt]. destruct i as [| i]; [reflexivity |].
        cbn [nth length]. rewrite IH. cbn [Nat.leb Nat.sub Nat.add].
        rewrite Nat.sub_0_r.
        change (S i <? S (length src))%nat with (i <? length src)%nat.
        change (S i <? S (length dst))%nat with (i <? length dst)%nat.
        reflexivity.
    + cbn [Go.copyAt]. destruct i as [| i]; [reflexivity |].
      cbn [nth length]. rewrite IH. cbn [Nat.sub Nat.add].
      change (S lo <=? S i)%nat with (lo <=? i)%nat.
      change (S i <? S (lo + length src))%nat with (i <? lo + length src)%nat.
      change (S i <? S (length dst))%nat with (i <? length dst)%nat.
      reflexivity.
Qed.

Lemma packed_SetRGBA w h p x y c :
  packed w h p -> packed w h (image.SetRGBA p x y c).
Proof.
  intros (Hb & Hs & Hl). unfold image.SetRGBA.
  destruct (negb _); [repeat split; assumption |].
  repeat split; cbn [image.Bounds image.Stride image.Pix]; try assumption.
  unfold Go.len in *. rewrite length_copyAt. exact Hl.
Qed.

Lemma In_packed w h p x y :
  packed w h p -> 0 <= x < w -> 0 <= y < h ->
  image.In (image.mkPoint x y) (image.Bounds p) = true.
Proof.
  intros (Hb & _) Hx Hy. rewrite Hb. unfold image.In.
  cbn [image.Min image.Max image.X image.Y].
  rewrite !andb_true_iff, !Z.leb_le, !Z.ltb_lt. lia.
Qed.

Lemma PixOffset_packed w h p x y :
  packed w h p ->
  image.PixOffset p x y = y * (4 * w) + x * 4.
Proof.
  intros (Hb & Hs & _). unfold image.PixOffset. rewrite Hb, Hs.
  cbn [image.Min image.X image.Y]. lia.
Qed.

(** A pixel written is the pixel read at the same place, and no other
    pixel changes. *)
Lemma RGBAAt_SetRGBA w h p x y c x' y' :
  packed w h p -> 0 <= x < w -> 0 <= y < h -> 0 <= x' < w -> 0 <= y' < h ->
  image.RGBAAt (image.SetRGBA p x y c) x' y'
  = if (x =? x') && (y =? y') then c else image.RGBAAt p x' y'.
Proof.
  intros Hp Hx Hy Hx' Hy'.
  pose proof (packed_SetRGBA w h p x y c Hp) as Hp'.
  unfold image.RGBAAt at 1.
  rewrite (In_packed w h _ x' y' Hp') by assumption. cbn [negb].
  rewrite (PixOffset_packed w h _ x' y' Hp').
  unfold image.SetRGBA. rewrite (In_packed w h p x y Hp) by assumption.
  cbn [negb image.Pix]. rewrite (PixOffset_packed w h p x y Hp).
  unfold Go.sliceFrom. rewrite !nth_sliceFrom, !nth_copyAt.
  cbn [length].
  destruct Hp as (Hb & Hs & Hl). unfold Go.len in Hl.
  set (o := y * (4 * w) + x * 4). set (o' := y' * (4 * w) + x' * 4).
  assert (Ho : 0 <= o /\ o + 4 <= 4 * w * h) by (unfold o; nia).
  assert (Ho' : 0 <= o' /\ o' + 4 <= 4 * w * h) by (unfold o'; nia).
  destruct ((x =? x') && (y =? y')) eqn:E.
  - apply andb_true_iff in E. destruct E as [Ex Ey].
    apply Z.eqb_eq in Ex, Ey. subst x' y'. fold o in o'. subst o'.
    repeat match goal with
           | |- context [if ?b then _ else _] =>
               let X := fresh in
               assert (X : b = true)
                 by (rewrite !andb_true_iff, !Nat.leb_le, !Nat.ltb_lt; lia);
               rewrite X; clear X
           end.
    replace (Z.to_nat o + 0 - Z.to_nat o)%nat with 0%nat by lia.
    replace (Z.to_nat o + 1 - Z.to_nat o)%nat with 1%nat by lia.
    replace (Z.to_nat o + 2 - Z.to_nat o)%nat with 2%nat by lia.
    replace (Z.to_nat o + 3 - Z.to_nat o)%nat with 3%nat by lia.
    cbn [nth]. destruct c; reflexivity.
  - assert (Hd : o' + 4 <= o \/ o + 4 <= o').
    { apply andb_false_iff in E.
      destruct (Z.eq_dec y y') as [-> | Hne].
      - destruct E as [E | E]; apply Z.eqb_neq in E; [| congruence].
        unfold o, o'. lia.
      - unfold o, o'. nia. }
    unfold image.RGBAAt.
    rewrite (In_packed w h p x' y' (conj Hb (conj Hs Hl))) by assumption.
    cbn [negb]. rewrite (PixOffset_packed w h p x' y' (conj Hb (conj Hs Hl))).
    fold o'. unfold Go.sliceFrom. rewrite !nth_sliceFrom.
    repeat match goal with
           | |- context [if ?b then _ else _] =>
               let X := fresh in
               assert (X : b = false)
                 by (rewrite !andb_false_iff, !Nat.leb_gt, !Nat.ltb_ge; lia);
               rewrite X; clear X
           end.
    reflexivity.
Qed.

End Pixels.

(** ** [Decompress] and [At] *)

Section DecompressLoop.

Lemma int_small z : - 2 ^ 63 <= z < 2 ^ 63 -> Go.int z = z.
Proof.
  intros H. unfold Go.int.
  change (2 ^ 63) with 9223372036854775808 in *.
  change (2 ^ 64) with 18446744073709551616.
  rewrite Z.mod_small by lia. lia.
Qed.

Lemma Size_origin w h :
  0 <= w < 2 ^ 24 -> 0 <= h < 2 ^ 24 ->
  image.Size (image.Rect 0 0 w h) = image.mkPoint w h.
Proof.
  intros Hw Hh. apply Size_Rect_origin.
  - assert (2 ^ 24 < 2 ^ 32) by reflexivity. lia.
  - assert (2 ^ 24 < 2 ^ 32) by reflexivity. lia.
Qed.

Lemma packed_NewRGBA w h :
  0 <= w < 2 ^ 24 -> 0 <= h < 2 ^ 24 ->
  packed w h (image.NewRGBA (image.Rect 0 0 w h)).
Proof.
  intros Hw Hh. unfold image.NewRGBA.
  pose proof (Size_origin w h Hw Hh) as S. unfold image.Size in S.
  injection S as -> ->.
  repeat split; cbn [image.Bounds image.Stride image.Pix].
  - apply Rect_canon; lia.
  - unfold Go.len, Go.make. rewrite repeat_length. nia.
Qed.

Lemma length_blockAt data i :
  0 <= i < Go.len data / 16 -> Go.len (blockAt data i) = 16.
Proof.
  intros Hi. unfold blockAt, Go.slice, Go.len in *.
  rewrite length_firstn, length_skipn.
  pose proof (Z.mul_div_le (Z.of_nat (length data)) 16 ltac:(lia)). lia.
Qed.

(** The first loop of [Decompress] decodes the blocks one after the
    other. *)
Lemma blocks_loop data mode (l : list Z) : forall acc,
  (forall i, In i l -> 0 <= i < Go.len data / 16) ->
  Go.forM l
    (fun blocks i =>
       let pos := i * 16 in
       blk <- decompressBlock (Go.slice data pos (pos + 16)) mode ;;
       Go.Ok (blocks ++ [blk]))
    acc
  = Go.Ok (acc ++ map (fun i => blockImage (decodedPixel (blockAt data i) mode))
                      l).
Proof.
  induction l as [| i l IH]; intros acc Hl.
  - cbn [Go.forM map]. rewrite app_nil_r. reflexivity.
  - cbn [Go.forM map]. cbv zeta.
    fold (blockAt data i).
    rewrite decompressBlock_closed
      by (apply length_blockAt, Hl; left; reflexivity).
    cbn [Go.bind]. rewrite IH by (intros j Hj; apply Hl; right; exact Hj).
    rewrite <- app_assoc. reflexivity.
Qed.

(** The second loop of [Decompress]: every pixel it visits gets the colour
    computed for it, and no other pixel changes. *)
Lemma paint_loop w h (body : image.RGBA -> Z * Z -> Go.result image.RGBA)
      (f : Z -> Z -> color.RGBA) (l : list (Z * Z)) : forall p,
  packed w h p ->
  (forall x y, In (x, y) l ->
     0 <= x < w /\ 0 <= y < h /\
     forall q, body q (x, y) = Go.Ok (image.SetRGBA q x y (f x y))) ->
  exists p',
    Go.forM l body p = Go.Ok p' /\ packed w h p' /\
    forall x y, 0 <= x < w -> 0 <= y < h ->
      (In (x, y) l -> image.RGBAAt p' x y = f x y) /\
      (~ In (x, y) l -> image.RGBAAt p' x y = image.RGBAAt p x y).
Proof.
  induction l as [| [x0 y0] l IH]; intros p Hp Hl.
  - exists p. split; [reflexivity |]. split; [exact Hp |].
    intros x y _ _. split; [intros [] | reflexivity].
  - destruct (Hl x0 y0 (or_introl eq_refl)) as (Hx0 & Hy0 & Hb).
    destruct (IH (image.SetRGBA p x0 y0 (f x0 y0))) as (p' & E & Hp' & H).
    { apply packed_SetRGBA, Hp. }
    { intros x y Hin. apply Hl. right. exact Hin. }
    exists p'. cbn [Go.forM]. rewrite Hb. cbn [Go.bind].
    split; [exact E |]. split; [exact Hp' |].
    intros x y Hx Hy. destruct (H x y Hx Hy) as [H1 H2].
    assert (Hdec : In (x, y) l \/ ~ In (x, y) l).
    { destruct (in_dec (fun a b : Z * Z =>
                          ltac:(decide equality; apply Z.eq_dec)) (x, y) l);
        auto. }
    split.
    + intros [Heq | Hin]; [| exact (H1 Hin)].
      destruct Hdec as [Hin | Hnin]; [exact (H1 Hin) |].
      rewrite (H2 Hnin). injection Heq as -> ->.
      rewrite (RGBAAt_SetRGBA w h) by assumption.
      rewrite !Z.eqb_refl. reflexivity.
    + intros Hnin.
      assert (Hnl : ~ In (x, y) l) by (intros C; apply Hnin; right; exact C).
      rewrite (H2 Hnl).
      rewrite (RGBAAt_SetRGBA w h) by assumption.
      destruct ((x0 =? x) && (y0 =? y)) eqn:Eq; [| reflexivity].
      apply andb_true_iff in Eq. destruct Eq as [Ex Ey].
      apply Z.eqb_eq in Ex, Ey. subst. exfalso. apply Hnin. left. reflexivity.
Qed.

(** A loop whose body fails at one of its elements, whatever the state,
    and fails in no other way, fails in that way. *)
Lemma forM_fails {A S} (body : S -> A -> Go.result S) (e : Go.failure)
      (l : list A) (a : A) : forall s,
  In a l ->
  (forall s, body s a = Go.Fail e) ->
  (forall s x f, body s x = Go.Fail f -> f = e) ->
  Go.forM l body s = Go.Fail e.
Proof.
  induction l as [| x l IH]; intros s Hin Ha Hf; [destruct Hin |].
  cbn [Go.forM]. destruct (body s x) as [s' | f] eqn:E.
  - cbn [Go.bind]. destruct Hin as [-> | Hin].
    + rewrite Ha in E. discriminate.
    + apply IH; assumption.
  - cbn [Go.bind]. rewrite (Hf _ _ _ E). reflexivity.
Qed.

Lemma forM_ext_in {A S} (body1 body2 : S -> A -> Go.result S) (l : list A) :
  forall s,
    (forall s x, In x l -> body1 s x = body2 s x) ->
    Go.forM l body1 s = Go.forM l body2 s.
Proof.
  induction l as [| x l IH]; intros s H; [reflexivity |].
  cbn [Go.forM]. rewrite (H s x (or_introl eq_refl)).
  destruct (body2 s x) as [s' | f]; [| reflexivity]. cbn [Go.bind].
  apply IH. intros t y Hy. apply H. right. exact Hy.
Qed.

Lemma index_map_upto {A} (g : Z -> A) n i :
  0 <= i < n -> Go.index (map g (Go.upto n)) i = Go.Ok (g i).
Proof.
  intros Hi.
  assert (Hlen : Go.len (map g (Go.upto n)) = n).
  { unfold Go.len, Go.upto. rewrite !length_map, length_seq. lia. }
  destruct (index_ok (map g (Go.upto n)) i) as (v & E & N); [lia |].
  rewrite E. f_equal.
  unfold Go.upto in N. rewrite map_map in N.
  rewrite nth_error_map in N.
  rewrite nth_error_seq in N.
  destruct (Nat.ltb_spec (Z.to_nat i) (Z.to_nat n)); [| lia].
  cbn in N. injection N as <-. f_equal. lia.
Qed.

Lemma index_out {A} (s : list A) i :
  Go.len s <= i -> Go.index s i = Go.Fail (Go.panic "index out of range").
Proof.
  intros Hi. unfold Go.index.
  destruct (Z.leb_spec (Go.len s) i); [| lia].
  rewrite orb_true_r. reflexivity.
Qed.

Lemma index_fails {A} (s : list A) i f :
  Go.index s i = Go.Fail f -> f = Go.panic "index out of range".
Proof.
  unfold Go.index. destruct (_ || _); [congruence |].
  destruct (nth_error _ _); congruence.
Qed.

Lemma blockIx_value w x y :
  0 <= w < 2 ^ 24 -> 0 <= x < 2 ^ 24 -> 0 <= y < 2 ^ 24 ->
  Go.int (Z.quot (Go.int (quarter y * w)) 4 + quarter x) = blockIx w x y /\
  0 <= blockIx w x y.
Proof.
  intros Hw Hx Hy. rewrite !quarter_exact by assumption. unfold blockIx.
  change (2 ^ 24) with 16777216 in *.
  assert (0 <= y / 4 < 16777216)
    by (split; [apply Z.div_pos; lia | apply Z.div_lt_upper_bound; lia]).
  assert (0 <= x / 4 < 16777216)
    by (split; [apply Z.div_pos; lia | apply Z.div_lt_upper_bound; lia]).
  assert (0 <= y / 4 * w < 16777216 * 16777216) by nia.
  assert (0 <= y / 4 * w / 4 < 16777216 * 16777216)
    by (split; [apply Z.div_pos; lia | apply Z.div_lt_upper_bound; lia]).
  rewrite (int_small (y / 4 * w))
    by (change (2 ^ 63) with 9223372036854775808; lia).
  rewrite Z.quot_div_nonneg by lia.
  rewrite int_small by (change (2 ^ 63) with 9223372036854775808; lia).
  split; [reflexivity | lia].
Qed.

End DecompressLoop.

Lemma Decompress_unfold b w h :
  Rect b = image.Rect 0 0 w h -> 0 <= w < 2 ^ 24 -> 0 <= h < 2 ^ 24 ->
  let blocks :=
    map (fun i => blockImage (decodedPixel (blockAt (Data b) i) (Mode b)))
        (Go.upto (Go.len (Data b) / 16)) in
  Decompress b
  = Go.forM (grid h w)
      (fun rgba '(x, y) =>
         blk <- Go.index blocks (blockIx w x y) ;;
         Go.Ok (image.SetRGBA rgba x y
                  (image.RGBAAt blk (x mod 4) (y mod 4))))
      (image.NewRGBA (image.Rect 0 0 w h)).
Proof.
  intros HR Hw Hh blocks. unfold Decompress. rewrite HR.
  rewrite (blocks_loop (Data b) (Mode b)).
  2:{ intros i Hi. apply in_upto in Hi.
      rewrite Z.quot_div_nonneg in Hi by (unfold Go.len; lia). exact Hi. }
  cbn [Go.bind app]. cbv zeta.
  cbn [image.Bounds image.NewRGBA].
  rewrite (Size_origin w h Hw Hh). cbn [image.X image.Y].
  rewrite Z.quot_div_nonneg by (unfold Go.len; lia). fold blocks.
  apply forM_ext_in. intros s [x y] Hin. apply in_grid in Hin.
  assert (Hx : 0 <= x < 2 ^ 24) by lia. assert (Hy : 0 <= y < 2 ^ 24) by lia.
  destruct (blockIx_value w x y Hw Hx Hy) as [-> _].
  rewrite !Z.rem_mod_nonneg by lia. reflexivity.
Qed.

(** [Decompress] of an image at the origin returns an image of the same
    bounds whose pixel at [(x, y)] is pixel [(x mod 4, y mod 4)] of block
    [(y / 4 * w) / 4 + x / 4] of the data, provided the data holds the
    block of every pixel. *)
Lemma Decompress_blocks b w h :
  Rect b = image.Rect 0 0 w h -> 0 <= w < 2 ^ 24 -> 0 <= h < 2 ^ 24 ->
  (forall x y, 0 <= x < w -> 0 <= y < h ->
     blockIx w x y < Go.len (Data b) / 16) ->
  exists out,
    Decompress b = Go.Ok out /\
    packed w h out /\
    forall x y, 0 <= x < w -> 0 <= y < h ->
      image.RGBAAt out x y
      = decodedPixel (blockAt (Data b) (blockIx w x y)) (Mode b)
                     (4 * (y mod 4) + x mod 4).
Proof.
  intros HR Hw Hh Hall. rewrite (Decompress_unfold b w h HR Hw Hh). cbv zeta.
  set (f := fun x y => decodedPixel (blockAt (Data b) (blockIx w x y)) (Mode b)
                                    (4 * (y mod 4) + x mod 4)).
  destruct (paint_loop w h
              (fun rgba '(x, y) =>
                 blk <- Go.index
                          (map (fun i => blockImage
                                           (decodedPixel (blockAt (Data b) i)
                                                         (Mode b)))
                               (Go.upto (Go.len (Data b) / 16)))
                          (blockIx w x y) ;;
                 Go.Ok (image.SetRGBA rgba x y
                          (image.RGBAAt blk (x mod 4) (y mod 4))))
              f (grid h w) (image.NewRGBA (image.Rect 0 0 w h)))
    as (out & E & Hp & H).
  - apply packed_NewRGBA; assumption.
  - intros x y Hin. apply in_grid in Hin. destruct Hin as [Hx Hy].
    split; [exact Hx |]. split; [exact Hy |]. intros q.
    assert (Hb : 0 <= blockIx w x y).
    { apply (blockIx_value w x y); lia. }
    rewrite index_map_upto by (split; [exact Hb | apply Hall; assumption]).
    cbn [Go.bind]. rewrite RGBAAt_blockImage
      by (apply Z.mod_pos_bound; lia).
    reflexivity.
  - exists out. split; [exact E |]. split; [exact Hp |].
    intros x y Hx Hy. apply (H x y Hx Hy). apply in_grid. lia.
Qed.

(** When the data lacks the block of some pixel, [Decompress] panics. *)
Lemma Decompress_short b w h x y :
  Rect b = image.Rect 0 0 w h -> 0 <= w < 2 ^ 24 -> 0 <= h < 2 ^ 24 ->
  0 <= x < w -> 0 <= y < h ->
  Go.len (Data b) / 16 <= blockIx w x y ->
  Decompress b = Go.Fail (Go.panic "index out of range").
Proof.
  intros HR Hw Hh Hx Hy Hshort.
  rewrite (Decompress_unfold b w h HR Hw Hh). cbv zeta.
  apply (forM_fails _ _ _ (x, y)).
  - apply in_grid. lia.
  - intros s. rewrite index_out; [reflexivity |].
    unfold Go.len at 1. rewrite length_map. unfold Go.upto.
    rewrite length_map, length_seq.
    rewrite Z2Nat.id by (apply Z.div_pos; unfold Go.len; lia). exact Hshort.
  - intros s [x' y'] f E.
    destruct (Go.index _ _) as [blk |] eqn:Ei; cbn [Go.bind] in E.
    + discriminate.
    + injection E as <-. apply (index_fails _ _ _ Ei).
Qed.

Lemma slice_app_l {A} (s spare : list A) lo hi :
  0 <= lo -> lo <= hi -> hi <= Go.len s ->
  Go.slice (s ++ spare) lo hi = Go.slice s lo hi.
Proof.
  intros Hlo Hhi Hlen. unfold Go.slice, Go.len in *.
  rewrite skipn_app, firstn_app, length_skipn.
  replace (Z.to_nat lo - length s)%nat with 0%nat by lia.
  replace (Z.to_nat (hi - lo) - (length s - Z.to_nat lo))%nat with 0%nat by lia.
  cbn [skipn firstn]. rewrite app_nil_r. reflexivity.
Qed.

(** [At] on a pixel of the bounds reads sixteen bytes at byte offset
    [(y / 4) * height + (x / 4) * 16]: it panics when the capacity of the
    data ends before them, and otherwise returns pixel
    [(x mod 4, y mod 4)] of these bytes decoded as a block. *)
Lemma At_offset b spare w h x y :
  Rect b = image.Rect 0 0 w h -> 0 <= w < 2 ^ 24 -> 0 <= h < 2 ^ 24 ->
  0 <= x < w -> 0 <= y < h ->
  let off := atOffset h x y in
  (Go.len (Data b) + Go.len spare < off + 16 ->
   AtCap b spare x y = Go.Fail (Go.panic "slice bounds out of range")) /\
  (off + 16 <= Go.len (Data b) + Go.len spare ->
   AtCap b spare x y
   = Go.Ok (decodedPixel (Go.slice (Data b ++ spare) off (off + 16)) (Mode b)
                         (4 * (y mod 4) + x mod 4))).
Proof.
  intros HR Hw Hh Hx Hy off. unfold AtCap. rewrite HR.
  rewrite (Size_origin w h Hw Hh). cbn [image.X image.Y]. cbv zeta.
  destruct (Z.ltb_spec x 0); [lia |]. destruct (Z.leb_spec w x); [lia |].
  destruct (Z.ltb_spec y 0); [lia |]. destruct (Z.leb_spec h y); [lia |].
  cbn [orb].
  assert (Hx' : 0 <= x < 2 ^ 24) by lia. assert (Hy' : 0 <= y < 2 ^ 24) by lia.
  rewrite !quarter_exact by assumption.
  assert (B : 2 ^ 24 = 16777216) by reflexivity. rewrite B in *.
  assert (0 <= y / 4 < 16777216)
    by (split; [apply Z.div_pos; lia | apply Z.div_lt_upper_bound; lia]).
  assert (0 <= x / 4 < 16777216)
    by (split; [apply Z.div_pos; lia | apply Z.div_lt_upper_bound; lia]).
  assert (0 <= y / 4 * h < 16777216 * 16777216) by nia.
  rewrite (int_small (y / 4 * h))
    by (change (2 ^ 63) with 9223372036854775808; lia).
  rewrite (int_small (x / 4 * 16))
    by (change (2 ^ 63) with 9223372036854775808; lia).
  rewrite int_small by (change (2 ^ 63) with 9223372036854775808; lia).
  fold (atOffset h x y). fold off.
  assert (Hoff : 0 <= off) by (unfold off, atOffset; lia).
  unfold Go.sliceChecked.
  destruct (Z.ltb_spec off 0); [lia |].
  destruct (Z.ltb_spec (off + 16) off); [lia |]. cbn [orb].
  split; intros Hlen.
  - destruct (Z.ltb_spec (Go.len (Data b) + Go.len spare) (off + 16)); [| lia].
    reflexivity.
  - destruct (Z.ltb_spec (Go.len (Data b) + Go.len spare) (off + 16)); [lia |].
    cbn [Go.bind].
    rewrite decompressBlock_closed.
    + cbn [Go.bind]. rewrite !Z.rem_mod_nonneg by lia.
      rewrite RGBAAt_blockImage by (apply Z.mod_pos_bound; lia). reflexivity.
    + unfold Go.slice, Go.len in *.
      rewrite length_firstn, length_skipn, length_app. lia.
Qed.

(** X20.  For an image whose bounds start at the origin, with sides below
    2^24, that [Decompress] accepts: on the first row of blocks (y < 4)
    [At] returns the pixel that [Decompress] holds at the same place,
    whatever capacity the data has beyond its length. *)
Theorem At_first_block_row b spare w h out x y :
  Rect b = image.Rect 0 0 w h -> 0 <= w < 2 ^ 24 -> 0 <= h < 2 ^ 24 ->
  Decompress b = Go.Ok out ->
  0 <= x < w -> 0 <= y < h -> y < 4 ->
  AtCap b spare x y = Go.Ok (image.RGBAAt out x y).
Proof.
  intros HR Hw Hh HD Hx Hy Hy4.
  assert (Hall : forall x y, 0 <= x < w -> 0 <= y < h ->
                   blockIx w x y < Go.len (Data b) / 16).
  { intros x1 y1 Hx1 Hy1.
    destruct (Z.lt_ge_cases (blockIx w x1 y1) (Go.len (Data b) / 16))
      as [Hlt | Hge]; [exact Hlt |].
    rewrite (Decompress_short b w h x1 y1 HR Hw Hh Hx1 Hy1 Hge) in HD.
    discriminate. }
  destruct (Decompress_blocks b w h HR Hw Hh Hall) as (out' & E & _ & H).
  rewrite HD in E. injection E as <-.
  rewrite (H x y Hx Hy).
  assert (Hq : y / 4 = 0) by (apply Z.div_small; lia).
  assert (Hbi : blockIx w x y = x / 4).
  { unfold blockIx. rewrite Hq. reflexivity. }
  assert (Hoff : atOffset h x y = x / 4 * 16).
  { unfold atOffset. rewrite Hq. reflexivity. }
  destruct (At_offset b spare w h x y HR Hw Hh Hx Hy) as [_ HA].
  cbv zeta in HA. rewrite Hoff in HA.
  assert (Hin : x / 4 * 16 + 16 <= Go.len (Data b)).
  { specialize (Hall x y Hx Hy). rewrite Hbi in Hall.
    pose proof (Z.mul_div_le (Go.len (Data b)) 16 ltac:(lia)). lia. }
  assert (Hx4 : 0 <= x / 4) by (apply Z.div_pos; lia).
  rewrite HA by (unfold Go.len in *; lia).
  rewrite slice_app_l by lia. rewrite Hbi. reflexivity.
Qed.

(** ** Whole images *)

Section Chunks.

Lemma blockAt_concat (l : list (list Z)) : forall i,
  Forall (fun c => length c = 16%nat) l ->
  0 <= i < Go.len l ->
  blockAt (concat l) i = nth (Z.to_nat i) l [].
Proof.
  induction l as [| c l IH]; intros i Hall Hi.
  - unfold Go.len in Hi. cbn in Hi. lia.
  - inversion Hall as [| ? ? Hc Hl]; subst.
    unfold blockAt, Go.slice in *.
    replace (Z.to_nat (i * 16 + 16 - i * 16)) with 16%nat in * by lia.
    destruct (Z.eq_dec i 0) as [-> | Hne].
    + cbn [Z.mul Z.to_nat skipn concat nth].
      rewrite firstn_app, Hc, Nat.sub_diag, firstn_O, app_nil_r.
      rewrite <- Hc. apply firstn_all.
    + replace (Z.to_nat i) with (S (Z.to_nat (i - 1))) by lia.
      cbn [nth concat].
      replace (Z.to_nat (i * 16)) with (length c + Z.to_nat ((i - 1) * 16))%nat
        by lia.
      rewrite skipn_app, Nat.add_comm, Nat.add_sub.
      rewrite (skipn_all2 c) by lia. cbn [app].
      specialize (IH (i - 1) Hl).
      replace (Z.to_nat ((i - 1) * 16 + 16 - (i - 1) * 16)) with 16%nat in IH
        by lia.
      apply IH. unfold Go.len in *. cbn [length] in Hi. lia.
Qed.

Lemma nth_flat_map {A B} (g : A -> list B) (m : nat) (l : list A) :
  (forall a, length (g a) = m) ->
  forall k j da db,
    (k < length l)%nat -> (j < m)%nat ->
    nth (k * m + j) (flat_map g l) db = nth j (g (nth k l da)) db.
Proof.
  intros Hg. induction l as [| a l IH]; intros k j da db Hk Hj.
  - cbn in Hk. lia.
  - cbn [flat_map]. destruct k as [| k].
    + cbn [Nat.mul Nat.add nth]. apply app_nth1. rewrite Hg. exact Hj.
    + cbn [nth]. rewrite app_nth2 by (rewrite Hg; nia).
      rewrite Hg. replace (S k * m + j - m)%nat with (k * m + j)%nat by nia.
      apply IH; [cbn [length] in Hk; lia | exact Hj].
Qed.

Lemma nth_map_in {A B} (f : A -> B) (l : list A) (k : nat) (d : A) (d' : B) :
  (k < length l)%nat -> nth k (map f l) d' = f (nth k l d).
Proof.
  intros Hk. rewrite (nth_indep _ d' (f d)) by (rewrite length_map; exact Hk).
  apply map_nth.
Qed.

Lemma nth_upto n k : (k < Z.to_nat n)%nat -> nth k (Go.upto n) 0 = Z.of_nat k.
Proof.
  intros Hk. unfold Go.upto.
  rewrite (nth_map_in Z.of_nat _ k 0%nat) by (rewrite length_seq; exact Hk).
  rewrite seq_nth by exact Hk. reflexivity.
Qed.

Lemma nth_grid ny nx x y :
  0 <= x < nx -> 0 <= y < ny ->
  nth (Z.to_nat (y * nx + x)) (grid ny nx) (0, 0) = (x, y).
Proof.
  intros Hx Hy. unfold grid.
  replace (Z.to_nat (y * nx + x))
    with (Z.to_nat y * Z.to_nat nx + Z.to_nat x)%nat by nia.
  rewrite (nth_flat_map _ (Z.to_nat nx) _) with (da := 0).
  - rewrite (nth_map_in _ _ _ 0)
      by (unfold Go.upto; rewrite length_map, length_seq; lia).
    rewrite !nth_upto by lia. f_equal; lia.
  - intros a. unfold Go.upto. rewrite !length_map, length_seq. reflexivity.
  - unfold Go.upto. rewrite length_map, length_seq. lia.
  - lia.
Qed.

End Chunks.

Lemma cellBlocks_eq (img : image.RGBA) :
  cellBlocks img
  = map (fun '(x, y) => blockOf img x y)
        (grid (Z.quot (image.Y (image.Size (image.Bounds img))) 4)
              (Z.quot (image.X (image.Size (image.Bounds img))) 4)).
Proof. reflexivity. Qed.

Lemma RGBAAt_bytes p x y :
  Forall isByte (image.Pix p) ->
  isByte (color.R (image.RGBAAt p x y)) /\
  isByte (color.G (image.RGBAAt p x y)).
Proof.
  intros Hb. unfold image.RGBAAt.
  destruct (negb _); [cbn; unfold isByte; lia |].
  cbn [color.R color.G]. unfold Go.sliceFrom. rewrite !nth_sliceFrom.
  assert (N : forall k, isByte (nth k (image.Pix p) 0)).
  { intros k. destruct (Nat.lt_ge_cases k (length (image.Pix p))) as [H | H].
    - rewrite Forall_forall in Hb. apply Hb, nth_In, H.
    - rewrite nth_overflow by exact H. unfold isByte. lia. }
  split; apply N.
Qed.

Lemma blue_Zero r g p : blue Zero r g p = 0.
Proof. reflexivity. Qed.

Lemma decoded_compressed block mode x y :
  byteBlock block -> 0 <= x < 4 -> 0 <= y < 4 ->
  let c := decodedPixel (compressBlock block) mode (4 * y + x) in
  (color.R c, color.G c) = quantized block (3 - x) (3 - y).
Proof.
  intros Hb Hx Hy c.
  destruct (half_turn_pixels block mode Hb) as (out & E & H).
  rewrite decompressBlock_closed in E
    by (unfold Go.len; rewrite (proj1 (compressBlock_bytes block)); reflexivity).
  apply Ok_inj in E. subst out.
  specialize (H x y Hx Hy). rewrite RGBAAt_blockImage in H by assumption.
  exact H.
Qed.

Lemma byteBlock_blockOf pix stride w h bx by_ :
  0 <= stride -> 0 <= bx -> 0 <= by_ ->
  bx * 4 + 4 <= w -> by_ * 4 + 4 <= h ->
  Forall isByte pix ->
  byteBlock (blockOf (image.mkRGBA pix stride (image.Rect 0 0 w h)) bx by_).
Proof.
  intros Hs Hbx Hby Hw Hh Hb. unfold byteBlock, reds, greens.
  split; apply Forall_forall; intros v Hv; apply in_map_iff in Hv;
    destruct Hv as ([x y] & <- & Hin); apply in_grid in Hin;
    rewrite (blockOf_inside pix stride w h bx by_ x y) by lia;
    apply RGBAAt_bytes; exact Hb.
Qed.

Lemma compressed_image pix n :
  0 <= n < 2 ^ 24 -> n mod 4 = 0 ->
  let img := image.mkRGBA pix (4 * n) (image.Rect 0 0 n n) in
  let data := concat (map compressBlock (cellBlocks img)) in
  NewBC5FromRGBA img = Go.Ok (mkBC5 data (image.Rect 0 0 n n) Zero) /\
  Go.len data = 16 * (n / 4 * (n / 4)) /\
  forall bx by_, 0 <= bx < n / 4 -> 0 <= by_ < n / 4 ->
    blockAt data (by_ * (n / 4) + bx) = compressBlock (blockOf img bx by_).
Proof.
  intros Hn Hmod img data.
  assert (HS : image.Size (image.Bounds img) = image.mkPoint n n)
    by (apply Size_origin; assumption).
  assert (Hm : 0 <= n / 4) by (apply Z.div_pos; lia).
  assert (Hq : Z.quot n 4 = n / 4) by (apply Z.quot_div_nonneg; lia).
  destruct (SetFromRGBA_cases newBC5 img) as (_ & _ & H3 & _). cbv zeta in H3.
  rewrite HS in H3. cbn [image.X image.Y] in H3.
  destruct H3 as [E L];
    [reflexivity | rewrite Z.rem_mod_nonneg by lia; exact Hmod
     | assert (2 ^ 24 < 2 ^ 32) by reflexivity; lia |].
  rewrite Hq, Z.max_r in L by lia.
  split; [exact E |]. split; [exact L |].
  intros bx by_ Hbx Hby. unfold data.
  rewrite blockAt_concat.
  - rewrite cellBlocks_eq, HS. cbn [image.X image.Y]. rewrite Hq.
    rewrite (nth_map_in compressBlock _ _ image.empty).
    + f_equal.
      rewrite (nth_map_in (fun '(x, y) => blockOf img x y) _ _ (0, 0)).
      * rewrite nth_grid by lia. reflexivity.
      * pose proof (length_grid (n / 4) (n / 4)) as G. unfold Go.len in G.
        rewrite !Z.max_r in G by lia. nia.
    + rewrite length_map.
      pose proof (length_grid (n / 4) (n / 4)) as G. unfold Go.len in G.
      rewrite !Z.max_r in G by lia. nia.
  - apply Forall_forall. intros c Hc. apply in_map_iff in Hc.
    destruct Hc as (blk & <- & _). apply compressBlock_bytes.
  - unfold Go.len. rewrite length_map, cellBlocks_eq, length_map, HS.
    cbn [image.X image.Y]. rewrite Hq.
    pose proof (length_grid (n / 4) (n / 4)) as G. unfold Go.len in G.
    rewrite !Z.max_r in G by lia. nia.
Qed.

Lemma roundtrip_pixels pix n :
  0 <= n < 2 ^ 24 -> n mod 4 = 0 ->
  Go.len pix = 4 * n * n -> Forall isByte pix ->
  let img := image.mkRGBA pix (4 * n) (image.Rect 0 0 n n) in
  exists bc out,
    NewBC5FromRGBA img = Go.Ok bc /\
    Decompress bc = Go.Ok out /\
    packed n n out /\
    forall x y, 0 <= x < n -> 0 <= y < n ->
      let c' := image.RGBAAt out x y in
      (color.R c', color.G c')
      = quantized (blockOf img (x / 4) (y / 4)) (3 - x mod 4) (3 - y mod 4) /\
      color.B c' = 0 /\ color.A c' = 1.
Proof.
  intros Hn Hmod Hlen Hb img.
  destruct (compressed_image pix n Hn Hmod) as (E & L & HB).
  fold img in E, L, HB.
  set (data := concat (map compressBlock (cellBlocks img))) in *.
  set (bc := mkBC5 data (image.Rect 0 0 n n) Zero).
  assert (Hm : 0 <= n / 4) by (apply Z.div_pos; lia).
  assert (Hn4 : n = 4 * (n / 4)).
  { pose proof (Z.div_mod n 4 ltac:(lia)). lia. }
  assert (Hix : forall x y, 0 <= x < n -> 0 <= y < n ->
            blockIx n x y = y / 4 * (n / 4) + x / 4 /\
            0 <= x / 4 < n / 4 /\ 0 <= y / 4 < n / 4).
  { intros x y Hx Hy. unfold blockIx.
    assert (Q : y / 4 * n / 4 = y / 4 * (n / 4)).
    { set (m := n / 4) in *. rewrite Hn4.
      replace (y / 4 * (4 * m)) with (y / 4 * m * 4) by ring.
      apply Z.div_mul. lia. }
    rewrite Q. split; [reflexivity |].
    split; (split; [apply Z.div_pos; lia | apply Z.div_lt_upper_bound; lia]). }
  destruct (Decompress_blocks bc n n) as (out & D & Hp & H);
    [reflexivity | assumption | assumption | |].
  { intros x y Hx Hy. destruct (Hix x y Hx Hy) as (-> & Bx & By).
    cbn [Data bc]. rewrite L.
    replace (16 * (n / 4 * (n / 4))) with (n / 4 * (n / 4) * 16) by ring.
    rewrite Z.div_mul by lia. nia. }
  exists bc, out. split; [exact E |]. split; [exact D |]. split; [exact Hp |].
  intros x y Hx Hy. cbv zeta. rewrite (H x y Hx Hy). cbn [Data Mode bc].
  destruct (Hix x y Hx Hy) as (-> & Bx & By).
  rewrite (HB (x / 4) (y / 4) Bx By).
  pose proof (Z.mod_pos_bound x 4 ltac:(lia)) as Mx.
  pose proof (Z.mod_pos_bound y 4 ltac:(lia)) as My.
  split.
  - apply decoded_compressed; try assumption.
    apply byteBlock_blockOf; try lia. exact Hb.
  - unfold decodedPixel. cbn [color.B color.A]. rewrite blue_Zero. auto.
Qed.

(** The quantized bytes of a pixel of a block are within a tenth of the
    spread of their channel, plus one, of the bytes of the pixel, for any
    bounds [lo] and [hi] of the channel; a byte on a bound is kept. *)
Lemma quantized_within blk x y :
  byteBlock blk -> 0 <= x < 4 -> 0 <= y < 4 ->
  let c := image.RGBAAt blk x y in
  (forall lo hi,
     (forall i j, 0 <= i < 4 -> 0 <= j < 4 ->
        lo <= color.R (image.RGBAAt blk i j) <= hi) ->
     10 * Z.abs (fst (quantized blk x y) - color.R c) <= hi - lo + 10 /\
     (color.R c = lo \/ color.R c = hi -> fst (quantized blk x y) = color.R c))
  /\
  (forall lo hi,
     (forall i j, 0 <= i < 4 -> 0 <= j < 4 ->
        lo <= color.G (image.RGBAAt blk i j) <= hi) ->
     10 * Z.abs (snd (quantized blk x y) - color.G c) <= hi - lo + 10 /\
     (color.G c = lo \/ color.G c = hi -> snd (quantized blk x y) = color.G c)).
Proof.
  intros Hb Hx Hy c. subst c.
  pose proof (minmax_extremes blk Hb) as M. unfold quantized.
  destruct (minmax blk) as [[[mnR mxR] mnG] mxG].
  destruct M as (M1 & M2 & M3 & M4). cbn [fst snd].
  destruct (in_reds blk x y Hx Hy) as [IR IG].
  pose proof Hb as [Br Bg].
  destruct (isMin_isMax_bytes _ _ _ Br M1 M2) as (B1 & B2 & _).
  destruct (isMin_isMax_bytes _ _ _ Bg M3 M4) as (B3 & B4 & _).
  destruct M1 as [I1 M1], M2 as [I2 M2], M3 as [I3 M3], M4 as [I4 M4].
  rewrite Forall_forall in M1, M2, M3, M4.
  destruct (quantize_bound mnR mxR _ B1 B2 (conj (M1 _ IR) (M2 _ IR))) as [Q1 Q2].
  destruct (quantize_bound mnG mxG _ B3 B4 (conj (M3 _ IG) (M4 _ IG))) as [Q3 Q4].
  assert (RR : forall lo hi,
            (forall i j, 0 <= i < 4 -> 0 <= j < 4 ->
               lo <= color.R (image.RGBAAt blk i j) <= hi) ->
            lo <= mnR /\ mxR <= hi).
  { intros lo hi H. unfold reds in I1, I2.
    apply in_map_iff in I1, I2.
    destruct I1 as ([i1 j1] & <- & G1), I2 as ([i2 j2] & <- & G2).
    apply in_grid in G1, G2.
    pose proof (H i1 j1 ltac:(lia) ltac:(lia)).
    pose proof (H i2 j2 ltac:(lia) ltac:(lia)). lia. }
  assert (GG : forall lo hi,
            (forall i j, 0 <= i < 4 -> 0 <= j < 4 ->
               lo <= color.G (image.RGBAAt blk i j) <= hi) ->
            lo <= mnG /\ mxG <= hi).
  { intros lo hi H. unfold greens in I3, I4.
    apply in_map_iff in I3, I4.
    destruct I3 as ([i1 j1] & <- & G1), I4 as ([i2 j2] & <- & G2).
    apply in_grid in G1, G2.
    pose proof (H i1 j1 ltac:(lia) ltac:(lia)).
    pose proof (H i2 j2 ltac:(lia) ltac:(lia)). lia. }
  split; intros lo hi H.
  - destruct (RR lo hi H) as [L U]. split; [lia |].
    pose proof (M1 _ IR). pose proof (M2 _ IR).
    intros [E | E]; apply Q2; lia.
  - destruct (GG lo hi H) as [L U]. split; [lia |].
    pose proof (M3 _ IG). pose proof (M4 _ IG).
    intros [E | E]; apply Q4; lia.
Qed.

(** X24.  For a square image whose bounds start at the origin, whose side
    is a multiple of 4 below 2^24 and which holds the four bytes of each of
    its pixels as [image.NewRGBA] lays them out: after [NewBC5FromRGBA] and
    [Decompress], the red byte at [(x, y)] differs from the red byte of the
    source pixel that lies opposite in the same 4x4 cell by at most a tenth
    of [hi - lo], plus one, for any bounds [lo] and [hi] of the red bytes
    of the cell; a source byte that lies on such a bound is reproduced
    exactly.  The same holds for green. *)
Theorem image_roundtrip_error pix n :
  0 <= n < 2 ^ 24 -> n mod 4 = 0 ->
  Go.len pix = 4 * n * n -> Forall isByte pix ->
  let img := image.mkRGBA pix (4 * n) (image.Rect 0 0 n n) in
  exists bc out,
    NewBC5FromRGBA img = Go.Ok bc /\
    Decompress bc = Go.Ok out /\
    forall x y, 0 <= x < n -> 0 <= y < n ->
      let x0 := x / 4 * 4 in
      let y0 := y / 4 * 4 in
      let c := image.RGBAAt img (x0 + (3 - x mod 4)) (y0 + (3 - y mod 4)) in
      let c' := image.RGBAAt out x y in
      (forall lo hi,
         (forall i j, 0 <= i < 4 -> 0 <= j < 4 ->
            lo <= color.R (image.RGBAAt img (x0 + i) (y0 + j)) <= hi) ->
         10 * Z.abs (color.R c' - color.R c) <= hi - lo + 10 /\
         (color.R c = lo \/ color.R c = hi -> color.R c' = color.R c)) /\
      (forall lo hi,
         (forall i j, 0 <= i < 4 -> 0 <= j < 4 ->
            lo <= color.G (image.RGBAAt img (x0 + i) (y0 + j)) <= hi) ->
         10 * Z.abs (color.G c' - color.G c) <= hi - lo + 10 /\
         (color.G c = lo \/ color.G c = hi -> color.G c' = color.G c)).
Proof.
  intros Hn Hmod Hlen Hb img.
  destruct (roundtrip_pixels pix n Hn Hmod Hlen Hb) as (bc & out & E & D & _ & H).
  fold img in E, H. exists bc, out. split; [exact E |]. split; [exact D |].
  intros x y Hx Hy x0 y0 c c'. subst c c' x0 y0.
  destruct (H x y Hx Hy) as (Q & _). cbv zeta in Q.
  pose proof (Z.mod_pos_bound x 4 ltac:(lia)) as Mx.
  pose proof (Z.mod_pos_bound y 4 ltac:(lia)) as My.
  assert (Bx : 0 <= x / 4 /\ x / 4 * 4 + 4 <= n).
  { pose proof (Z.div_mod x 4 ltac:(lia)). pose proof (Z.div_mod n 4 ltac:(lia)).
    split; [apply Z.div_pos; lia |].
    assert (x / 4 < n / 4) by (apply Z.div_lt_upper_bound; lia). lia. }
  assert (By : 0 <= y / 4 /\ y / 4 * 4 + 4 <= n).
  { pose proof (Z.div_mod y 4 ltac:(lia)). pose proof (Z.div_mod n 4 ltac:(lia)).
    split; [apply Z.div_pos; lia |].
    assert (y / 4 < n / 4) by (apply Z.div_lt_upper_bound; lia). lia. }
  assert (P : forall i j, 0 <= i < 4 -> 0 <= j < 4 ->
            image.RGBAAt (blockOf img (x / 4) (y / 4)) i j
            = image.RGBAAt img (x / 4 * 4 + i) (y / 4 * 4 + j)).
  { intros i j Hi Hj. apply (blockOf_inside pix (4 * n) n n); lia. }
  assert (BB : byteBlock (blockOf img (x / 4) (y / 4)))
    by (apply byteBlock_blockOf; try lia; exact Hb).
  destruct (quantized_within (blockOf img (x / 4) (y / 4))
              (3 - x mod 4) (3 - y mod 4) BB ltac:(lia) ltac:(lia)) as [WR WG].
  cbv zeta in WR, WG. rewrite <- Q in WR, WG. cbn [fst snd] in WR, WG.
  rewrite P in WR, WG by lia.
  split; intros lo hi Hr.
  - apply WR. intros i j Hi Hj. rewrite P by assumption. apply Hr; assumption.
  - apply WG. intros i j Hi Hj. rewrite P by assumption. apply Hr; assumption.
Qed.


(** X22.  [makeBlocks] of an image at the origin returns, without a nil
    among them, one block for every 4x4 cell that lies inside the image,
    row after row, and pixel [(x, y)] of the block of cell [(bx, by)] is
    the pixel [(4 bx + x, 4 by + y)] of the image. *)
Theorem makeBlocks_pixels pix stride w h :
  0 <= stride -> 0 <= w < 2 ^ 32 -> 0 <= h < 2 ^ 32 ->
  let img := image.mkRGBA pix stride (image.Rect 0 0 w h) in
  exists blocks,
    makeBlocks img = Go.Ok (map Some blocks) /\
    Go.len blocks = h / 4 * (w / 4) /\
    forall bx by_ x y,
      0 <= bx < w / 4 -> 0 <= by_ < h / 4 -> 0 <= x < 4 -> 0 <= y < 4 ->
      image.RGBAAt (nth (Z.to_nat (by_ * (w / 4) + bx)) blocks image.empty) x y
      = image.RGBAAt img (bx * 4 + x) (by_ * 4 + y).
Proof.
  intros Hs Hw Hh img.
  assert (HS : image.Size (image.Bounds img) = image.mkPoint w h)
    by (apply Size_Rect_origin; assumption).
  assert (Hqw : Z.quot w 4 = w / 4) by (apply Z.quot_div_nonneg; lia).
  assert (Hqh : Z.quot h 4 = h / 4) by (apply Z.quot_div_nonneg; lia).
  assert (Hmw : 0 <= w / 4) by (apply Z.div_pos; lia).
  assert (Hmh : 0 <= h / 4) by (apply Z.div_pos; lia).
  exists (cellBlocks img). split.
  { apply makeBlocks_cells; rewrite HS; assumption. }
  rewrite cellBlocks_eq, HS. cbn [image.X image.Y]. rewrite Hqw, Hqh.
  pose proof (length_grid (h / 4) (w / 4)) as G.
  rewrite !Z.max_r in G by lia.
  split.
  - unfold Go.len in *. rewrite length_map. exact G.
  - intros bx by_ x y Hbx Hby Hx Hy.
    rewrite (nth_map_in (fun '(x, y) => blockOf img x y) _ _ (0, 0))
      by (unfold Go.len in G; nia).
    rewrite nth_grid by lia.
    pose proof (Z.mul_div_le w 4 ltac:(lia)).
    pose proof (Z.mul_div_le h 4 ltac:(lia)).
    apply (blockOf_inside pix stride w h); lia.
Qed.

(** X25.  For a square source image whose bounds start at the origin and
    whose side is a multiple of 4, at least 4 and below 2^24: the image
    that [NewBC5FromRGBA] makes of it and [Encode] writes is read back
    unchanged by [NewBC5FromFile] from a file that holds the bytes written;
    when the file cannot be opened, [NewBC5FromFile] returns the error of
    [os.Open]. *)
Theorem file_roundtrip pix n (osOpen : string -> Go.result (list Z)) path :
  4 <= n < 2 ^ 24 -> n mod 4 = 0 ->
  let img := image.mkRGBA pix (4 * n) (image.Rect 0 0 n n) in
  exists bc,
    NewBC5FromRGBA img = Go.Ok bc /\
    (osOpen path = Go.Ok (fst (Encode bc ([] : list Z))) ->
     NewBC5FromFile osOpen path = Go.Ok bc) /\
    (forall e, osOpen path = Go.Fail e ->
               NewBC5FromFile osOpen path = Go.Fail e).
Proof.
  intros Hn Hmod img.
  destruct (compressed_image pix n ltac:(lia) Hmod) as (E & L & _).
  fold img in E, L.
  eexists. split; [exact E |]. unfold NewBC5FromFile. split.
  - intros ->. cbn [Go.bind].
    set (bc := mkBC5 _ _ _).
    assert (HS : image.Size (Rect bc) = image.mkPoint n n)
      by (apply Size_origin; lia).
    rewrite Decode_Encode.
    + rewrite HS. reflexivity.
    + cbn [Data bc]. intros C. rewrite C in L.
      change (Go.len (@nil Z)) with 0 in L.
      assert (1 <= n / 4) by (apply Z.div_le_lower_bound; lia). nia.
    + rewrite HS. cbn [image.X].
      assert (2 ^ 24 < 2 ^ 32) by reflexivity. lia.
    + rewrite HS. cbn [image.Y].
      assert (2 ^ 24 < 2 ^ 32) by reflexivity. lia.
  - intros e ->. reflexivity.
Qed.

(** * The further properties, stated *)

(** ** Instances used below *)

Lemma Forall_isByteb l : forallb isByteb l = true -> Forall isByte l.
Proof.
  rewrite forallb_forall, Forall_forall. intros H v Hv.
  specialize (H v Hv). unfold isByteb in H.
  apply andb_true_iff in H. destruct H as [H1 H2].
  apply Z.leb_le in H1. apply Z.ltb_lt in H2. split; assumption.
Qed.

Lemma byteBlock_rampBlock : byteBlock rampBlock.
Proof. split; apply Forall_isByteb; vm_compute; reflexivity. Qed.

Lemma bytes_rampPix : Forall isByte rampPix.
Proof. apply Forall_isByteb. vm_compute. reflexivity. Qed.

Lemma bytes_solidStream : Forall isByte solidStream.
Proof. apply Forall_isByteb. vm_compute. reflexivity. Qed.

Lemma side8 : 0 <= 8 < 2 ^ 24.
Proof. split; [lia | reflexivity]. Qed.

Lemma side8_32 : 0 <= 8 < 2 ^ 32.
Proof. split; [lia | reflexivity]. Qed.

Lemma solidBC5_blocks x y :
  0 <= x < 8 -> 0 <= y < 8 -> blockIx 8 x y < Go.len (Data solidBC5) / 16.
Proof.
  intros Hx Hy. change (Go.len (Data solidBC5) / 16) with 4. unfold blockIx.
  Z.div_mod_to_equations. lia.
Qed.

(** ** The block codec *)

(** X1.  Unpacking an index field that was packed from sixteen palette
    indices returns the sixteen indices in the opposite order: what
    [compressBlock] packs first, [getIndices] returns last. *)
Theorem unpack_pack_reverse (vs : list Z) :
  length vs = 16%nat -> Forall isIndex vs ->
  getIndices (packIndices vs) = Go.Ok (rev vs).
Proof. exact (getIndices_packIndices_rev vs). Qed.

Lemma unpack_pack_reverse_witness :
  getIndices (packIndices indices_ramp) = Go.Ok (rev indices_ramp).
Proof.
  apply unpack_pack_reverse; [reflexivity |].
  repeat constructor; unfold isIndex; lia.
Defined.

(** X2.  [denormalize] undoes [normalize] on every byte. *)
Theorem byte_normalize_roundtrip (v : Z) :
  isByte v -> denormalize (normalize v) = v.
Proof. exact (denormalize_normalize v). Qed.

Lemma byte_normalize_roundtrip_witness : denormalize (normalize 200) = 200.
Proof. apply byte_normalize_roundtrip. unfold isByte. lia. Defined.

(** X3.  The closure [nearest] of [compressBlock] returns a palette index,
    and no entry of the palette is strictly closer to the normalized value
    than the entry it returns. *)
Theorem nearest_optimal pal v :
  isIndex (nearest pal v) /\
  forall j, 0 <= j < 8 ->
    (dist pal v j <? dist pal v (nearest pal v))%float = false.
Proof. exact (nearest_spec pal v). Qed.

Lemma compressBlock_reference_bytes_witness :
  exists minR maxR minG maxG,
    isMin minR (reds rampBlock) /\ isMax maxR (reds rampBlock) /\
    isMin minG (greens rampBlock) /\ isMax maxG (greens rampBlock) /\
    Go.slice (compressBlock rampBlock) 0 2 = [minR; maxR] /\
    Go.slice (compressBlock rampBlock) 8 10 = [minG; maxG].
Proof. apply compressBlock_reference_bytes, byteBlock_rampBlock. Defined.

Lemma compress_palettes_degenerate_witness :
  let '(minR, maxR, minG, maxG) := minmax rampBlock in
  let palR := generatePalette (normalize minR) (normalize maxR) in
  let palG := generatePalette (normalize minG) (normalize maxG) in
  (normalize maxR <? normalize minR)%float = false /\
  (normalize maxG <? normalize minG)%float = false /\
  at8 palR 6 = 0%float /\ at8 palR 7 = 1%float /\
  at8 palG 6 = 0%float /\ at8 palG 7 = 1%float.
Proof. apply compress_palettes_degenerate, byteBlock_rampBlock. Defined.

(** X6.  The byte that a value between the two reference bytes of a
    channel is reproduced as (the nearest palette entry, denormalized)
    differs from the value by at most a tenth of the distance of the
    references plus one, and a value that is one of the references is
    reproduced exactly. *)
Theorem quantize_error mn mx v :
  isByte mn -> isByte mx -> mn <= v <= mx ->
  10 * Z.abs (quantizeByte mn mx v - v) <= mx - mn + 10 /\
  (v = mn \/ v = mx -> quantizeByte mn mx v = v).
Proof. exact (quantize_bound mn mx v). Qed.

Lemma quantize_error_witness :
  10 * Z.abs (quantizeByte 10 200 57 - 57) <= 200 - 10 + 10 /\
  (57 = 10 \/ 57 = 200 -> quantizeByte 10 200 57 = 57).
Proof. apply quantize_error; unfold isByte; lia. Defined.

(** X7.  Decompressing a compressed block succeeds and gives, at [(x, y)],
    the quantized red and green bytes of the pixel at [(3 - x, 3 - y)] of
    the block: the block comes back quantized and turned by half a turn. *)
Theorem decompress_compress_half_turn (block : image.RGBA) blueMode :
  byteBlock block ->
  exists out,
    decompressBlock (compressBlock block) blueMode = Go.Ok out /\
    forall x y, 0 <= x < 4 -> 0 <= y < 4 ->
      (color.R (image.RGBAAt out x y), color.G (image.RGBAAt out x y))
      = quantized block (3 - x) (3 - y).
Proof. exact (half_turn_pixels block blueMode). Qed.

Lemma decompress_compress_half_turn_witness :
  exists out,
    decompressBlock (compressBlock rampBlock) Greyscale = Go.Ok out /\
    forall x y, 0 <= x < 4 -> 0 <= y < 4 ->
      (color.R (image.RGBAAt out x y), color.G (image.RGBAAt out x y))
      = quantized rampBlock (3 - x) (3 - y).
Proof. apply decompress_compress_half_turn, byteBlock_rampBlock. Defined.

Lemma decompress_compress_error_witness :
  exists out,
    decompressBlock (compressBlock rampBlock) Zero = Go.Ok out /\
    forall minR maxR minG maxG,
      isMin minR (reds rampBlock) -> isMax maxR (reds rampBlock) ->
      isMin minG (greens rampBlock) -> isMax maxG (greens rampBlock) ->
      forall x y, 0 <= x < 4 -> 0 <= y < 4 ->
        let c := image.RGBAAt rampBlock (3 - x) (3 - y) in
        let c' := image.RGBAAt out x y in
        10 * Z.abs (color.R c' - color.R c) <= maxR - minR + 10 /\
        10 * Z.abs (color.G c' - color.G c) <= maxG - minG + 10 /\
        (color.R c = minR \/ color.R c = maxR -> color.R c' = color.R c) /\
        (color.G c = minG \/ color.G c = maxG -> color.G c' = color.G c).
Proof. apply decompress_compress_error, byteBlock_rampBlock. Defined.

Lemma decompressBlock_channels_witness :
  exists out,
    decompressBlock solidBlock One = Go.Ok out /\
    forall x y, 0 <= x < 4 -> 0 <= y < 4 ->
      let c := image.RGBAAt out x y in
      color.A c = 1 /\ isByte (color.R c) /\ isByte (color.G c) /\
      (One = One -> color.B c = 255) /\
      (One = Greyscale -> color.B c = color.R c) /\
      (One <> One -> One <> Greyscale -> One <> ComputeNormal ->
       color.B c = 0).
Proof. apply decompressBlock_channels. reflexivity. Defined.

(** ** Compressing an image *)

(** X10.  [SetFromRGBA] returns the error "image must be square" for an
    image that is not square, and then "size must be a multiple of 4" for
    a side that is not a multiple of 4.  Otherwise, for a side from 0 to
    below 2^24, [makeBlocks] returns the blocks of the cells without a nil
    among them, and [SetFromRGBA] stores their compressed forms one after
    the other, sixteen bytes each, takes the bounds of the image and leaves
    the blue mode as it was; for a negative side above -2^24 the slots of
    [makeBlocks] stay nil and [SetFromRGBA] panics on the first of them. *)
Theorem SetFromRGBA_spec (b : BC5) (rgba : image.RGBA) :
  let size := image.Size (image.Bounds rgba) in
  (image.X size <> image.Y size ->
   SetFromRGBA b rgba = Go.Fail (Go.errorString "image must be square")) /\
  (image.X size = image.Y size -> Z.rem (image.X size) 4 <> 0 ->
   SetFromRGBA b rgba
   = Go.Fail (Go.errorString "size must be a multiple of 4")) /\
  (image.X size = image.Y size -> Z.rem (image.X size) 4 = 0 ->
   0 <= image.X size < 2 ^ 24 ->
   makeBlocks rgba = Go.Ok (map Some (cellBlocks rgba)) /\
   SetFromRGBA b rgba
   = Go.Ok (mkBC5 (concat (map compressBlock (cellBlocks rgba)))
                  (image.Bounds rgba) (Mode b)) /\
   Go.len (concat (map compressBlock (cellBlocks rgba)))
   = 16 * (Z.quot (image.Y size) 4 * Z.quot (image.X size) 4)) /\
  (image.X size = image.Y size -> Z.rem (image.X size) 4 = 0 ->
   - 2 ^ 24 < image.X size < 0 ->
   SetFromRGBA b rgba = Go.Fail (Go.panic "nil pointer dereference")).
Proof.
  intros size.
  destruct (SetFromRGBA_cases b rgba) as (H1 & H2 & H3 & H4).
  cbv zeta in H1, H2, H3, H4. fold size in H1, H2, H3, H4.
  assert (B : 2 ^ 24 < 2 ^ 32) by reflexivity.
  split; [exact H1 |]. split; [exact H2 |]. split.
  - intros Hsq Hrem Hx.
    assert (Hx32 : 0 <= image.X size < 2 ^ 32) by lia.
    assert (Hy32 : 0 <= image.Y size < 2 ^ 32) by (rewrite <- Hsq; exact Hx32).
    destruct (H3 Hsq Hrem Hx32) as [E L].
    split; [apply makeBlocks_cells; assumption |]. split; [exact E |].
    rewrite L, !Z.max_r by (apply Z.quot_pos; lia). reflexivity.
  - intros Hsq Hrem Hx. apply (H4 Hsq Hrem). lia.
Qed.

Lemma SetFromRGBA_spec_witness :
  SetFromRGBA newBC5 rampImage
  = Go.Ok (mkBC5 (concat (map compressBlock (cellBlocks rampImage)))
                 (image.Bounds rampImage) (Mode newBC5)) /\
  SetFromRGBA newBC5 invertedImage
  = Go.Fail (Go.panic "nil pointer dereference").
Proof.
  split.
  - pose proof (SetFromRGBA_spec newBC5 rampImage) as H. cbv zeta in H.
    destruct H as (_ & _ & H & _).
    exact (proj1 (proj2 (H eq_refl eq_refl side8))).
  - pose proof (SetFromRGBA_spec newBC5 invertedImage) as H. cbv zeta in H.
    destruct H as (_ & _ & _ & H).
    apply (H eq_refl eq_refl). split; reflexivity.
Defined.

Lemma Size_is_data_length_witness : Size solidBC5 = Go.len (Data solidBC5).
Proof.
  apply (Size_is_data_length newBC5 solidBC5 solidImage).
  - vm_compute. reflexivity.
  - vm_compute. split; discriminate.
Defined.

Lemma SetFromRGBA_off_origin_witness :
  SetFromRGBA newBC5 (image.mkRGBA (repeat 9 64) 16 (square4 4 0))
  = Go.Ok (mkBC5 (repeat 0 16) (square4 4 0) (Mode newBC5)).
Proof. apply SetFromRGBA_off_origin. lia. Defined.

Lemma makeBlocks_pixels_witness :
  exists blocks,
    makeBlocks rampImage = Go.Ok (map Some blocks) /\
    Go.len blocks = 8 / 4 * (8 / 4) /\
    forall bx by_ x y,
      0 <= bx < 8 / 4 -> 0 <= by_ < 8 / 4 -> 0 <= x < 4 -> 0 <= y < 4 ->
      image.RGBAAt (nth (Z.to_nat (by_ * (8 / 4) + bx)) blocks image.empty) x y
      = image.RGBAAt rampImage (bx * 4 + x) (by_ * 4 + y).
Proof.
  apply (makeBlocks_pixels rampPix (4 * 8) 8 8); [lia | apply side8_32 ..].
Defined.

(** ** The wire format *)

(** X13.  On a stream of bytes [Decode] fails with "not enough data for
    BC5" when the stream has fewer than twelve bytes and with "no image
    data found" when it has twelve bytes that start with the signature;
    it succeeds exactly when the stream has at least thirteen bytes and
    starts with the signature, whatever width and height the header
    names. *)
Theorem Decode_cases (stream : list Z) :
  Forall isByte stream ->
  (Go.len stream < 12 ->
   Decode stream = Go.Fail (Go.errorString "not enough data for BC5")) /\
  (Go.len stream = 12 -> firstn 4 stream = signatureBytes ->
   Decode stream = Go.Fail (Go.errorString "no image data found")) /\
  ((exists img, Decode stream = Go.Ok img) <->
   13 <= Go.len stream /\ firstn 4 stream = signatureBytes).
Proof. exact (Decode_outcomes stream). Qed.

Lemma Decode_cases_witness : exists img, Decode solidStream = Go.Ok img.
Proof.
  destruct (Decode_cases solidStream bytes_solidStream) as (_ & _ & H).
  apply H. split; [vm_compute; discriminate | reflexivity].
Defined.

Lemma Encode_Decode_witness :
  Encode (mkBC5 solidBlock (image.Rect 0 0 4 4) Zero) ([] : list Z)
  = (solidStream, None).
Proof.
  apply Encode_Decode; [exact bytes_solidStream | vm_compute; reflexivity].
Defined.

(** X15.  [Encode] into a buffer never fails and appends the signature,
    the width and the height of the image as 32-bit big-endian numbers and
    then the data, and nothing else: neither the blue mode nor the place
    of the bounds is written. *)
Theorem Encode_appends (img : BC5) (w : list Z) :
  Encode img w = (w ++ headerOf img ++ Data img, None).
Proof. exact (Encode_buffer img w). Qed.

(** ** Decompressing an image *)

(** X16.  The block coordinate [int(float32(v)/4)] that [At] and
    [Decompress] compute is the integer quotient [v / 4] for every
    [0 <= v < 2^24]: the detour through [float32] loses nothing there. *)
Theorem quarter_is_division (v : Z) :
  0 <= v < 2 ^ 24 -> quarter v = v / 4.
Proof. exact (quarter_exact v). Qed.

Lemma quarter_is_division_witness : quarter 1003 = 1003 / 4.
Proof. apply quarter_is_division. split; [lia | reflexivity]. Defined.

(** X17.  [Decompress] of an image whose bounds start at the origin
    returns an image of the same size whose pixel at [(x, y)] is pixel
    [(x mod 4, y mod 4)] of block number [(y / 4 * w) / 4 + x / 4] of the
    data, decoded; this holds when the data has a block for every pixel. *)
Theorem Decompress_pixels b w h :
  Rect b = image.Rect 0 0 w h -> 0 <= w < 2 ^ 24 -> 0 <= h < 2 ^ 24 ->
  (forall x y, 0 <= x < w -> 0 <= y < h ->
     blockIx w x y < Go.len (Data b) / 16) ->
  exists out,
    Decompress b = Go.Ok out /\
    packed w h out /\
    forall x y, 0 <= x < w -> 0 <= y < h ->
      image.RGBAAt out x y
      = decodedPixel (blockAt (Data b) (blockIx w x y)) (Mode b)
                     (4 * (y mod 4) + x mod 4).
Proof. exact (Decompress_blocks b w h). Qed.

Lemma Decompress_pixels_witness :
  exists out,
    Decompress solidBC5 = Go.Ok out /\
    packed 8 8 out /\
    forall x y, 0 <= x < 8 -> 0 <= y < 8 ->
      image.RGBAAt out x y
      = decodedPixel (blockAt (Data solidBC5) (blockIx 8 x y)) (Mode solidBC5)
                     (4 * (y mod 4) + x mod 4).
Proof.
  apply Decompress_pixels;
    [reflexivity | apply side8 | apply side8 | apply solidBC5_blocks].
Defined.

(** X18.  For an image whose bounds start at the origin, with sides below
    2^24: when the data lacks the block of one of the pixels of the bounds
    (its block number is at least the number of whole blocks of the data),
    [Decompress] panics with an index out of range. *)
Theorem Decompress_short_data b w h x y :
  Rect b = image.Rect 0 0 w h -> 0 <= w < 2 ^ 24 -> 0 <= h < 2 ^ 24 ->
  0 <= x < w -> 0 <= y < h ->
  Go.len (Data b) / 16 <= blockIx w x y ->
  Decompress b = Go.Fail (Go.panic "index out of range").
Proof. exact (Decompress_short b w h x y). Qed.

Lemma Decompress_short_data_witness :
  Decompress (mkBC5 solidBlock (image.Rect 0 0 8 8) Zero)
  = Go.Fail (Go.panic "index out of range").
Proof.
  apply (Decompress_short_data _ 8 8 7 7);
    [reflexivity | apply side8 | apply side8 | lia | lia |].
  vm_compute. discriminate.
Defined.

(** X19.  For an image whose bounds start at the origin, with sides below
    2^24, [At] on a pixel [(x, y)] of the bounds reads sixteen bytes at
    byte offset [(y / 4) * height + (x / 4) * 16] of the data: it panics
    when the capacity of the data ends before them, and otherwise returns
    pixel [(x mod 4, y mod 4)] of these bytes decoded as a block.  The
    bytes beyond the length of the data are those the backing array holds
    there ([spare]). *)
Theorem At_reads_offset b spare w h x y :
  Rect b = image.Rect 0 0 w h -> 0 <= w < 2 ^ 24 -> 0 <= h < 2 ^ 24 ->
  0 <= x < w -> 0 <= y < h ->
  let off := atOffset h x y in
  (Go.len (Data b) + Go.len spare < off + 16 ->
   AtCap b spare x y = Go.Fail (Go.panic "slice bounds out of range")) /\
  (off + 16 <= Go.len (Data b) + Go.len spare ->
   AtCap b spare x y
   = Go.Ok (decodedPixel (Go.slice (Data b ++ spare) off (off + 16)) (Mode b)
                         (4 * (y mod 4) + x mod 4))).
Proof. exact (At_offset b spare w h x y). Qed.

Lemma At_reads_offset_witness :
  AtCap (mkBC5 solidBlock (image.Rect 0 0 8 8) Zero) (repeat 0 484) 4 0
  = Go.Ok (decodedPixel
             (Go.slice (solidBlock ++ repeat 0 484) (atOffset 8 4 0)
                       (atOffset 8 4 0 + 16))
             Zero (4 * (0 mod 4) + 4 mod 4)) /\
  AtCap (mkBC5 solidBlock (image.Rect 0 0 8 8) Zero) [] 4 0
  = Go.Fail (Go.panic "slice bounds out of range").
Proof.
  split.
  - pose proof (At_reads_offset (mkBC5 solidBlock (image.Rect 0 0 8 8) Zero)
                  (repeat 0 484) 8 8 4 0 eq_refl side8 side8) as H.
    cbv zeta in H. apply H; try lia. vm_compute. discriminate.
  - pose proof (At_reads_offset (mkBC5 solidBlock (image.Rect 0 0 8 8) Zero)
                  [] 8 8 4 0 eq_refl side8 side8) as H.
    cbv zeta in H. apply H; try lia. vm_compute. reflexivity.
Defined.

Lemma At_first_block_row_witness :
  AtCap solidBC5 [9; 9; 9] 6 3 = Go.Ok (image.RGBAAt solidOut 6 3).
Proof.
  apply (At_first_block_row solidBC5 [9; 9; 9] 8 8);
    [reflexivity | apply side8 | apply side8 | | lia | lia | lia].
  vm_compute. reflexivity.
Defined.


(** ** Whole images *)



Lemma image_roundtrip_error_witness :
  exists bc out,
    NewBC5FromRGBA rampImage = Go.Ok bc /\
    Decompress bc = Go.Ok out /\
    forall x y, 0 <= x < 8 -> 0 <= y < 8 ->
      let x0 := x / 4 * 4 in
      let y0 := y / 4 * 4 in
      let c := image.RGBAAt rampImage (x0 + (3 - x mod 4))
                            (y0 + (3 - y mod 4)) in
      let c' := image.RGBAAt out x y in
      (forall lo hi,
         (forall i j, 0 <= i < 4 -> 0 <= j < 4 ->
            lo <= color.R (image.RGBAAt rampImage (x0 + i) (y0 + j)) <= hi) ->
         10 * Z.abs (color.R c' - color.R c) <= hi - lo + 10 /\
         (color.R c = lo \/ color.R c = hi -> color.R c' = color.R c)) /\
      (forall lo hi,
         (forall i j, 0 <= i < 4 -> 0 <= j < 4 ->
            lo <= color.G (image.RGBAAt rampImage (x0 + i) (y0 + j)) <= hi) ->
         10 * Z.abs (color.G c' - color.G c) <= hi - lo + 10 /\
         (color.G c = lo \/ color.G c = hi -> color.G c' = color.G c)).
Proof.
  apply (image_roundtrip_error rampPix 8);
    [apply side8 | reflexivity | reflexivity | apply bytes_rampPix].
Defined.

Lemma file_roundtrip_witness :
  let osOpen := fun _ : string =>
                  Go.Ok (fst (Encode (mkBC5 (concat (map compressBlock
                                                       (cellBlocks rampImage)))
                                            (image.Rect 0 0 8 8) Zero)
                                     ([] : list Z))) in
  exists bc,
    NewBC5FromRGBA rampImage = Go.Ok bc /\
    NewBC5FromFile osOpen "ramp.bc5" = Go.Ok bc.
Proof.
  intros osOpen.
  destruct (file_roundtrip rampPix 8 osOpen "ramp.bc5") as (bc & E & H & _);
    [split; [lia | reflexivity] | reflexivity |].
  exists bc. split; [exact E |]. apply H.
  destruct (compressed_image rampPix 8 side8 eq_refl) as (E' & _).
  cbv zeta in E'. change (image.mkRGBA rampPix (4 * 8) (image.Rect 0 0 8 8))
    with rampImage in E, E'.
  rewrite E' in E. apply Ok_inj in E. subst bc. reflexivity.
Defined.
